(** * async_log_replay: a shallow embedding of [load_tester.py]

    The replay engine reads a slow log of timestamped requests, re-sends them
    with the original pacing (scaled by a speed multiplier), cycles over the
    log until a wall-clock budget is used up, drains what is still in flight
    and reports run statistics; a response accumulator keeps a histogram of
    status codes and the total latency of the successful responses.

    Conventions of the embedding:
    - a Python [int] is a [Z], a Python [float] an exact rational [Q]
      (rounding of floating point is not modelled);
    - a [datetime] is its number of microseconds since [datetime.min], a
      [timedelta] a number of microseconds;
    - a method that mutates [self] or reads the clock is a computation in the
      state-and-exception monad [M] over the store it touches; a raised
      exception keeps the mutations made before it, as in Python;
    - the wall clock, the time that passes between two operations and what
      the network does to each request are inputs of the model: [latency]
      and [network] below;
    - loops that Python runs unboundedly carry a [fuel] argument and end in
      [OutOfFuel] when it is used up;
    - the log parser is modelled over what its libraries do: the match of
      the line pattern, [dateutil.parser.parse], [json.loads] and
      [dict.update] are variables of its section. *)

From Stdlib Require Import ZArith QArith Qround Qminmax Ascii String List Lia Lqa.
From stdpp Require Import gmap.

Local Open Scope Z_scope.
Set Warnings "-register-all".

(** ** Python exceptions and the state-and-exception monad *)

Inductive exn : Type :=
| CancelledError            (* asyncio.CancelledError *)
| ZeroDivisionError
| KeyError (key : string)
| TypeError
| UnboundLocalError (name : string)
| OverflowError
| OtherError (what : string). (* transport errors, decode errors, ... *)

Definition is_CancelledError (e : exn) : bool :=
  match e with CancelledError => true | _ => false end.

Inductive outcome (A : Type) : Type :=
| Ret (a : A)
| Raise (e : exn)
| OutOfFuel.
Arguments Ret {A} a.
Arguments Raise {A} e.
Arguments OutOfFuel {A}.

Definition M (S A : Type) : Type := S -> outcome A * S.

Definition ret {S A} (a : A) : M S A := fun s => (Ret a, s).
Definition raise {S A} (e : exn) : M S A := fun s => (Raise e, s).
Definition out_of_fuel {S A} : M S A := fun s => (OutOfFuel, s).

Definition bind {S A B} (c : M S A) (k : A -> M S B) : M S B :=
  fun s =>
    match c s with
    | (Ret a, s') => k a s'
    | (Raise e, s') => (Raise e, s')
    | (OutOfFuel, s') => (OutOfFuel, s')
    end.

Notation "x <- c ;; k" := (bind c (fun x => k))
  (at level 100, c at next level, right associativity).
Notation "c ;;; k" := (bind c (fun _ => k))
  (at level 100, right associativity).

(** [try: c except <handled by h>: ...]; the handler sees every exception and
    re-raises the ones its [except] clause does not name. *)
Definition try_except {S A} (c : M S A) (h : exn -> M S A) : M S A :=
  fun s =>
    match c s with
    | (Raise e, s') => h e s'
    | r => r
    end.

Definition get {S} : M S S := fun s => (Ret s, s).
Definition modify {S} (f : S -> S) : M S unit := fun s => (Ret tt, f s).
Definition lift_outcome {S A} (o : outcome A) : M S A := fun s => (o, s).

(** Run a computation over a component [T] of the store [S]. *)
Definition zoom {S T A} (proj : S -> T) (upd : T -> S -> S) (c : M T A) : M S A :=
  fun s => let '(o, t) := c (proj s) in (o, upd t s).

(** ** Numbers *)

(** Python's [a / b] on floats. *)
Definition py_div {S} (a b : Q) : M S Q :=
  if Qeq_bool b 0 then raise ZeroDivisionError else ret (a / b)%Q.

(** Python's [max(a, b)] and [min(a, b)]: the first argument wins a tie. *)
Definition py_max (a b : Q) : Q := if Qle_bool b a then a else b.
Definition py_min (a b : Q) : Q := if Qle_bool a b then a else b.

(** ** [datetime] and [timedelta] *)

Definition datetime : Type := Z.
Definition timedelta : Type := Z.

Definition datetime_min : datetime := 0.
(* 9999-12-31 23:59:59.999999 *)
Definition datetime_max : datetime := 315537897599999999.
(* 1970-01-01 00:00:00 *)
Definition unix_epoch : datetime := 62135596800000000.

Definition timedelta_zero : timedelta := 0.

(** [a - b] on two datetimes. *)
Definition datetime_diff (a b : datetime) : timedelta := a - b.

(** [d - td]: raises [OverflowError] outside [datetime.min .. datetime.max]. *)
Definition datetime_sub {S} (d : datetime) (td : timedelta) : M S datetime :=
  let r := d - td in
  if (datetime_min <=? r) && (r <=? datetime_max) then ret r else raise OverflowError.

(** [td.total_seconds()] *)
Definition total_seconds (td : timedelta) : Q := td # 1000000.

(** The datetime the wall clock shows [t] seconds after the Unix epoch. *)
Definition datetime_of_clock (t : Q) : datetime := unix_epoch + Qfloor (t * 1000000).

(** ** JSON values and the request / response objects *)

Inductive JSON : Type :=
| JNull
| JBool (b : bool)
| JNum (q : Q)
| JStr (s : string)
| JArr (items : list JSON)
| JObj (fields : list (string * JSON)).

Fixpoint assoc (k : string) (fields : list (string * JSON)) : option JSON :=
  match fields with
  | [] => None
  | (k', v) :: rest => if String.eqb k k' then Some v else assoc k rest
  end.

(** [j[k]] for a string key [k]. *)
Definition getitem {S} (j : JSON) (k : string) : M S JSON :=
  match j with
  | JObj fields =>
      match assoc k fields with
      | Some v => ret v
      | None => raise (KeyError k)
      end
  | _ => raise TypeError
  end.

(** [x + v] for a number [x] and a JSON value [v]. *)
Definition add_number {S} (x : Q) (v : JSON) : M S Q :=
  match v with
  | JNum q => ret (x + q)%Q
  | JBool b => ret (x + (if b then 1 else 0))%Q
  | _ => raise TypeError
  end.

Record Request : Type := {
  timestamp : datetime;
  method : string;
  url_path : string;
  json_body : JSON }.

Record Response : Type := {
  status : Z;
  json : JSON }.

(** ** [ElasticsearchResponseAccumulator] *)

Record ElasticsearchResponseAccumulator : Type := {
  total_took_time : Q;
  completion_status_counts : gmap Z nat }.

Record Summary : Type := {
  summary_completion_status_counts : gmap Z nat;
  average_time_per_successful_request : Q }.

(** [Counter()[k]]: a missing key counts 0. *)
Definition counter_get (c : gmap Z nat) (k : Z) : nat := default 0%nat (c !! k).

(** [Counter.update([k])] *)
Definition counter_update (c : gmap Z nat) (k : Z) : gmap Z nat :=
  <[k := S (counter_get c k)]> c.

Definition accumulator_init : ElasticsearchResponseAccumulator :=
  {| total_took_time := 0; completion_status_counts := ∅ |}.

Definition set_completion_status_counts (c : gmap Z nat)
    (a : ElasticsearchResponseAccumulator) : ElasticsearchResponseAccumulator :=
  {| total_took_time := total_took_time a; completion_status_counts := c |}.

Definition set_total_took_time (t : Q)
    (a : ElasticsearchResponseAccumulator) : ElasticsearchResponseAccumulator :=
  {| total_took_time := t; completion_status_counts := completion_status_counts a |}.

Definition process_response_information (response : Response)
    : M ElasticsearchResponseAccumulator unit :=
  modify (fun a => set_completion_status_counts
                     (counter_update (completion_status_counts a) (status response)) a) ;;;
  if status response =? 200 then
    took <- getitem (json response) "took" ;;
    a <- get ;;
    total <- add_number (total_took_time a) took ;;
    modify (set_total_took_time total)
  else ret tt.

Definition get_summary : M ElasticsearchResponseAccumulator Summary :=
  a <- get ;;
  average <- py_div (total_took_time a)
                    (inject_Z (Z.of_nat (counter_get (completion_status_counts a) 200))) ;;
  ret {| summary_completion_status_counts := completion_status_counts a;
         average_time_per_successful_request := average |}.

(** Feed a list of responses to the accumulator, stopping at the first
    exception. *)
Fixpoint process_all (rs : list Response) : M ElasticsearchResponseAccumulator unit :=
  match rs with
  | [] => ret tt
  | r :: rest => process_response_information r ;;; process_all rest
  end.

(** ** [LoadTester]: the object, the tasks it spawns and the store *)

Record LoadTester : Type := {
  request_generator_factory : unit -> list Request;
  response_accumulator : ElasticsearchResponseAccumulator;
  host : string;
  port : string;
  speed_multiplier : Q;
  log_initial_time : datetime;         (* [datetime.min]: not evaluated yet *)
  real_initial_time : option datetime; (* [None]: not evaluated yet *)
  log_delta_time : timedelta }.        (* [timedelta(0)]: not evaluated yet *)

(** [LoadTester.__init__] *)
Definition LoadTester_init (factory : unit -> list Request)
    (accumulator : ElasticsearchResponseAccumulator)
    (h p : string) (multiplier : Q) : LoadTester :=
  {| request_generator_factory := factory;
     response_accumulator := accumulator;
     host := h;
     port := p;
     speed_multiplier := multiplier;
     log_initial_time := datetime_min;
     real_initial_time := None;
     log_delta_time := timedelta_zero |}.

Definition set_response_accumulator (a : ElasticsearchResponseAccumulator)
    (l : LoadTester) : LoadTester :=
  {| request_generator_factory := request_generator_factory l;
     response_accumulator := a;
     host := host l; port := port l; speed_multiplier := speed_multiplier l;
     log_initial_time := log_initial_time l;
     real_initial_time := real_initial_time l;
     log_delta_time := log_delta_time l |}.

Definition set_log_initial_time (t : datetime) (l : LoadTester) : LoadTester :=
  {| request_generator_factory := request_generator_factory l;
     response_accumulator := response_accumulator l;
     host := host l; port := port l; speed_multiplier := speed_multiplier l;
     log_initial_time := t;
     real_initial_time := real_initial_time l;
     log_delta_time := log_delta_time l |}.

Definition set_real_initial_time (t : option datetime) (l : LoadTester) : LoadTester :=
  {| request_generator_factory := request_generator_factory l;
     response_accumulator := response_accumulator l;
     host := host l; port := port l; speed_multiplier := speed_multiplier l;
     log_initial_time := log_initial_time l;
     real_initial_time := t;
     log_delta_time := log_delta_time l |}.

Definition set_log_delta_time (d : timedelta) (l : LoadTester) : LoadTester :=
  {| request_generator_factory := request_generator_factory l;
     response_accumulator := response_accumulator l;
     host := host l; port := port l; speed_multiplier := speed_multiplier l;
     log_initial_time := log_initial_time l;
     real_initial_time := real_initial_time l;
     log_delta_time := d |}.

(** What [session.post] and [response.json()] do for one request. *)
Inductive post_behaviour : Type :=
| PostResponds (code : Z) (parsed : exn + JSON)
| PostFails (e : exn).

(** How a dispatched task ends.  [Completes early p]: the POST runs to its
    end [p] by itself: during the controller's next sleep when [early] is
    [true] (and there is such a sleep), otherwise while the drain is
    awaiting, before [cancel()] is called on it.  [Interrupted e]: the task is
    still pending when [cancel()] is called; its coroutine ends by raising
    [e], which is [CancelledError] unless its cleanup raises something
    else. *)
Inductive fate : Type :=
| Completes (early : bool) (p : post_behaviour)
| Interrupted (e : exn).

Record Task : Type := {
  task_url : string;
  task_body : JSON;
  task_fate : fate;
  task_done : bool }.

Definition set_task_done (t : Task) : Task :=
  {| task_url := task_url t; task_body := task_body t;
     task_fate := task_fate t; task_done := true |}.

(** The dictionaries that [_requests] yields. *)
Record request_dict : Type := {
  url : string;
  body : JSON;
  sleep_time : Q }.

(** What the run did, in order (a ghost log: the program never reads it). *)
Inductive action : Type :=
| APull (sleep : Q)        (* the generator yielded a request with this sleep_time *)
| ACheck (delta_secs : Q)  (* [delta_secs = time.time() - start_time] was read *)
| ASleep (delay : Q)       (* [await asyncio.sleep(delay)] *)
| ADispatch (task : nat)   (* [asyncio.ensure_future(self._fetch(...))] *)
| ASink (r : Response)     (* [process_response_information(r)] was called *)
| AUnhandled (e : exn).    (* the event loop logged an exception of a callback *)

Record Store : Type := {
  self : LoadTester;
  clock : Q;            (* wall clock, seconds since the Unix epoch *)
  ticks : nat;          (* clock readings so far *)
  tasks : list Task;    (* [asyncio.all_tasks()] but the current one, oldest first *)
  trace : list action }.

Definition on_self (f : LoadTester -> LoadTester) (s : Store) : Store :=
  {| self := f (self s); clock := clock s; ticks := ticks s;
     tasks := tasks s; trace := trace s |}.

Definition set_tasks (ts : list Task) (s : Store) : Store :=
  {| self := self s; clock := clock s; ticks := ticks s;
     tasks := ts; trace := trace s |}.

Definition log_action (a : action) : M Store unit :=
  modify (fun s => {| self := self s; clock := clock s; ticks := ticks s;
                      tasks := tasks s; trace := trace s ++ [a] |}).

Definition advance (d : Q) (s : Store) : Store :=
  {| self := self s; clock := (clock s + d)%Q; ticks := ticks s;
     tasks := tasks s; trace := trace s |}.

Record RunStats : Type := {
  run_time_minutes : Q;
  num_sent_requests : Z;
  average_requests_per_second : Q;
  num_outstanding_requests : Z;
  seconds_behind : Q;
  percentage_behind : Q }.

(** The bookkeeping of the [_requests] generator between two [next()] calls:
    what is left of the current [request_generator] and the generator's local
    variable [request] ([None] while it is unbound).  A generator that has
    not started has nothing left to iterate, like one whose pass over the log
    has just ended: both enter the [while True] body on the next call. *)
Record requests_frame : Type := {
  request_generator : list Request;
  request : option Request }.

Definition requests_start : requests_frame :=
  {| request_generator := []; request := None |}.

(** [LoadTester._fetch]: the response object built from what the transport
    returns; a transport error or an undecodable body propagates. *)
Definition _fetch (session_post : post_behaviour) : outcome Response :=
  match session_post with
  | PostResponds code (inr parsed) => Ret {| status := code; json := parsed |}
  | PostResponds code (inl e) => Raise e
  | PostFails e => Raise e
  end.

(** The result of a task's future once the task is done. *)
Definition fate_result (f : fate) : outcome Response :=
  match f with
  | Completes _ p => _fetch p
  | Interrupted e => Raise e
  end.

Definition task_result (t : Task) : outcome Response := fate_result (task_fate t).

(** [self.response_accumulator.process_response_information(r)] *)
Definition call_sink (r : Response) : M Store unit :=
  log_action (ASink r) ;;;
  zoom (fun s => response_accumulator (self s))
       (fun a => on_self (set_response_accumulator a))
       (process_response_information r).

(** [LoadTester._callback]; [fut] is the result of the finished future. *)
Definition _callback (fut : outcome Response) : M Store unit :=
  try_except
    (r <- lift_outcome fut ;; call_sink r)
    (fun e => if is_CancelledError e then ret tt else raise e).

(** A task reaches its end: it is marked done and the event loop runs its
    done-callback, logging what the callback raises. *)
Definition finish_task (i : nat) : M Store unit :=
  s <- get ;;
  match tasks s !! i with
  | Some t =>
      if task_done t then ret tt
      else
        modify (fun s => set_tasks (<[i := set_task_done t]> (tasks s)) s) ;;;
        try_except (_callback (task_result t)) (fun e => log_action (AUnhandled e))
  | None => ret tt
  end.

Fixpoint for_each {A} (l : list A) (f : A -> M Store unit) : M Store unit :=
  match l with
  | [] => ret tt
  | x :: rest => f x ;;; for_each rest f
  end.

(** What the event loop does with the tasks while the controller is
    suspended in a sleep: the pending tasks whose POST ends early reach their
    end. *)
Definition complete_early : M Store unit :=
  s <- get ;;
  for_each (seq 0 (length (tasks s)))
    (fun i => match tasks s !! i with
              | Some {| task_fate := Completes true _ |} => finish_task i
              | _ => ret tt
              end).

Section Environment.

(** The seconds that pass, beyond the requested sleeps, before the n-th
    reading of the clock, and the fate of the n-th dispatched request. *)
Variable latency : nat -> Q.
Variable network : nat -> fate.

Definition elapse (s : Store) : Store :=
  {| self := self s; clock := (clock s + latency (ticks s))%Q; ticks := S (ticks s);
     tasks := tasks s; trace := trace s |}.

(** [time.time()] *)
Definition time_time : M Store Q :=
  modify elapse ;;; s <- get ;; ret (clock s).

(** [datetime.datetime.now()] *)
Definition datetime_now : M Store datetime :=
  modify elapse ;;; s <- get ;; ret (datetime_of_clock (clock s)).

(** [await asyncio.sleep(delay)]: the clock moves on by the delay, or not
    at all when the delay is not positive, and the event loop runs the other
    tasks meanwhile. *)
Definition asyncio_sleep (delay : Q) : M Store unit :=
  log_action (ASleep delay) ;;;
  modify (advance (if Qle_bool delay 0 then 0%Q else delay)) ;;;
  complete_early.

(** [LoadTester._get_sleep_time] *)
Definition _get_sleep_time (log_time : datetime) : M Store Q :=
  s <- get ;;
  (if log_initial_time (self s) =? datetime_min
   then modify (on_self (set_log_initial_time log_time))
   else ret tt) ;;;
  real_time <- datetime_now ;;
  s <- get ;;
  let log_time_passed_secs :=
    total_seconds (datetime_diff log_time (log_initial_time (self s))) in
  real_initial <- match real_initial_time (self s) with
                  | Some t => ret t
                  | None => raise TypeError
                  end ;;
  let scaled_time_passed :=
    (total_seconds (datetime_diff real_time real_initial) * speed_multiplier (self s))%Q in
  let scaled_time_till_next_event := (log_time_passed_secs - scaled_time_passed)%Q in
  real_time_till_next_event <-
    py_div scaled_time_till_next_event (speed_multiplier (self s)) ;;
  ret real_time_till_next_event.

(** The head of the [while True] body of [_requests], up to the [for]
    loop; [last] is the generator's local variable [request]. *)
Definition cycle_start (last : option Request) : M Store unit :=
  s <- get ;;
  match real_initial_time (self s) with
  | None =>
      now <- datetime_now ;;
      modify (on_self (set_real_initial_time (Some now)))
  | Some _ =>
      if log_delta_time (self s) =? timedelta_zero then
        match last with
        | Some r =>
            modify (on_self (set_log_delta_time
                      (datetime_diff (timestamp r) (log_initial_time (self s)))))
        | None => raise (UnboundLocalError "request")
        end
      else ret tt
  end ;;;
  s <- get ;;
  shifted <- datetime_sub (log_initial_time (self s)) (log_delta_time (self s)) ;;
  modify (on_self (set_log_initial_time shifted)).

(** The body of [for request in request_generator]: the dictionary
    yielded for [r], and the frame the generator is suspended in. *)
Definition yield_request (r : Request) (rest : list Request)
    : M Store (request_dict * requests_frame) :=
  s <- get ;;
  let u := ("http://" ++ host (self s) ++ ":" ++ port (self s)
             ++ "/" ++ url_path r)%string in
  sleep <- _get_sleep_time (timestamp r) ;;
  ret ({| url := u; body := json_body r; sleep_time := sleep |},
       {| request_generator := rest; request := Some r |}).

(** [LoadTester._requests]: one [next()] on the generator, from the frame
    [f] to the next [yield].  [fuel] bounds the passes of [while True]
    started by this call. *)
Fixpoint _requests (fuel : nat) (f : requests_frame)
    : M Store (request_dict * requests_frame) :=
  match request_generator f with
  | r :: rest => yield_request r rest
  | [] =>
      match fuel with
      | O => out_of_fuel
      | S fuel' =>
          s <- get ;;
          let fresh := request_generator_factory (self s) tt in
          cycle_start (request f) ;;;
          _requests fuel' {| request_generator := fresh; request := request f |}
      end
  end.

(** [list(itertools.islice(gen, n))]: the first [n] dictionaries the
    generator yields from the frame [f], and the frame it is left in. *)
Fixpoint pulls (fuel n : nat) (f : requests_frame)
    : M Store (list request_dict * requests_frame) :=
  match n with
  | O => ret ([], f)
  | S n' =>
      y <- _requests fuel f ;;
      r <- pulls fuel n' (snd y) ;;
      ret (fst y :: fst r, snd r)
  end.

(** [asyncio.ensure_future(self._fetch(session, url, body))] with
    [add_done_callback(self._callback)]: a new pending task. *)
Definition ensure_future (u : string) (b : JSON) : M Store unit :=
  s <- get ;;
  let i := length (tasks s) in
  log_action (ADispatch i) ;;;
  modify (fun s => set_tasks (tasks s ++ [{| task_url := u; task_body := b;
                                             task_fate := network i;
                                             task_done := false |}]) s).

(** The [for request in self._requests()] loop of [run].  It is left by
    [break] only, with the last [request], [delta_secs] and
    [num_sent_requests]. *)
Fixpoint run_loop (fuel : nat) (run_time_secs start_time : Q)
    (gen : requests_frame) (num_sent : Z) : M Store (request_dict * Q * Z) :=
  match fuel with
  | O => out_of_fuel
  | S fuel' =>
      y <- _requests fuel gen ;;
      let request := fst y in
      log_action (APull (sleep_time request)) ;;;
      now <- time_time ;;
      let delta_secs := (now - start_time)%Q in
      log_action (ACheck delta_secs) ;;;
      if Qle_bool run_time_secs delta_secs then
        ret (request, delta_secs, num_sent)
      else
        asyncio_sleep (py_min (sleep_time request) (run_time_secs - delta_secs)) ;;;
        ensure_future (url request) (body request) ;;;
        run_loop fuel' run_time_secs start_time (snd y) (num_sent + 1)
  end.

(** [[task for task in asyncio.all_tasks() if not task.done() and ...]], in
    the order of dispatch ([all_tasks()] is a set and fixes no order). *)
Definition pending_tasks (s : Store) : list nat :=
  List.filter (fun i => match tasks s !! i with
                        | Some t => negb (task_done t)
                        | None => false
                        end)
              (seq 0 (length (tasks s))).

(** [task.cancel()]: a request; how the task takes it is its fate. *)
Definition task_cancel (i : nat) : M Store unit := ret tt.

(** [await task] *)
Definition await_task (i : nat) : M Store Response :=
  finish_task i ;;;
  s <- get ;;
  match tasks s !! i with
  | Some t => lift_outcome (task_result t)
  | None => raise (OtherError "no such task")
  end.

(** The cancel-and-await loop of [run]. *)
Fixpoint drain (pending : list nat) : M Store unit :=
  match pending with
  | [] => ret tt
  | task :: rest =>
      task_cancel task ;;;
      try_except (await_task task ;;; ret tt)
                 (fun e => if is_CancelledError e then ret tt else raise e) ;;;
      drain rest
  end.

(** [LoadTester.run] *)
Definition run (fuel : nat) (minutes : Q) : M Store RunStats :=
  let run_time_secs := (minutes * 60)%Q in
  start_time <- time_time ;;
  r <- run_loop fuel run_time_secs start_time requests_start 0 ;;
  let request := fst (fst r) in
  let delta_secs := snd (fst r) in
  let num_sent := snd r in
  s <- get ;;
  let pending := pending_tasks s in
  let num_outstanding := Z.of_nat (length pending) in
  drain pending ;;;
  let behind := py_max (- sleep_time request) 0 in
  average <- py_div (inject_Z num_sent) delta_secs ;;
  percentage <- py_div behind delta_secs ;;
  ret {| run_time_minutes := (delta_secs / 60)%Q;
         num_sent_requests := num_sent;
         average_requests_per_second := average;
         num_outstanding_requests := num_outstanding;
         seconds_behind := behind;
         percentage_behind := percentage |}.

(** [main]: the run, then the accumulator's summary. *)
Definition main (fuel : nat) (minutes : Q) : M Store (RunStats * Summary) :=
  run_information <- run fuel minutes ;;
  accumulator_information <-
    zoom (fun s => response_accumulator (self s))
         (fun a => on_self (set_response_accumulator a))
         get_summary ;;
  ret (run_information, accumulator_information).

(** The pacing loop as the specification words it: pull, ask the timeline,
    clamp a negative sleep to zero, sleep, then check the budget; dispatch
    only if it is not used up. *)
Fixpoint spec_run_loop (fuel : nat) (run_time_secs start_time : Q)
    (gen : requests_frame) (num_sent : Z) : M Store (request_dict * Q * Z) :=
  match fuel with
  | O => out_of_fuel
  | S fuel' =>
      y <- _requests fuel gen ;;
      let request := fst y in
      log_action (APull (sleep_time request)) ;;;
      asyncio_sleep (Qmax (sleep_time request) 0) ;;;
      now <- time_time ;;
      let delta_secs := (now - start_time)%Q in
      log_action (ACheck delta_secs) ;;;
      if Qle_bool run_time_secs delta_secs then
        ret (request, delta_secs, num_sent)
      else
        ensure_future (url request) (body request) ;;;
        spec_run_loop fuel' run_time_secs start_time (snd y) (num_sent + 1)
  end.

End Environment.

(** ** [ElasticsearchRequestLogParser] *)

(** [s.split(sep)] for a separator of one character: the pieces of [s]
    between the occurrences of [sep], never an empty list. *)
Fixpoint str_split (sep : ascii) (s : string) : list string :=
  match s with
  | EmptyString => [EmptyString]
  | String c s' =>
      if Ascii.eqb c sep then EmptyString :: str_split sep s'
      else
        match str_split sep s' with
        | piece :: pieces => String c piece :: pieces
        | [] => [String c EmptyString]
        end
  end.

(** The regular expression a line of the log has to match. *)
Definition log_line_pattern : string :=
  "^\[(?P<timestamp>.*?)\]\[.*?\]\[(?P<request_type>.*?)\]\s*\[(?P<index>.*?)\].*source\[(?P<source>.*)\],\s*extra_source\[(?P<extra_source>.*)\]".

(** [match.groupdict()] for a line that matches: the text of the five
    named groups. *)
Record match_dict : Type := {
  group_timestamp : string;
  group_request_type : string;
  group_index : string;
  group_source : string;
  group_extra_source : string }.

(** [match_dict['request_type'].split('.')[-1]] *)
Definition request_type_of (m : match_dict) : string :=
  List.last (str_split "." (group_request_type m)) EmptyString.

(** [match_dict['timestamp'].split(',')[0]] *)
Definition timestamp_text (m : match_dict) : string :=
  List.hd EmptyString (str_split "," (group_timestamp m)).

(** [d[k] = v] on a dict: the value of an existing key is replaced where
    the key stands, a new key goes to the end. *)
Fixpoint dict_set (d : list (string * JSON)) (k : string) (v : JSON)
    : list (string * JSON) :=
  match d with
  | [] => [(k, v)]
  | (k', v') :: rest =>
      if String.eqb k k' then (k', v) :: rest else (k', v') :: dict_set rest k v
  end.

(** [d.update(other)] for a dict [other]: its items are set in their
    order. *)
Definition dict_update (d other : list (string * JSON)) : list (string * JSON) :=
  fold_left (fun d kv => dict_set d (fst kv) (snd kv)) other d.

(** The exceptions of the parser that have no constructor of their own. *)
Definition Exception (message : string) : exn := OtherError message.
Definition AttributeError : exn := OtherError "AttributeError".

Section Parser.

(** What the parser takes from libraries is a parameter here: the match of
    [log_line_pattern] at the start of a line ([None]: no match), and
    [dateutil.parser.parse] and [json.loads], which return or raise.  So is
    [dict.update] on an argument that is not a dict, which Python reads as
    an iterable of key/value pairs. *)
Variable regex_match : string -> option match_dict.
Variable dateutil_parse : string -> exn + datetime.
Variable json_loads : string -> exn + JSON.
Variable update_from_pairs : list (string * JSON) -> JSON -> exn + JSON.

(** [ElasticsearchRequestLogParser._get_body] *)
Definition _get_body (m : match_dict) : exn + JSON :=
  let loaded :=
    if String.eqb (group_source m) EmptyString then inr (JObj [])
    else json_loads (group_source m) in
  match loaded with
  | inl e => inl e
  | inr json_body =>
      if String.eqb (group_extra_source m) EmptyString then inr json_body
      else
        match json_body with
        | JObj d =>
            match json_loads (group_extra_source m) with
            | inl e => inl e
            | inr (JObj other) => inr (JObj (dict_update d other))
            | inr other => update_from_pairs d other
            end
        | _ => inl AttributeError
        end
  end.

(** [ElasticsearchRequestLogParser.__iter__] over the lines of the log file:
    the requests it yields, in order, and the exception that ends the
    iteration, if one does ([None]: the lines were read to the end). *)
Fixpoint parser_iter (lines : list string) : list Request * option exn :=
  match lines with
  | [] => ([], None)
  | line :: rest =>
      match regex_match line with
      | None => ([], Some (Exception line))
      | Some m =>
          if negb (String.eqb (request_type_of m) "query") then parser_iter rest
          else
            match dateutil_parse (timestamp_text m) with
            | inl e => ([], Some e)
            | inr t =>
                match _get_body m with
                | inl e => ([], Some e)
                | inr b =>
                    let request :=
                      {| timestamp := t;
                         method := "POST";
                         url_path := ("/" ++ group_index m ++ "/_search")%string;
                         json_body := b |} in
                    (request :: fst (parser_iter rest), snd (parser_iter rest))
                end
            end
      end
  end.

End Parser.

(** The store [main] starts from: a fresh [LoadTester] over a fresh
    accumulator, no task, the clock at [t0]. *)
Definition initial_store (factory : unit -> list Request) (h p : string)
    (multiplier t0 : Q) : Store :=
  {| self := LoadTester_init factory accumulator_init h p multiplier;
     clock := t0; ticks := 0; tasks := []; trace := [] |}.

(** ** Vocabulary of the properties *)

(** The latency [process_response_information] reads from a response body:
    the number under ["took"], if there is one. *)
Definition took_of (response : Response) : option Q :=
  match json response with
  | JObj fields =>
      match assoc "took" fields with
      | Some (JNum q) => Some q
      | Some (JBool b) => Some (if b then 1 else 0)%Q
      | _ => None
      end
  | _ => None
  end.

Definition took_is_number (r : Response) : Prop :=
  status r = 200 -> exists q, took_of r = Some q.

Definition count_status (k : Z) (rs : list Response) : nat :=
  length (List.filter (fun r => status r =? k) rs).

Definition success_took (r : Response) : Q :=
  if status r =? 200 then default 0%Q (took_of r) else 0%Q.

Fixpoint total_took (rs : list Response) : Q :=
  match rs with
  | [] => 0
  | r :: rest => (success_took r + total_took rest)%Q
  end.

(** The responses the accumulator was handed, read off the ghost log. *)
Fixpoint sink_calls (tr : list action) : list Response :=
  match tr with
  | [] => []
  | ASink r :: rest => r :: sink_calls rest
  | _ :: rest => sink_calls rest
  end.

(** The controller's own steps in the ghost log, without what the
    completion callbacks logged in between. *)
Definition is_controller (a : action) : bool :=
  match a with
  | ASink _ | AUnhandled _ => false
  | _ => true
  end.

Definition controller (tr : list action) : list action := List.filter is_controller tr.

Fixpoint dispatches (tr : list action) : nat :=
  match tr with
  | [] => 0
  | ADispatch _ :: rest => S (dispatches rest)
  | _ :: rest => dispatches rest
  end.

(** The ghost log of pacing-loop iterations that dispatched: each pulls a
    request, reads the elapsed time and finds budget left, sleeps for
    [min(sleep_time, budget - elapsed)], and dispatches. *)
Inductive paced (budget : Q) : list action -> Prop :=
| paced_nil : paced budget []
| paced_cons (sleep delta : Q) (task : nat) (rest : list action) :
    Qle_bool budget delta = false ->
    paced budget rest ->
    paced budget (APull sleep :: ACheck delta
                  :: ASleep (py_min sleep (budget - delta)) :: ADispatch task :: rest).

Inductive step_kind : Type := KPull | KCheck | KSleep | KDispatch | KSink | KUnhandled.

Definition kind (a : action) : step_kind :=
  match a with
  | APull _ => KPull
  | ACheck _ => KCheck
  | ASleep _ => KSleep
  | ADispatch _ => KDispatch
  | ASink _ => KSink
  | AUnhandled _ => KUnhandled
  end.

(** An update of the [LoadTester] that touches the timeline only: the log
    origin, the replay start or the log duration. *)
Definition timeline_update (f : LoadTester -> LoadTester) : Prop :=
  forall l,
    request_generator_factory (f l) = request_generator_factory l /\
    response_accumulator (f l) = response_accumulator l /\
    host (f l) = host l /\ port (f l) = port l /\
    speed_multiplier (f l) = speed_multiplier l.

(** A computation keeps a relation when the store it ends in, however it
    ends, is related to the one it started from. *)
Definition keeps {A} (R : Store -> Store -> Prop) (c : M Store A) : Prop :=
  forall s o s', c s = (o, s') -> R s s'.

(** The ghost log and the task list are the same. *)
Definition unlogged (s s' : Store) : Prop :=
  trace s' = trace s /\ tasks s' = tasks s.

(** The clock has not gone back and the log to replay is the same. *)
Definition onward (s s' : Store) : Prop :=
  (clock s <= clock s')%Q /\
  request_generator_factory (self s') = request_generator_factory (self s).

(** A computation that the fuel of the model does not stop. *)
Definition fuelled {S A} (c : M S A) : Prop :=
  forall s, fst (c s) <> OutOfFuel.

Definition fates (s : Store) : list fate := task_fate <$> tasks s.

(** An end of a task that the drain passes over: it was cancelled, or it
    finished with a response before its [cancel()]. *)
Definition passes (f : fate) : Prop :=
  fate_result f = Raise CancelledError \/ exists r, fate_result f = Ret r.

(** A pending task the drain passes over. *)
Definition benign (s : Store) (i : nat) : Prop :=
  exists f, fates s !! i = Some f /\ passes f.

(** [s'] differs from [s] at most in which tasks are done, in what the
    callbacks logged and in the accumulator: the tasks' fates, the
    controller's part of the log, the timeline and the clock are the same. *)
Definition undisturbed (s s' : Store) : Prop :=
  fates s' = fates s /\
  controller (trace s') = controller (trace s) /\
  (exists a, self s' = set_response_accumulator a (self s)) /\
  clock s' = clock s /\ ticks s' = ticks s.

(** The timeline once the first event has been seen and before the log has
    wrapped. *)
Definition timeline_set (l : LoadTester) (log_origin : datetime) : Prop :=
  log_initial_time l = log_origin /\ log_origin <> datetime_min /\
  (exists replay_start, real_initial_time l = Some replay_start) /\
  log_delta_time l = timedelta_zero /\
  (0 < speed_multiplier l)%Q.

(** *** Invariants of a run *)

(** A property of the store that a computation hands on, however it ends. *)
Definition preserves {A} (P : Store -> Prop) (c : M Store A) : Prop :=
  forall s, P s -> P (snd (c s)).

(** The store after [log_action a]. *)
Definition logged (a : action) (s : Store) : Store := snd (log_action a s).

(** The accumulator holds the tally of the responses the callbacks handed
    to it: a count per status and the sum of the successes' [took]. *)
Definition tallied (s : Store) : Prop :=
  (forall k, counter_get (completion_status_counts (response_accumulator (self s))) k
             = count_status k (sink_calls (trace s))) /\
  (total_took_time (response_accumulator (self s)) == total_took (sink_calls (trace s)))%Q.

(** The response of a task that is done and ended with one. *)
Definition response_of (t : Task) : option Response :=
  if task_done t then
    match task_result t with
    | Ret r => Some r
    | _ => None
    end
  else None.

Definition done_responses (ts : list Task) : list Response := omap response_of ts.

(** The responses handed to the accumulator are those of the tasks that are
    done, each once, in some order. *)
Definition counted_once (s : Store) : Prop :=
  sink_calls (trace s) ≡ₚ done_responses (tasks s).

(** The accumulator after the callbacks of [rs], one call each, in this
    order; a call that raises leaves what it did before raising. *)
Definition feed (rs : list Response) (a : ElasticsearchResponseAccumulator)
    : ElasticsearchResponseAccumulator :=
  fold_left (fun a r => snd (process_response_information r a)) rs a.

(** The task list with task [i] marked done. *)
Definition mark_done (i : nat) (ts : list Task) : list Task :=
  match ts !! i with
  | Some t => <[i := set_task_done t]> ts
  | None => ts
  end.

Definition mark_all (l : list nat) (ts : list Task) : list Task :=
  foldl (fun ts i => mark_done i ts) ts l.

(** Task [j] exists and is done. *)
Definition done_at (ts : list Task) (j : nat) : Prop :=
  exists t, ts !! j = Some t /\ task_done t = true.

(** The URL a request is sent to. *)
Definition request_url (l : LoadTester) (r : Request) : string :=
  ("http://" ++ host l ++ ":" ++ port l ++ "/" ++ url_path r)%string.

(** The generator is suspended at the [yield] of request number [i] of the
    replay, counting from 0 and through the passes over [log]. *)
Definition frame_at (log : list Request) (i : nat) (f : requests_frame) : Prop :=
  request_generator f = drop (S (i mod length log)%nat) log /\
  request f = log !! (i mod length log)%nat.

(** The generator's next request is number [i] of the replay. *)
Definition next_at (log : list Request) (i : nat) (f : requests_frame) : Prop :=
  match i with
  | O => f = requests_start
  | S i' => frame_at log i' f
  end.

(** What does not change about a replay while it runs. *)
Definition same_replay (s s' : Store) : Prop :=
  request_generator_factory (self s') = request_generator_factory (self s) /\
  host (self s') = host (self s) /\ port (self s') = port (self s) /\
  speed_multiplier (self s') = speed_multiplier (self s) /\
  tasks s' = tasks s /\ trace s' = trace s.

(** What a task was dispatched with. *)
Definition static (t : Task) : string * JSON * fate :=
  (task_url t, task_body t, task_fate t).

(** The tasks are the requests of the log in order, pass after pass, each
    with the fate the network has for it. *)
Definition in_log_order (network : nat -> fate) (log : list Request) (l : LoadTester)
    (ts : list Task) : Prop :=
  forall i t, ts !! i = Some t ->
    exists r, log !! (i mod length log)%nat = Some r /\
      task_url t = request_url l r /\ task_body t = json_body r /\
      task_fate t = network i.

(** The timeline as [__init__] leaves it. *)
Definition fresh_timeline (l : LoadTester) : Prop :=
  log_initial_time l = datetime_min /\ real_initial_time l = None /\
  log_delta_time l = timedelta_zero.

(** *** The replay of a log that is not empty *)

Section Replay.
Variable first : Request.
Variable rest : list Request.

Definition log_last : Request := List.last rest first.

Definition log_duration : timedelta :=
  datetime_diff (timestamp log_last) (timestamp first).

(** The origins of the first [K] passes are datetimes after [datetime.min]. *)
Definition wraps_in_range (K : nat) : Prop :=
  forall j, (j < K)%nat ->
    datetime_min < timestamp first - Z.of_nat j * log_duration <= datetime_max.

(** Where the generator stands: not started ([k = 0]), or suspended in its
    [k]-th pass over the log [first :: rest]. *)
Definition generator_at (k : nat) (l : LoadTester) (f : requests_frame) : Prop :=
  request_generator_factory l tt = first :: rest /\
  (0 < speed_multiplier l)%Q /\
  match k with
  | O =>
      log_initial_time l = datetime_min /\ real_initial_time l = None /\
      log_delta_time l = timedelta_zero /\ f = requests_start
  | S j =>
      log_initial_time l = timestamp first - Z.of_nat j * log_duration /\
      real_initial_time l <> None /\
      log_delta_time l = match j with O => timedelta_zero | S _ => log_duration end /\
      exists r, request f = Some r /\ List.last (request_generator f) r = log_last
  end.
End Replay.

(** The character [c] does not occur in [s]. *)
Fixpoint free_of (c : ascii) (s : string) : Prop :=
  match s with
  | EmptyString => True
  | String c' s' => c' <> c /\ free_of c s'
  end.

(** The value a dict holds for [k] after the items [items] were set in
    their order, if one of them had the key [k]: the last such. *)
Fixpoint last_set (k : string) (items : list (string * JSON)) : option JSON :=
  match items with
  | [] => None
  | (k', v) :: rest =>
      match last_set k rest with
      | Some v' => Some v'
      | None => if String.eqb k k' then Some v else None
      end
  end.

(** The wall clock after [j] more readings, from the clock [c] and the
    reading count [t]. *)
Fixpoint clock_after (latency : nat -> Q) (j : nat) (c : Q) (t : nat) : Q :=
  match j with
  | O => c
  | S j' => clock_after latency j' (c + latency t)%Q (S t)
  end.

(** The generator has yielded request number [i] of the replay of
    [first :: rest], and the timeline is the linear one: the origin has moved
    back by the duration of the log once for every pass completed. *)
Definition replay_at (first : Request) (rest : list Request) (i : nat)
    (replay_start : datetime) (l : LoadTester) (f : requests_frame) : Prop :=
  let passes := (i / length (first :: rest))%nat in
  frame_at (first :: rest) i f /\
  request_generator_factory l tt = first :: rest /\
  log_initial_time l = timestamp first - Z.of_nat passes * log_duration first rest /\
  real_initial_time l = Some replay_start /\
  log_delta_time l = match passes with
                     | O => timedelta_zero
                     | S _ => log_duration first rest
                     end.

(** The sleep time of request number [i] of a linear replay, read at the
    clock [c]: the request is due when the replay has run for the time from
    the first timestamp to its own, moved on by the duration of the log for
    every pass before, over the speed multiplier. *)
Definition linear_sleep (first : Request) (rest : list Request) (m : Q)
    (replay_start : datetime) (i : nat) (c : Q) (y : request_dict) : Prop :=
  exists r, (first :: rest) !! (i mod length (first :: rest))%nat = Some r /\
    body y = json_body r /\
    (sleep_time y ==
       total_seconds (datetime_diff
                        (timestamp r + Z.of_nat (i / length (first :: rest))
                                       * log_duration first rest)%Z
                        (timestamp first)) / m
       - total_seconds (datetime_diff (datetime_of_clock c) replay_start))%Q.

(** ** Example inputs *)

(* 2019-01-01 00:00:00 *)
Definition t_2019 : datetime := 63681724800000000.

Definition search (t : datetime) : Request :=
  {| timestamp := t; method := "POST"; url_path := "/logs/_search"; json_body := JObj [] |}.

(** A log of two queries, twenty seconds apart. *)
Definition two_events (_ : unit) : list Request :=
  [search t_2019; search (t_2019 + 20000000)].

(** A log whose second query is stamped a thousand seconds before the first. *)
Definition out_of_order (_ : unit) : list Request :=
  [search t_2019; search (t_2019 - 1000000000)].

Definition no_latency (n : nat) : Q := 0.
Definition one_second (n : nat) : Q := 1.

Definition always_cancelled (n : nat) : fate := Interrupted CancelledError.
Definition always_500 (n : nat) : fate :=
  Completes true (PostResponds 500 (inr (JObj []))).

Definition connection_refused : exn := OtherError "connection refused".

Definition fresh_store : Store := initial_store two_events "localhost" "9200" 1 0.

Definition always_200 (n : nat) : fate :=
  Completes true (PostResponds 200 (inr (JObj [("took"%string, JNum 3)]))).

(** A fresh [LoadTester] over a log without requests, and one with a speed
    multiplier of zero. *)
Definition empty_log_store : Store :=
  initial_store (fun _ => []) "localhost" "9200" 1 0.
Definition zero_speed_store : Store :=
  initial_store two_events "localhost" "9200" 0 0.

(** A fresh [LoadTester] over a log with a single request. *)
Definition single_request_store : Store :=
  initial_store (fun _ => [search t_2019]) "localhost" "9200" 1 0.

(** A line of a slow log as the parser sees it once matched, and stand-ins
    for the libraries: one line matches, every timestamp reads as the first
    instant of 2019, two texts parse as JSON objects. *)
Definition query_line : match_dict :=
  {| group_timestamp := "2019-01-01 00:00:00,123";
     group_request_type := "index.search.slowlog.query";
     group_index := "logs";
     group_source := "SOURCE";
     group_extra_source := "EXTRA" |}.

Definition match_example (line : string) : option match_dict :=
  if String.eqb line "a query line" then Some query_line else None.

Definition parse_example (text : string) : exn + datetime := inr t_2019.

(** A log of the fetch phase only: every line matches, none is a query. *)
Definition fetch_line : match_dict :=
  {| group_timestamp := "2019-01-01 00:00:00,123";
     group_request_type := "index.search.slowlog.fetch";
     group_index := "logs";
     group_source := "SOURCE";
     group_extra_source := "" |}.

Definition match_fetch (line : string) : option match_dict := Some fetch_line.

Definition loads_example (text : string) : exn + JSON :=
  if String.eqb text "SOURCE"
  then inr (JObj [("size"%string, JNum 10); ("query"%string, JStr "all")])
  else if String.eqb text "EXTRA"
  then inr (JObj [("size"%string, JNum 5); ("from"%string, JNum 0)])
  else inl (OtherError "JSONDecodeError").

Definition update_example (d : list (string * JSON)) (other : JSON) : exn + JSON :=
  inl TypeError.

Definition replayed_query : Request :=
  {| timestamp := t_2019; method := "POST"; url_path := "/logs/_search";
     json_body := JObj [("size"%string, JNum 5); ("query"%string, JStr "all");
                        ("from"%string, JNum 0)] |}.

Definition fetch_log_store : Store :=
  initial_store
    (fun _ => fst (parser_iter match_fetch parse_example loads_example update_example
                     ["first line"; "second line"]%string))
    "localhost" "9200" 1 0.

(** The store and the generator frame after [n] requests were pulled from
    [two_events]. *)
Definition after_pulls (n : nat) : Store * requests_frame :=
  match pulls no_latency 1 n requests_start fresh_store with
  | (Ret (_, f), s) => (s, f)
  | (_, s) => (s, requests_start)
  end.

Definition took (q : Q) : JSON := JObj [("took"%string, JNum q)].

Definition P6_responses : list Response :=
  [ {| status := 200; json := took 10 |};
    {| status := 200; json := took 20 |};
    {| status := 500; json := JObj [] |} ].

(** Three pending tasks: one that takes the cancellation, one that got its
    response before [cancel()], one whose connection was refused. *)
Definition three_tasks : Store :=
  set_tasks
    [ {| task_url := "u0"; task_body := JNull;
         task_fate := Interrupted CancelledError; task_done := false |};
      {| task_url := "u1"; task_body := JNull;
         task_fate := Completes false (PostResponds 200 (inr (took 3)));
         task_done := false |};
      {| task_url := "u2"; task_body := JNull;
         task_fate := Completes false (PostFails connection_refused);
         task_done := false |} ]
    fresh_store.

(** * Properties *)

(** ** Stepping through computations *)

Lemma bind_Ret {S A B} (c : M S A) (k : A -> M S B) s a s' :
  c s = (Ret a, s') -> bind c k s = k a s'.
Proof. intros H. unfold bind. now rewrite H. Qed.

Lemma bind_Raise {S A B} (c : M S A) (k : A -> M S B) s e s' :
  c s = (Raise e, s') -> bind c k s = (Raise e, s').
Proof. intros H. unfold bind. now rewrite H. Qed.

Lemma bind_OutOfFuel {S A B} (c : M S A) (k : A -> M S B) s s' :
  c s = (OutOfFuel, s') -> bind c k s = (OutOfFuel, s').
Proof. intros H. unfold bind. now rewrite H. Qed.

Lemma bind_assoc {S A B C} (c : M S A) (k1 : A -> M S B) (k2 : B -> M S C) s :
  bind (bind c k1) k2 s = bind c (fun x => bind (k1 x) k2) s.
Proof. unfold bind. destruct (c s) as [[a|e|] s']; reflexivity. Qed.

(** One step of a computation whose head evaluates by itself. *)
Ltac mstep :=
  match goal with
  | |- context [bind ?c ?k ?s] =>
      lazymatch c with
      | bind ?c1 ?k1 => rewrite (bind_assoc c1 k1 k s)
      | _ =>
          let r := eval hnf in (c s) in
          lazymatch r with
          | (Ret ?a, ?s') => rewrite (bind_Ret c k s a s' eq_refl)
          | (Raise ?e, ?s') => rewrite (bind_Raise c k s e s' eq_refl)
          | (OutOfFuel, ?s') => rewrite (bind_OutOfFuel c k s s' eq_refl)
          end
      end; cbv beta
  end.

Ltac mstep_in H :=
  match type of H with
  | context [bind ?c ?k ?s] =>
      lazymatch c with
      | bind ?c1 ?k1 => rewrite (bind_assoc c1 k1 k s) in H
      | _ =>
          let r := eval hnf in (c s) in
          lazymatch r with
          | (Ret ?a, ?s') => rewrite (bind_Ret c k s a s' eq_refl) in H
          | (Raise ?e, ?s') => rewrite (bind_Raise c k s e s' eq_refl) in H
          | (OutOfFuel, ?s') => rewrite (bind_OutOfFuel c k s s' eq_refl) in H
          end
      end; cbv beta in H
  end.

(** ** Numbers *)

Lemma py_div_nonzero {S} (a b : Q) (s : S) :
  ~ (b == 0)%Q -> py_div a b s = (Ret (a / b)%Q, s).
Proof.
  intros Hb. unfold py_div. destruct (Qeq_bool b 0) eqn:E; [|reflexivity].
  apply Qeq_bool_eq in E. contradiction.
Qed.

Lemma py_max_Qmax (a b : Q) : (py_max a b == Qmax a b)%Q.
Proof.
  unfold py_max. destruct (Qle_bool b a) eqn:E.
  - apply Qle_bool_iff in E. symmetry. apply Q.max_l. exact E.
  - assert (H : (a <= b)%Q).
    { destruct (Qlt_le_dec b a) as [H|H]; [|exact H].
      apply Qlt_le_weak, Qle_bool_iff in H. congruence. }
    symmetry. apply Q.max_r. exact H.
Qed.

Lemma py_min_le_r (a b : Q) : (py_min a b <= b)%Q.
Proof.
  unfold py_min. destruct (Qle_bool a b) eqn:E.
  - apply Qle_bool_iff in E. exact E.
  - apply Qle_refl.
Qed.

Lemma Qle_bool_false (a b : Q) : Qle_bool a b = false <-> (b < a)%Q.
Proof.
  split; intros H.
  - destruct (Qlt_le_dec b a) as [H'|H']; [exact H'|].
    apply Qle_bool_iff in H'. congruence.
  - destruct (Qle_bool a b) eqn:E; [|reflexivity].
    apply Qle_bool_iff in E. lra.
Qed.

Lemma datetime_sub_in_range {S} (d : datetime) (td : timedelta) (s : S) :
  datetime_min <= d - td <= datetime_max ->
  datetime_sub d td s = (Ret (d - td), s).
Proof.
  intros [H1 H2]. unfold datetime_sub. cbv zeta.
  apply Z.leb_le in H1, H2. rewrite H1, H2. reflexivity.
Qed.

(** What [n + 1] readings of a clock that moves by [e] each time cover. *)
Lemma readings_succ (n : nat) (e : Q) :
  (inject_Z (Z.of_nat (S n)) * e == inject_Z (Z.of_nat n) * e + e)%Q.
Proof.
  rewrite Nat2Z.inj_succ. unfold Z.succ. rewrite inject_Z_plus.
  change (inject_Z 1) with 1%Q. ring.
Qed.

(** The time a sleep takes. *)
Lemma slept_nonneg (delay : Q) : (0 <= (if Qle_bool delay 0 then 0 else delay))%Q.
Proof.
  destruct (Qle_bool delay 0) eqn:E; [lra|]. apply Qle_bool_false in E. lra.
Qed.

Lemma last_cons {A} (l : list A) (x d : A) : List.last (x :: l) d = List.last l x.
Proof.
  revert x d. induction l as [|y l IH]; intros x d; [reflexivity|].
  change (List.last (x :: y :: l) d) with (List.last (y :: l) d).
  rewrite (IH y d), (IH y x). reflexivity.
Qed.

(** ** The response accumulator *)

Lemma counter_get_update (c : gmap Z nat) (k k' : Z) :
  counter_get (counter_update c k) k' =
  if decide (k = k') then S (counter_get c k) else counter_get c k'.
Proof.
  unfold counter_get, counter_update.
  rewrite lookup_insert. destruct (decide (k = k')); reflexivity.
Qed.

(** The [if response.status == 200] branch, from the accumulator [a]. *)
Lemma add_took (response : Response) (a : ElasticsearchResponseAccumulator) :
  match took_of response with
  | Some q =>
      (took <- getitem (json response) "took" ;;
       a0 <- get ;;
       total <- add_number (total_took_time a0) took ;;
       modify (set_total_took_time total)) a
      = (Ret tt, set_total_took_time (total_took_time a + q)%Q a)
  | None =>
      exists e,
      e <> CancelledError /\
      (took <- getitem (json response) "took" ;;
       a0 <- get ;;
       total <- add_number (total_took_time a0) took ;;
       modify (set_total_took_time total)) a
      = (Raise e, a)
  end.
Proof.
  unfold took_of, getitem.
  destruct (json response) as [| | | | |fields];
    try (eexists; split; [|reflexivity]; discriminate).
  destruct (assoc "took" fields) as [v|];
    [|eexists; split; [|reflexivity]; discriminate].
  destruct v; try (eexists; split; [|reflexivity]; discriminate); reflexivity.
Qed.

(** What one call does, by cases on the status and the body. *)
Lemma process_response_information_eq (response : Response)
    (a : ElasticsearchResponseAccumulator) :
  let counted :=
    set_completion_status_counts
      (counter_update (completion_status_counts a) (status response)) a in
  if status response =? 200 then
    match took_of response with
    | Some q =>
        process_response_information response a
        = (Ret tt, set_total_took_time (total_took_time a + q)%Q counted)
    | None =>
        exists e, e <> CancelledError /\
                  process_response_information response a = (Raise e, counted)
    end
  else process_response_information response a = (Ret tt, counted).
Proof.
  cbv zeta. unfold process_response_information. mstep.
  destruct (status response =? 200); [|reflexivity].
  set (counted := set_completion_status_counts _ a).
  pose proof (add_took response counted) as H.
  destruct (took_of response) as [q|]; exact H.
Qed.

(** C10: [process_response_information] counts the status of every response
    in the histogram, whatever the status and whether or not the call then
    raises; it adds the body's [took] to the latency total only when the
    status is exactly 200, and leaves the total alone for every other status
    (other 2xx codes included). *)
Theorem process_response_information_counts_and_latency
    (response : Response) (a : ElasticsearchResponseAccumulator) :
  let r := process_response_information response a in
  (forall k, counter_get (completion_status_counts (snd r)) k =
             if decide (status response = k)
             then S (counter_get (completion_status_counts a) k)
             else counter_get (completion_status_counts a) k)
  /\ (status response <> 200 ->
      fst r = Ret tt /\ total_took_time (snd r) = total_took_time a)
  /\ (status response = 200 ->
      match took_of response with
      | Some q => fst r = Ret tt /\ total_took_time (snd r) = (total_took_time a + q)%Q
      | None => (exists e, fst r = Raise e) /\ total_took_time (snd r) = total_took_time a
      end).
Proof.
  cbv zeta.
  pose proof (process_response_information_eq response a) as H. cbv zeta in H.
  assert (Hc : forall k,
             counter_get (counter_update (completion_status_counts a) (status response)) k =
             if decide (status response = k)
             then S (counter_get (completion_status_counts a) k)
             else counter_get (completion_status_counts a) k).
  { intros k. rewrite counter_get_update.
    destruct (decide (status response = k)) as [->|]; reflexivity. }
  destruct (status response =? 200) eqn:E.
  - apply Z.eqb_eq in E. destruct (took_of response) as [q|].
    + rewrite H. cbn [fst snd]. split; [exact Hc|].
      split; [intros Hne; contradiction|]. intros _. split; reflexivity.
    + destruct H as (e & _ & ->). cbn [fst snd]. split; [exact Hc|].
      split; [intros Hne; contradiction|].
      intros _. split; [exists e|]; reflexivity.
  - apply Z.eqb_neq in E. rewrite H. cbn [fst snd]. split; [exact Hc|].
    split; [intros _; split; reflexivity|]. intros E'. contradiction.
Qed.

Lemma process_response_information_outcome (r : Response)
    (a : ElasticsearchResponseAccumulator) :
  fst (process_response_information r a) = Ret tt \/
  exists e, fst (process_response_information r a) = Raise e /\ e <> CancelledError.
Proof.
  pose proof (process_response_information_eq r a) as H. cbv zeta in H.
  destruct (status r =? 200); [destruct (took_of r)|].
  - rewrite H. left. reflexivity.
  - destruct H as (e & Hne & ->). right. exists e. split; [reflexivity|exact Hne].
  - rewrite H. left. reflexivity.
Qed.

Lemma process_all_counts (rs : list Response) :
  Forall took_is_number rs ->
  forall a, exists a',
    process_all rs a = (Ret tt, a') /\
    (forall k, counter_get (completion_status_counts a') k =
               (counter_get (completion_status_counts a) k + count_status k rs)%nat) /\
    (total_took_time a' == total_took_time a + total_took rs)%Q.
Proof.
  induction 1 as [|r rs Hr _ IH]; intros a.
  - exists a. simpl. repeat split.
    + intros k. unfold count_status. simpl. lia.
    + ring.
  - pose proof (process_response_information_eq r a) as Hp. cbv zeta in Hp.
    set (counted := set_completion_status_counts _ a) in Hp.
    assert (Hstep : exists a1,
               process_response_information r a = (Ret tt, a1) /\
               completion_status_counts a1 =
                 counter_update (completion_status_counts a) (status r) /\
               (total_took_time a1 == total_took_time a + success_took r)%Q).
    { unfold success_took. destruct (status r =? 200) eqn:E.
      - apply Z.eqb_eq in E. destruct (Hr E) as [q Hq]. rewrite Hq in Hp |- *.
        eexists. split; [exact Hp|]. split; reflexivity.
      - eexists. split; [exact Hp|]. split; [reflexivity|]. cbn. ring. }
    destruct Hstep as (a1 & E1 & Hc1 & Ht1).
    destruct (IH a1) as (a' & Hrun & Hc' & Ht').
    exists a'. split; [|split].
    + simpl. rewrite (bind_Ret _ _ _ _ _ E1). exact Hrun.
    + intros k. rewrite Hc', Hc1, counter_get_update. unfold count_status. simpl.
      destruct (decide (status r = k)) as [->|Hk].
      * rewrite Z.eqb_refl. simpl. lia.
      * apply Z.eqb_neq in Hk. rewrite Hk. lia.
    + rewrite Ht', Ht1. simpl. ring.
Qed.

Lemma get_summary_cases (a : ElasticsearchResponseAccumulator) :
  (counter_get (completion_status_counts a) 200 = 0%nat ->
   get_summary a = (Raise ZeroDivisionError, a))
  /\ (counter_get (completion_status_counts a) 200 <> 0%nat ->
      get_summary a =
      (Ret {| summary_completion_status_counts := completion_status_counts a;
              average_time_per_successful_request :=
                (total_took_time a /
                 inject_Z (Z.of_nat (counter_get (completion_status_counts a) 200)))%Q |},
       a)).
Proof.
  unfold get_summary, bind, get, py_div. simpl.
  split; intros H.
  - rewrite H. reflexivity.
  - destruct (Qeq_bool _ 0) eqn:E; [|reflexivity].
    apply Qeq_bool_eq in E. exfalso. apply H.
    unfold Qeq in E. simpl in E. lia.
Qed.

(** C6: after the responses [200 (took 10), 200 (took 20), 500] the summary
    holds the histogram {200: 2, 500: 1} and the average success latency 15;
    in general, after any responses whose successes carry a numeric [took],
    the histogram counts every status handed in, the total is the sum of the
    successes' [took], and the average is that total over the number of
    successes. *)
Theorem accumulation_correct :
  (exists s a,
     (process_all P6_responses ;;; get_summary) accumulator_init = (Ret s, a) /\
     summary_completion_status_counts s = <[200 := 2%nat]> (<[500 := 1%nat]> ∅) /\
     (average_time_per_successful_request s == 15)%Q)
  /\ (forall rs, Forall took_is_number rs ->
      exists a,
        process_all rs accumulator_init = (Ret tt, a) /\
        (forall k, counter_get (completion_status_counts a) k = count_status k rs) /\
        (total_took_time a == total_took rs)%Q /\
        (count_status 200 rs <> 0%nat ->
         exists s,
           get_summary a = (Ret s, a) /\
           summary_completion_status_counts s = completion_status_counts a /\
           (average_time_per_successful_request s ==
            total_took rs / inject_Z (Z.of_nat (count_status 200 rs)))%Q)).
Proof.
  split.
  - eexists. eexists. split; [vm_compute; reflexivity|]. split.
    + vm_compute. reflexivity.
    + vm_compute. reflexivity.
  - intros rs Hrs.
    destruct (process_all_counts rs Hrs accumulator_init) as (a & Hrun & Hc & Ht).
    exists a. split; [exact Hrun|].
    assert (Hc0 : forall k, counter_get (completion_status_counts a) k = count_status k rs).
    { intros k. rewrite Hc. reflexivity. }
    split; [exact Hc0|]. split.
    + rewrite Ht. simpl. ring.
    + intros Hn. destruct (get_summary_cases a) as [_ Hs].
      rewrite Hc0 in Hs. specialize (Hs Hn). eexists. split; [exact Hs|].
      simpl. split; [reflexivity|]. rewrite Ht. simpl.
      apply Qdiv_comp; [ring|reflexivity].
Qed.

(** C5, as the code has it: with no successful response counted,
    [get_summary] raises [ZeroDivisionError] (and leaves the accumulator as it
    is); with at least one it returns the histogram and the total latency
    over the number of successes. *)
Theorem get_summary_zero_successes (a : ElasticsearchResponseAccumulator) :
  (counter_get (completion_status_counts a) 200 = 0%nat <->
   get_summary a = (Raise ZeroDivisionError, a))
  /\ (counter_get (completion_status_counts a) 200 <> 0%nat ->
      exists s, get_summary a = (Ret s, a) /\
        summary_completion_status_counts s = completion_status_counts a /\
        (average_time_per_successful_request s ==
         total_took_time a /
         inject_Z (Z.of_nat (counter_get (completion_status_counts a) 200)))%Q).
Proof.
  destruct (get_summary_cases a) as [H0 H1]. split; [split|].
  - exact H0.
  - intros E. destruct (Nat.eq_dec (counter_get (completion_status_counts a) 200) 0%nat)
      as [Hz|Hnz]; [exact Hz|].
    rewrite (H1 Hnz) in E. discriminate.
  - intros Hnz. eexists. split; [exact (H1 Hnz)|]. split; reflexivity.
Qed.

(** ** Computations that the fuel does not stop *)

Lemma fuelled_ret {S A} (a : A) : fuelled (@ret S A a).
Proof. intros s. discriminate. Qed.

Lemma fuelled_raise {S A} (e : exn) : fuelled (@raise S A e).
Proof. intros s. discriminate. Qed.

Lemma fuelled_get {S} : fuelled (@get S).
Proof. intros s. discriminate. Qed.

Lemma fuelled_modify {S} (f : S -> S) : fuelled (modify f).
Proof. intros s. discriminate. Qed.

Lemma fuelled_bind {S A B} (c : M S A) (k : A -> M S B) :
  fuelled c -> (forall a, fuelled (k a)) -> fuelled (bind c k).
Proof.
  intros Hc Hk s. unfold bind. specialize (Hc s).
  destruct (c s) as [[a|e|] s1]; [apply Hk|discriminate|].
  exfalso. apply Hc. reflexivity.
Qed.

Lemma fuelled_py_div {S} (a b : Q) : fuelled (@py_div S a b).
Proof. unfold py_div. destruct (Qeq_bool b 0); [apply fuelled_raise|apply fuelled_ret]. Qed.

Lemma fuelled_datetime_sub {S} (d : datetime) (td : timedelta) :
  fuelled (@datetime_sub S d td).
Proof.
  unfold datetime_sub. cbv zeta. destruct (_ && _); [apply fuelled_ret|apply fuelled_raise].
Qed.

Lemma fuelled_try_except {S A} (c : M S A) (h : exn -> M S A) :
  fuelled c -> (forall e, fuelled (h e)) -> fuelled (try_except c h).
Proof.
  intros Hc Hh s. unfold try_except. specialize (Hc s).
  destruct (c s) as [[a|e|] s1]; [discriminate|apply Hh|exact Hc].
Qed.

#[local] Hint Resolve fuelled_ret fuelled_raise fuelled_get fuelled_modify
  fuelled_py_div fuelled_datetime_sub : core.

Ltac fuelled_steps :=
  repeat first
    [ solve [auto]
    | apply fuelled_bind; [|intros ?]
    | match goal with
      | |- fuelled (if ?b then _ else _) => destruct b
      | |- fuelled (match ?x with _ => _ end) => destruct x
      end ].

(** ** Relations that the generator keeps *)

Section Keeps.
Variable latency : nat -> Q.
Variable R : Store -> Store -> Prop.
Hypothesis R_refl : forall s, R s s.
Hypothesis R_trans : forall s1 s2 s3, R s1 s2 -> R s2 s3 -> R s1 s3.
Hypothesis R_on_self : forall f s, timeline_update f -> R s (on_self f s).
Hypothesis R_elapse : forall s, R s (elapse latency s).

Lemma keeps_ret {A} (a : A) : keeps R (ret a).
Proof. intros s o s' [= <- <-]. apply R_refl. Qed.

Lemma keeps_raise {A} (e : exn) : keeps R (@raise Store A e).
Proof. intros s o s' [= <- <-]. apply R_refl. Qed.

Lemma keeps_out_of_fuel {A} : keeps R (@out_of_fuel Store A).
Proof. intros s o s' [= <- <-]. apply R_refl. Qed.

Lemma keeps_get : keeps R (@get Store).
Proof. intros s o s' [= <- <-]. apply R_refl. Qed.

Lemma keeps_on_self (f : LoadTester -> LoadTester) :
  timeline_update f -> keeps R (modify (on_self f)).
Proof. intros Hf s o s' [= <- <-]. apply R_on_self, Hf. Qed.

Lemma keeps_elapse : keeps R (modify (elapse latency)).
Proof. intros s o s' [= <- <-]. apply R_elapse. Qed.

Lemma keeps_bind {A B} (c : M Store A) (k : A -> M Store B) :
  keeps R c -> (forall a, keeps R (k a)) -> keeps R (bind c k).
Proof.
  intros Hc Hk s o s'. unfold bind.
  destruct (c s) as [[a| e |] s1] eqn:E; pose proof (Hc _ _ _ E) as H1.
  - intros H. exact (R_trans _ _ _ H1 (Hk _ _ _ _ H)).
  - intros [= <- <-]. exact H1.
  - intros [= <- <-]. exact H1.
Qed.

Lemma keeps_py_div (a b : Q) : keeps R (py_div a b).
Proof. unfold py_div. destruct (Qeq_bool b 0); [apply keeps_raise|apply keeps_ret]. Qed.

Lemma keeps_datetime_sub (d : datetime) (td : timedelta) : keeps R (datetime_sub d td).
Proof.
  unfold datetime_sub. cbv zeta. destruct (_ && _); [apply keeps_ret|apply keeps_raise].
Qed.

#[local] Hint Resolve keeps_ret keeps_raise keeps_out_of_fuel keeps_get
  keeps_elapse keeps_py_div keeps_datetime_sub : core.

Ltac keeps_steps :=
  repeat first
    [ solve [auto]
    | solve [apply keeps_on_self; intros ?; repeat split]
    | apply keeps_bind; [|intros ?]
    | match goal with
      | |- keeps _ (if ?b then _ else _) => destruct b
      | |- keeps _ (match ?x with _ => _ end) => destruct x
      end ].

Lemma keeps_datetime_now : keeps R (datetime_now latency).
Proof. unfold datetime_now. keeps_steps. Qed.

Lemma keeps_time_time : keeps R (time_time latency).
Proof. unfold time_time. keeps_steps. Qed.

#[local] Hint Resolve keeps_datetime_now keeps_time_time : core.

Lemma keeps_get_sleep_time (t : datetime) : keeps R (_get_sleep_time latency t).
Proof. unfold _get_sleep_time. keeps_steps. Qed.

Lemma keeps_cycle_start (last : option Request) : keeps R (cycle_start latency last).
Proof. unfold cycle_start. keeps_steps. Qed.

#[local] Hint Resolve keeps_get_sleep_time keeps_cycle_start : core.

Lemma keeps_yield_request (r : Request) (rest : list Request) :
  keeps R (yield_request latency r rest).
Proof. unfold yield_request. keeps_steps. Qed.

Lemma keeps_requests (fuel : nat) (f : requests_frame) : keeps R (_requests latency fuel f).
Proof.
  revert f. induction fuel as [|fuel IH]; intros f; simpl;
    destruct (request_generator f); auto using keeps_yield_request.
  keeps_steps.
Qed.

End Keeps.

(** The generator writes nothing to the ghost log and starts no task. *)
Lemma quiet_requests (latency : nat -> Q) (fuel : nat) (f : requests_frame) :
  keeps unlogged (_requests latency fuel f).
Proof.
  apply keeps_requests; unfold unlogged.
  - intros s. split; reflexivity.
  - intros s1 s2 s3 [H1 H2] [H3 H4]. split; congruence.
  - intros g s _. split; reflexivity.
  - intros s. split; reflexivity.
Qed.

(** While the generator runs the clock does not go back, if no latency is
    negative, and the log it replays stays the same. *)
Lemma steady_requests (latency : nat -> Q) (fuel : nat) (f : requests_frame) :
  (forall n, (0 <= latency n)%Q) ->
  keeps onward (_requests latency fuel f).
Proof.
  intros Hlat. apply keeps_requests; unfold onward.
  - intros s. split; [apply Qle_refl|reflexivity].
  - intros s1 s2 s3 [H1 H2] [H3 H4]. split; [eapply Qle_trans; eassumption|congruence].
  - intros g s Hg. split; [apply Qle_refl|apply Hg].
  - intros s. cbn. split; [|reflexivity]. pose proof (Hlat (ticks s)). lra.
Qed.

Section Timeline.
Variable latency : nat -> Q.

Lemma datetime_now_eq (s : Store) :
  datetime_now latency s =
  (Ret (datetime_of_clock (clock (elapse latency s))), elapse latency s).
Proof. reflexivity. Qed.

Lemma time_time_eq (s : Store) :
  time_time latency s = (Ret (clock (elapse latency s)), elapse latency s).
Proof. reflexivity. Qed.

(** [_get_sleep_time] once the timeline is set. *)
Lemma _get_sleep_time_set (s : Store) (log_time replay_start : datetime) :
  log_initial_time (self s) <> datetime_min ->
  real_initial_time (self s) = Some replay_start ->
  ~ (speed_multiplier (self s) == 0)%Q ->
  _get_sleep_time latency log_time s =
  (Ret ((total_seconds (datetime_diff log_time (log_initial_time (self s)))
         - total_seconds (datetime_diff (datetime_of_clock (clock (elapse latency s)))
                                        replay_start)
           * speed_multiplier (self s))
        / speed_multiplier (self s))%Q,
   elapse latency s).
Proof.
  intros Hset Hstart Hm. unfold _get_sleep_time. mstep.
  apply Z.eqb_neq in Hset. rewrite Hset. repeat mstep.
  cbn [elapse self]. rewrite Hstart. mstep.
  rewrite (bind_Ret _ _ _ _ _ (py_div_nonzero _ _ _ Hm)).
  reflexivity.
Qed.

(** C1: with the log origin and the replay start set and a positive speed
    multiplier [m], [_get_sleep_time] returns
    [((event_timestamp - log_origin) - (now - replay_start) * m) / m]; that
    is the time left until the real offset [(event_timestamp - log_origin) / m]
    after the replay start, and it is negative exactly when the replay is
    past that offset. *)
Theorem next_sleep_formula (s : Store) (event_timestamp replay_start : datetime) :
  log_initial_time (self s) <> datetime_min ->
  real_initial_time (self s) = Some replay_start ->
  (0 < speed_multiplier (self s))%Q ->
  let m := speed_multiplier (self s) in
  let log_time_elapsed :=
    total_seconds (datetime_diff event_timestamp (log_initial_time (self s))) in
  let now := datetime_of_clock (clock (elapse latency s)) in
  let real_elapsed := total_seconds (datetime_diff now replay_start) in
  exists sleep,
    _get_sleep_time latency event_timestamp s = (Ret sleep, elapse latency s) /\
    (sleep == (log_time_elapsed - real_elapsed * m) / m)%Q /\
    (sleep == log_time_elapsed / m - real_elapsed)%Q /\
    ((sleep < 0)%Q <-> (log_time_elapsed / m < real_elapsed)%Q).
Proof.
  intros Hset Hstart Hm m lte now re.
  assert (Hm0 : ~ (m == 0)%Q) by (intros E; unfold m in E; rewrite E in Hm; lra).
  eexists. split; [apply (_get_sleep_time_set s event_timestamp replay_start Hset Hstart Hm0)|].
  fold m lte now re.
  assert (E : ((lte - re * m) / m == lte / m - re)%Q) by (field; exact Hm0).
  split; [reflexivity|]. split; [exact E|].
  rewrite E. split; intros H; lra.
Qed.

(** The head of the second pass over the log. *)
Lemma cycle_start_first_wrap (s : Store) (last : Request) (replay_start : datetime) :
  real_initial_time (self s) = Some replay_start ->
  log_delta_time (self s) = timedelta_zero ->
  let D := datetime_diff (timestamp last) (log_initial_time (self s)) in
  datetime_min <= log_initial_time (self s) - D <= datetime_max ->
  cycle_start latency (Some last) s =
  (Ret tt, on_self (set_log_initial_time (log_initial_time (self s) - D))
             (on_self (set_log_delta_time D) s)).
Proof.
  intros Hstart Hdelta D Hrange. unfold cycle_start. repeat mstep.
  rewrite Hstart, Hdelta. cbn [Z.eqb timedelta_zero]. repeat mstep.
  cbn [self on_self log_initial_time log_delta_time set_log_delta_time].
  rewrite (bind_Ret _ _ _ _ _ (datetime_sub_in_range _ _ _ Hrange)).
  reflexivity.
Qed.

(** From any store in which the first pass has just ended: the first
    request of the second pass gets the sleep time of a request stamped one
    log duration later on the unshifted timeline. *)
Lemma wrap_continuity (s : Store) (f : requests_frame) (fuel : nat)
    (last first : Request) (rest : list Request) (replay_start : datetime) :
  request_generator f = [] ->
  request f = Some last ->
  request_generator_factory (self s) tt = first :: rest ->
  real_initial_time (self s) = Some replay_start ->
  log_delta_time (self s) = timedelta_zero ->
  log_initial_time (self s) <> datetime_min ->
  (0 < speed_multiplier (self s))%Q ->
  let log_origin := log_initial_time (self s) in
  let D := datetime_diff (timestamp last) log_origin in
  datetime_min < log_origin - D <= datetime_max ->
  exists y f' s' linear,
    _requests latency (S fuel) f s = (Ret (y, f'), s') /\
    log_delta_time (self s') = D /\
    log_initial_time (self s') = log_origin - D /\
    _get_sleep_time latency (timestamp first + D) s = (Ret linear, elapse latency s) /\
    sleep_time y = linear.
Proof.
  intros Hgen Hlast Hsrc Hstart Hdelta Hset Hm log_origin D Hrange.
  assert (Hm0 : ~ (speed_multiplier (self s) == 0)%Q) by (intros E; rewrite E in Hm; lra).
  set (s1 := on_self (set_log_initial_time (log_origin - D))
               (on_self (set_log_delta_time D) s)).
  assert (Hs1 : log_initial_time (self s1) <> datetime_min).
  { cbn. unfold datetime_min in *. lia. }
  pose proof (_get_sleep_time_set s1 (timestamp first) replay_start Hs1 Hstart Hm0) as E1.
  pose proof (_get_sleep_time_set s (timestamp first + D) replay_start Hset Hstart Hm0) as E2.
  eexists _, _, _, _. split; [|split; [|split; [|split; [exact E2|]]]].
  - cbn [_requests]. rewrite Hgen. mstep. rewrite Hlast, Hsrc.
    rewrite (bind_Ret _ _ _ _ _
               (cycle_start_first_wrap s last replay_start Hstart Hdelta
                  ltac:(fold log_origin D; lia))).
    fold log_origin D s1.
    destruct fuel; cbn [_requests request_generator]; unfold yield_request;
      mstep; rewrite (bind_Ret _ _ _ _ _ E1); reflexivity.
  - reflexivity.
  - reflexivity.
  - cbn [sleep_time]. cbn [s1 self on_self log_initial_time set_log_initial_time
                             speed_multiplier set_log_delta_time clock elapse ticks].
    unfold datetime_diff. fold log_origin.
    replace (timestamp first - (log_origin - D)) with (timestamp first + D - log_origin) by lia.
    reflexivity.
Qed.

Lemma yield_request_set (s : Store) (r : Request) (rest : list Request)
    (log_origin : datetime) :
  timeline_set (self s) log_origin ->
  exists y, yield_request latency r rest s
            = (Ret (y, {| request_generator := rest; request := Some r |}),
               elapse latency s).
Proof.
  intros (Ho & Hne & (rs & Hrs) & _ & Hm). unfold yield_request. mstep.
  assert (Hm0 : ~ (speed_multiplier (self s) == 0)%Q) by (intros E; rewrite E in Hm; lra).
  rewrite (bind_Ret _ _ _ _ _
             (_get_sleep_time_set s (timestamp r) rs
                ltac:(rewrite Ho; exact Hne) Hrs Hm0)).
  eexists. reflexivity.
Qed.

(** The rest of a pass: the generator yields what is left of the log and
    leaves the timeline as it is. *)
Lemma pulls_to_end_of_cycle (fuel : nat) (log_origin : datetime) (l : list Request) :
  forall (r0 : Request) (s : Store),
  timeline_set (self s) log_origin ->
  exists ys s',
    pulls latency fuel (length l) {| request_generator := l; request := Some r0 |} s
    = (Ret (ys, {| request_generator := []; request := Some (List.last l r0) |}), s') /\
    self s' = self s.
Proof.
  induction l as [|r l IH]; intros r0 s Hs.
  - exists [], s. split; reflexivity.
  - destruct (yield_request_set s r l log_origin Hs) as (y & Ey).
    destruct (IH r (elapse latency s) Hs) as (ys & s' & E & Hself).
    exists (y :: ys), s'. split; [|exact Hself].
    cbn [pulls length].
    assert (Er : _requests latency fuel {| request_generator := r :: l; request := Some r0 |} s
                 = (Ret (y, {| request_generator := l; request := Some r |}), elapse latency s)).
    { destruct fuel; exact Ey. }
    rewrite (bind_Ret _ _ _ _ _ Er). cbn [snd fst].
    rewrite (bind_Ret _ _ _ _ _ E). rewrite last_cons. reflexivity.
Qed.

(** The very first [next()] on a fresh [LoadTester]. *)
Lemma first_pull (fuel : nat) (s : Store) (first : Request) (rest : list Request) :
  log_initial_time (self s) = datetime_min ->
  real_initial_time (self s) = None ->
  log_delta_time (self s) = timedelta_zero ->
  (0 < speed_multiplier (self s))%Q ->
  request_generator_factory (self s) tt = first :: rest ->
  timestamp first <> datetime_min ->
  exists y s',
    _requests latency (S fuel) requests_start s
    = (Ret (y, {| request_generator := rest; request := Some first |}), s') /\
    timeline_set (self s') (timestamp first) /\
    request_generator_factory (self s') = request_generator_factory (self s) /\
    speed_multiplier (self s') = speed_multiplier (self s).
Proof.
  intros Ho Hr Hd Hm Hsrc Hne.
  assert (Hm0 : ~ (speed_multiplier (self s) == 0)%Q) by (intros E; rewrite E in Hm; lra).
  cbn [_requests requests_start request_generator request]. mstep. rewrite Hsrc.
  unfold cycle_start at 1. repeat mstep. rewrite Hr. repeat mstep.
  cbn [self on_self elapse log_initial_time log_delta_time set_real_initial_time].
  rewrite Ho, Hd. repeat mstep.
  set (s1 := on_self _ _).
  assert (E : _requests latency fuel {| request_generator := first :: rest; request := None |} s1
              = yield_request latency first rest s1) by (destruct fuel; reflexivity).
  rewrite E. unfold yield_request. repeat mstep. unfold _get_sleep_time. repeat mstep.
  rewrite (bind_Ret _ _ _ _ _ (py_div_nonzero _ _ _ Hm0)). repeat mstep.
  eexists _, _. split; [reflexivity|]. cbn.
  repeat split; eauto.
Qed.

(** C2: a fresh [LoadTester] is run through one whole pass over a log
    [first :: rest]; [D] is the pass's duration, the last timestamp minus
    the log origin (the first timestamp).  On the next [next()] the
    generator records [log_delta_time = D], moves [log_initial_time] back by
    [D], and yields the first request again with the sleep time that
    [_get_sleep_time] gives, on the timeline before the shift and at the
    same clock reading, to a request stamped [D] after it: the log as if it
    went on past its end.  The shifted origin has to be a datetime after
    [datetime.min], which the code uses for "not set". *)
Theorem first_wrap_is_continuous (fuel : nat) (s : Store)
    (factory : unit -> list Request) (accumulator : ElasticsearchResponseAccumulator)
    (h p : string) (m : Q) (first : Request) (rest : list Request) :
  self s = LoadTester_init factory accumulator h p m ->
  (0 < m)%Q ->
  factory tt = first :: rest ->
  timestamp first <> datetime_min ->
  let last := List.last rest first in
  let D := datetime_diff (timestamp last) (timestamp first) in
  datetime_min < timestamp first - D <= datetime_max ->
  exists ys f1 s1 y f2 s2 linear,
    pulls latency (S fuel) (length (first :: rest)) requests_start s = (Ret (ys, f1), s1) /\
    log_initial_time (self s1) = timestamp first /\
    request f1 = Some last /\
    _requests latency (S fuel) f1 s1 = (Ret (y, f2), s2) /\
    log_delta_time (self s2) = D /\
    log_initial_time (self s2) = timestamp first - D /\
    _get_sleep_time latency (timestamp first + D) s1 = (Ret linear, elapse latency s1) /\
    sleep_time y = linear.
Proof.
  intros Hinit Hm Hsrc Hne last D Hrange.
  destruct (first_pull fuel s first rest) as (y0 & s0 & E0 & Hset & Hfac & Hmul);
    try (rewrite Hinit; cbn; assumption || reflexivity); try assumption.
  destruct (pulls_to_end_of_cycle (S fuel) (timestamp first) rest first s0 Hset)
    as (ys & s1 & E1 & Hself).
  fold last in E1.
  destruct Hset as (Horig & _ & (rs & Hrs) & Hdz & Hm').
  rewrite <- Hself in Horig, Hrs, Hdz, Hm', Hfac.
  destruct (wrap_continuity s1
              {| request_generator := []; request := Some last |} fuel last first rest rs)
    as (y & f2 & s2 & linear & E2 & HD & HO & El & Hy);
    try reflexivity; try assumption.
  - rewrite Hfac, Hinit. exact Hsrc.
  - rewrite Horig. exact Hne.
  - rewrite Horig. fold D. exact Hrange.
  - rewrite Horig in HD, HO, El. fold D in HD, HO, El.
    exists (y0 :: ys), {| request_generator := []; request := Some last |},
           s1, y, f2, s2, linear.
    split; [|repeat split; try assumption; reflexivity].
    cbn [pulls length]. rewrite (bind_Ret _ _ _ _ _ E0). cbn [snd fst].
    rewrite (bind_Ret _ _ _ _ _ E1). reflexivity.
Qed.

End Timeline.

(** ** Completion callbacks *)

Lemma sink_calls_app (tr1 tr2 : list action) :
  sink_calls (tr1 ++ tr2) = sink_calls tr1 ++ sink_calls tr2.
Proof.
  induction tr1 as [|a tr1 IH]; [reflexivity|].
  destruct a; simpl; rewrite IH; reflexivity.
Qed.

Lemma call_sink_eq (r : Response) (s : Store) :
  call_sink r s =
  (fst (process_response_information r (response_accumulator (self s))),
   on_self (set_response_accumulator
              (snd (process_response_information r (response_accumulator (self s)))))
     {| self := self s; clock := clock s; ticks := ticks s; tasks := tasks s;
        trace := trace s ++ [ASink r] |}).
Proof.
  unfold call_sink. mstep. unfold zoom. cbn [self].
  destruct (process_response_information r (response_accumulator (self s))); reflexivity.
Qed.

Lemma _callback_response (r : Response) (s : Store) :
  _callback (Ret r) s = call_sink r s.
Proof.
  unfold _callback, try_except, lift_outcome. mstep. rewrite call_sink_eq.
  destruct (process_response_information_outcome r (response_accumulator (self s)))
    as [E|(e & E & Hne)]; rewrite E; [reflexivity|].
  destruct e; try reflexivity. contradiction.
Qed.

Lemma _callback_raise (e : exn) (s : Store) :
  _callback (Raise e) s = if is_CancelledError e then (Ret tt, s) else (Raise e, s).
Proof. unfold _callback, try_except. cbn. destruct e; reflexivity. Qed.

(** C7, as the code has it: when the POST returns a response with a
    decodable body, [_fetch] builds the response object from its status and
    parsed body and the callback hands exactly that object to the
    accumulator, once; when the transport fails (or the body cannot be
    decoded) the callback lets the exception through and the accumulator is
    not called; when the task was cancelled the callback swallows the
    [CancelledError] and the accumulator is not called. *)
Theorem callback_sink_invocations (p : post_behaviour) (s : Store) :
  (forall code parsed, p = PostResponds code (inr parsed) ->
     let r := {| status := code; json := parsed |} in
     _fetch p = Ret r /\
     exists o s',
       _callback (_fetch p) s = (o, s') /\
       sink_calls (trace s') = sink_calls (trace s) ++ [r] /\
       response_accumulator (self s') =
         snd (process_response_information r (response_accumulator (self s))))
  /\ (forall e, _fetch p = Raise e -> e <> CancelledError ->
        _callback (_fetch p) s = (Raise e, s))
  /\ _callback (Raise CancelledError) s = (Ret tt, s).
Proof.
  split; [|split].
  - intros code parsed -> r. split; [reflexivity|].
    cbn [_fetch]. fold r. rewrite _callback_response, call_sink_eq.
    eexists _, _. split; [reflexivity|]. split.
    + cbn [on_self trace]. rewrite sink_calls_app. reflexivity.
    + reflexivity.
  - intros e -> Hne. rewrite _callback_raise. destruct e; try reflexivity. contradiction.
  - reflexivity.
Qed.


(** ** Tasks reaching their end *)

Lemma controller_app (tr1 tr2 : list action) :
  controller (tr1 ++ tr2) = controller tr1 ++ controller tr2.
Proof. apply List.filter_app. Qed.

Lemma fate_result_cases (f : fate) :
  (exists r, fate_result f = Ret r) \/ (exists e, fate_result f = Raise e).
Proof.
  destruct f as [early [code [e|parsed]|e]|e]; simpl; eauto.
Qed.

Lemma set_response_accumulator_id (l : LoadTester) :
  l = set_response_accumulator (response_accumulator l) l.
Proof. destruct l. reflexivity. Qed.

Lemma undisturbed_refl (s : Store) : undisturbed s s.
Proof.
  repeat split. exists (response_accumulator (self s)). apply set_response_accumulator_id.
Qed.

Lemma undisturbed_trans (s1 s2 s3 : Store) :
  undisturbed s1 s2 -> undisturbed s2 s3 -> undisturbed s1 s3.
Proof.
  intros (H1 & H2 & [a Ha] & H3 & H4) (H5 & H6 & [b Hb] & H7 & H8).
  repeat split; try congruence. exists b. rewrite Hb, Ha. reflexivity.
Qed.

Lemma _callback_settles (f : fate) (s : Store) :
  exists o s', _callback (fate_result f) s = (o, s') /\
    o <> OutOfFuel /\ tasks s' = tasks s /\ undisturbed s s'.
Proof.
  destruct (fate_result_cases f) as [[r ->]|[e ->]].
  - rewrite _callback_response, call_sink_eq. eexists _, _. split; [reflexivity|].
    split; [|split; [reflexivity|]].
    + destruct (process_response_information_outcome r (response_accumulator (self s)))
        as [->|(e & -> & _)]; discriminate.
    + repeat split.
      * cbn [on_self trace]. rewrite controller_app. apply app_nil_r.
      * eexists. reflexivity.
  - rewrite _callback_raise. destruct (is_CancelledError e);
      eexists _, _; (split; [reflexivity|split; [discriminate|split; [reflexivity|]]]);
      apply undisturbed_refl.
Qed.

(** Finishing a task changes neither how any task will end nor the
    controller's part of the log, the timeline or the clock. *)
Lemma finish_task_settles (i : nat) (s : Store) :
  exists s', finish_task i s = (Ret tt, s') /\ undisturbed s s'.
Proof.
  unfold finish_task. mstep.
  destruct (tasks s !! i) as [t|] eqn:Et;
    [|eexists; split; [reflexivity|apply undisturbed_refl]].
  destruct (task_done t); [eexists; split; [reflexivity|apply undisturbed_refl]|].
  mstep. unfold try_except, task_result.
  set (s1 := set_tasks _ s).
  destruct (_callback_settles (task_fate t) s1) as (o & s2 & E & Ho & Hts & Hu).
  rewrite E.
  assert (Hs1 : undisturbed s s1).
  { repeat split.
    - unfold fates, s1. cbn [tasks set_tasks].
      rewrite list_fmap_insert. apply list_insert_id.
      rewrite list_lookup_fmap, Et. reflexivity.
    - exists (response_accumulator (self s)). apply set_response_accumulator_id. }
  pose proof (undisturbed_trans _ _ _ Hs1 Hu) as Hs2.
  destruct o as [[]|e|]; [| |contradiction].
  - eexists. split; [reflexivity|exact Hs2].
  - eexists. split; [reflexivity|].
    apply (undisturbed_trans _ _ _ Hs2). repeat split.
    + cbn [trace]. rewrite controller_app. apply app_nil_r.
    + exists (response_accumulator (self s2)). apply set_response_accumulator_id.
Qed.

Lemma for_each_settles {A} (l : list A) (f : A -> M Store unit) :
  (forall x s, exists s', f x s = (Ret tt, s') /\ undisturbed s s') ->
  forall s, exists s', for_each l f s = (Ret tt, s') /\ undisturbed s s'.
Proof.
  intros Hf. induction l as [|x l IH]; intros s.
  - exists s. split; [reflexivity|apply undisturbed_refl].
  - destruct (Hf x s) as (s1 & E1 & H1). destruct (IH s1) as (s' & E' & H').
    exists s'. split; [|exact (undisturbed_trans _ _ _ H1 H')].
    cbn [for_each]. rewrite (bind_Ret _ _ _ _ _ E1). exact E'.
Qed.

Lemma complete_early_settles (s : Store) :
  exists s', complete_early s = (Ret tt, s') /\ undisturbed s s'.
Proof.
  unfold complete_early. mstep. apply for_each_settles.
  intros i s0. destruct (tasks s !! i) as [[u b [[|] p|e] d]|];
    try (exists s0; split; [reflexivity|apply undisturbed_refl]).
  apply finish_task_settles.
Qed.

(** ** The pacing loop *)

(** Every dispatch in a log of dispatching iterations (followed by a tail
    without dispatch) comes right after a check that found budget left and
    the sleep asked for then. *)
Lemma paced_dispatch (budget : Q) (done tail : list action) :
  paced budget done ->
  dispatches tail = 0%nat ->
  forall pre task post,
    done ++ tail = pre ++ ADispatch task :: post ->
    exists pre' sleep delta,
      pre = pre' ++ [APull sleep; ACheck delta; ASleep (py_min sleep (budget - delta))] /\
      (delta < budget)%Q.
Proof.
  intros Hp Htail. induction Hp as [|sleep delta t rest Hb Hp IH]; intros pre task post E.
  - exfalso. cbn [app] in E. rewrite E in Htail. clear E.
    induction pre as [|a pre IHpre]; [discriminate|].
    destruct a; simpl in Htail; auto; discriminate.
  - destruct pre as [|a1 [|a2 [|a3 [|a4 pre]]]]; try discriminate.
    + injection E as <- <- <- _ _. exists [], sleep, delta.
      split; [reflexivity|]. apply Qle_bool_false. exact Hb.
    + injection E as <- <- <- <- E.
      destruct (IH _ _ _ E) as (pre' & sl & d & -> & Hd).
      exists (APull sleep :: ACheck delta :: ASleep (py_min sleep (budget - delta))
              :: ADispatch t :: pre'), sl, d.
      split; [reflexivity|exact Hd].
Qed.

(** A check that finds the budget used up is not part of a dispatching
    iteration. *)
Lemma paced_check (budget : Q) (done tail : list action) :
  paced budget done ->
  forall pre delta post,
    done ++ tail = pre ++ ACheck delta :: post ->
    (budget <= delta)%Q ->
    exists pre', pre = done ++ pre' /\ tail = pre' ++ ACheck delta :: post.
Proof.
  intros Hp. induction Hp as [|sleep d t rest Hb Hp IH]; intros pre delta post E Hle.
  - exists pre. split; [reflexivity|exact E].
  - destruct pre as [|a1 [|a2 [|a3 [|a4 pre]]]]; try discriminate.
    + injection E as _ <- _. apply Qle_bool_iff in Hle. congruence.
    + injection E as <- <- <- <- E.
      destruct (IH _ _ _ E Hle) as (pre' & -> & Ht).
      exists pre'. split; [reflexivity|exact Ht].
Qed.

Lemma dispatches_app (tr1 tr2 : list action) :
  dispatches (tr1 ++ tr2) = (dispatches tr1 + dispatches tr2)%nat.
Proof.
  induction tr1 as [|a tr1 IH]; [reflexivity|].
  destruct a; simpl; rewrite IH; reflexivity.
Qed.

Lemma dispatches_controller (tr : list action) :
  dispatches (controller tr) = dispatches tr.
Proof.
  induction tr as [|a tr IH]; [reflexivity|].
  destruct a; simpl; rewrite <- IH; reflexivity.
Qed.

Section Loop.
Variable latency : nat -> Q.
Variable network : nat -> fate.

Lemma run_loop_step (fuel : nat) (budget start_time : Q)
    (gen : requests_frame) (sent : Z) :
  run_loop latency network (S fuel) budget start_time gen sent =
  (y <- _requests latency (S fuel) gen ;;
   log_action (APull (sleep_time (fst y))) ;;;
   now <- time_time latency ;;
   log_action (ACheck (now - start_time)%Q) ;;;
   if Qle_bool budget (now - start_time) then
     ret (fst y, (now - start_time)%Q, sent)
   else
     asyncio_sleep (py_min (sleep_time (fst y)) (budget - (now - start_time))) ;;;
     ensure_future network (url (fst y)) (body (fst y)) ;;;
     run_loop latency network fuel budget start_time (snd y) (sent + 1)).
Proof. reflexivity. Qed.

(** The controller's part of the ghost log of the loop: dispatching
    iterations, then, if the loop was left by [break], the pull and the check
    of the iteration that broke; if the generator raised or the fuel ran out,
    nothing more. *)
Lemma run_loop_trace (fuel : nat) (budget start_time : Q) :
  forall (gen : requests_frame) (sent : Z) (s : Store) o s',
  run_loop latency network fuel budget start_time gen sent s = (o, s') ->
  exists done tail,
    controller (trace s') = controller (trace s) ++ done ++ tail /\
    paced budget done /\
    match o with
    | Ret (request, delta_secs, sent') =>
        tail = [APull (sleep_time request); ACheck delta_secs] /\
        Qle_bool budget delta_secs = true /\
        sent' = sent + Z.of_nat (dispatches done)
    | _ => tail = []
    end.
Proof.
  induction fuel as [|fuel IH]; intros gen sent s o s' H.
  - simpl in H. unfold out_of_fuel in H. injection H as <- <-.
    exists [], []. simpl. rewrite app_nil_r. repeat split. constructor.
  - rewrite run_loop_step in H.
    destruct (_requests latency (S fuel) gen s) as [[[y gen']|e|] s1] eqn:Ey;
      destruct (quiet_requests latency _ _ _ _ _ Ey) as [Ht1 _].
    2: rewrite (bind_Raise _ _ _ _ _ Ey) in H.
    3: rewrite (bind_OutOfFuel _ _ _ _ Ey) in H.
    2,3: injection H as <- <-; exists [], []; simpl;
         rewrite app_nil_r; repeat split; [congruence|constructor].
    rewrite (bind_Ret _ _ _ _ _ Ey) in H. cbn [fst snd] in H.
    repeat mstep_in H. cbn [clock elapse ticks] in H.
    destruct (Qle_bool budget _) eqn:Eb.
    + injection H as <- <-.
      exists [], [APull (sleep_time y); ACheck (clock s1 + latency (ticks s1) - start_time)%Q].
      cbn [trace]. rewrite <- app_assoc, controller_app, Ht1.
      repeat split; try constructor; try assumption. cbn [dispatches]. lia.
    + unfold asyncio_sleep in H. repeat mstep_in H.
      match type of H with
      | context [bind complete_early _ ?sa] =>
          destruct (complete_early_settles sa) as (s2 & E2 & _ & Hc2 & _);
          rewrite (bind_Ret _ _ _ _ _ E2) in H
      end.
      unfold ensure_future in H. repeat mstep_in H.
      apply IH in H. destruct H as (done & tail & Htr & Hp & Ho).
      cbn [trace set_tasks advance elapse ticks clock] in Htr, Hc2.
      repeat rewrite controller_app in Hc2. repeat rewrite controller_app in Htr.
      rewrite Hc2, Ht1 in Htr.
      cbn [controller List.filter is_controller] in Htr.
      repeat rewrite <- app_assoc in Htr. cbn [app] in Htr.
      eexists (_ :: _ :: _ :: _ :: done), tail.
      split; [|split].
      * rewrite Htr. reflexivity.
      * constructor; assumption.
      * destruct o as [[[request d] sent']| |]; auto.
        destruct Ho as (-> & Hb & ->). repeat split; auto.
        cbn [dispatches]. lia.
Qed.

(** C3: whatever the clock, the log and the network do, every dispatch of
    the pacing loop comes right after a reading of the elapsed time that was
    below the budget and a sleep that, added to that reading, does not pass
    the budget; and a reading at or over the budget is the controller's last
    step in the loop: it dispatches nothing then and the loop is left by
    [break], from where [run] goes on to cancel and await what is pending. *)
Theorem budget_enforced (fuel : nat) (budget start_time : Q)
    (gen : requests_frame) (sent : Z) (s : Store) :
  exists new,
    controller (trace (snd (run_loop latency network fuel budget start_time gen sent s)))
      = controller (trace s) ++ new /\
    (forall pre task post, new = pre ++ ADispatch task :: post ->
       exists pre' delta delay,
         pre = pre' ++ [ACheck delta; ASleep delay] /\
         (delta < budget)%Q /\ (delta + Qmax delay 0 <= budget)%Q) /\
    (forall pre delta post, new = pre ++ ACheck delta :: post ->
       (budget <= delta)%Q ->
       post = [] /\
       exists request sent',
         fst (run_loop latency network fuel budget start_time gen sent s)
           = Ret (request, delta, sent')).
Proof.
  destruct (run_loop latency network fuel budget start_time gen sent s) as [o s'] eqn:E.
  destruct (run_loop_trace _ _ _ _ _ _ _ _ E) as (done & tail & Htr & Hp & Ho).
  exists (done ++ tail). cbn [fst snd]. split; [exact Htr|]. split.
  - intros pre task post Hnew.
    assert (Htail : dispatches tail = 0%nat).
    { destruct o as [[[request d] sent']| |]; [destruct Ho as (-> & _)|subst tail..];
        reflexivity. }
    destruct (paced_dispatch budget done tail Hp Htail _ _ _ Hnew)
      as (pre' & sleep & delta & -> & Hd).
    exists (pre' ++ [APull sleep]), delta, (py_min sleep (budget - delta)).
    split; [rewrite <- app_assoc; reflexivity|]. split; [exact Hd|].
    pose proof (py_min_le_r sleep (budget - delta)) as Hmin.
    destruct (Q.max_spec (py_min sleep (budget - delta)) 0) as [[_ ->]|[_ ->]]; lra.
  - intros pre delta post Hnew Hle.
    destruct (paced_check budget done tail Hp _ _ _ Hnew Hle) as (pre' & -> & Ht).
    destruct o as [[[request d] sent']| |].
    + destruct Ho as (-> & Hb & ->).
      destruct pre' as [|a1 [|a2 pre']].
      * discriminate.
      * injection Ht as _ -> <-. split; [reflexivity|]. eauto.
      * injection Ht as _ _ Ht. destruct pre'; discriminate.
    + subst tail. destruct pre'; discriminate.
    + subst tail. destruct pre'; discriminate.
Qed.

(** C4, as the code has it: an iteration pulls the next request with its
    sleep time, reads the elapsed time and compares it with the budget
    before any sleep; at or over the budget it leaves the loop, having
    neither slept nor dispatched; otherwise it sleeps for
    [min(sleep_time, budget - elapsed)] and dispatches with no further
    check.  The requests counted as sent are the dispatches. *)
Theorem pacing_iteration_order (fuel : nat) (budget start_time : Q)
    (gen : requests_frame) (sent : Z) (s : Store) :
  exists done tail,
    controller (trace (snd (run_loop latency network fuel budget start_time gen sent s)))
      = controller (trace s) ++ done ++ tail /\
    paced budget done /\
    match fst (run_loop latency network fuel budget start_time gen sent s) with
    | Ret (request, delta_secs, sent') =>
        tail = [APull (sleep_time request); ACheck delta_secs] /\
        (budget <= delta_secs)%Q /\
        sent' = sent + Z.of_nat (dispatches (done ++ tail))
    | _ => tail = []
    end.
Proof.
  destruct (run_loop latency network fuel budget start_time gen sent s) as [o s'] eqn:E.
  destruct (run_loop_trace _ _ _ _ _ _ _ _ E) as (done & tail & Htr & Hp & Ho).
  exists done, tail. cbn [fst snd]. split; [exact Htr|]. split; [exact Hp|].
  destruct o as [[[request d] sent']| |]; try exact Ho.
  destruct Ho as (-> & Hb & ->). split; [reflexivity|].
  split; [apply Qle_bool_iff; exact Hb|].
  rewrite dispatches_app. cbn [dispatches]. lia.
Qed.

(** ** Draining *)

Lemma await_task_result (i : nat) (s : Store) (f : fate) :
  fates s !! i = Some f ->
  exists s', await_task i s = (fate_result f, s') /\ fates s' = fates s.
Proof.
  intros Hi. unfold await_task.
  destruct (finish_task_settles i s) as (s1 & E & Hf & _).
  rewrite (bind_Ret _ _ _ _ _ E). mstep.
  assert (Hi1 : fates s1 !! i = Some f) by (rewrite Hf; exact Hi).
  unfold fates in Hi1. rewrite list_lookup_fmap in Hi1.
  destruct (tasks s1 !! i) as [t|]; [|discriminate].
  injection Hi1 as <-. exists s1. split; [reflexivity|exact Hf].
Qed.

(** One turn of the cancel-and-await loop. *)
Lemma drain_step (i : nat) (rest : list nat) (s : Store) (f : fate) :
  fates s !! i = Some f ->
  exists s1, fates s1 = fates s /\
    drain (i :: rest) s =
    match fate_result f with
    | Ret _ => drain rest s1
    | Raise e => if is_CancelledError e then drain rest s1 else (Raise e, s1)
    | OutOfFuel => (OutOfFuel, s1)
    end.
Proof.
  intros Hi. destruct (await_task_result i s f Hi) as (s1 & E & Hf).
  exists s1. split; [exact Hf|].
  cbn [drain]. unfold task_cancel. mstep.
  unfold bind at 1, try_except, bind at 1. rewrite E.
  destruct (fate_result f) as [r|e|]; try reflexivity.
  destruct e; reflexivity.
Qed.

Lemma benign_fates (s s' : Store) (i : nat) :
  fates s' = fates s -> benign s i -> benign s' i.
Proof. intros E (f & Hf & H). exists f. rewrite E. auto. Qed.

Lemma drain_benign (pending : list nat) :
  forall s, Forall (benign s) pending ->
  exists s', drain pending s = (Ret tt, s') /\ fates s' = fates s.
Proof.
  induction pending as [|i rest IH]; intros s Hall.
  - exists s. split; reflexivity.
  - inversion Hall as [|? ? (f & Hf & Hres) Hrest]; subst.
    destruct (drain_step i rest s f Hf) as (s1 & Hf1 & E).
    destruct (IH s1) as (s' & E' & Hf').
    { eapply Forall_impl; [exact Hrest|]. intros j. apply benign_fates. exact Hf1. }
    exists s'. split; [|congruence].
    rewrite E. destruct Hres as [->|[r ->]]; exact E'.
Qed.

Lemma drain_propagates (pre : list nat) (i : nat) (post : list nat) (f : fate) (e : exn) :
  forall s, Forall (benign s) pre ->
  fates s !! i = Some f ->
  fate_result f = Raise e ->
  e <> CancelledError ->
  exists s', drain (pre ++ i :: post) s = (Raise e, s').
Proof.
  induction pre as [|j pre IH]; intros s Hall Hf Hres Hne.
  - destruct (drain_step i post s f Hf) as (s1 & _ & E).
    exists s1. cbn [app]. rewrite E, Hres. destruct e; try reflexivity. contradiction.
  - inversion Hall as [|? ? (fj & Hfj & Hresj) Hrest]; subst.
    destruct (drain_step j (pre ++ i :: post) s fj Hfj) as (s1 & Hf1 & E).
    destruct (IH s1) as (s' & E'); try assumption.
    { eapply Forall_impl; [exact Hrest|]. intros k. apply benign_fates. exact Hf1. }
    { rewrite Hf1. exact Hf. }
    exists s'. cbn [app]. rewrite E. destruct Hresj as [->|[r ->]]; exact E'.
Qed.

Lemma finish_task_cancelled (i : nat) (s : Store) (t : Task) :
  tasks s !! i = Some t ->
  task_fate t = Interrupted CancelledError ->
  exists s' t', finish_task i s = (Ret tt, s') /\
    tasks s' !! i = Some t' /\ task_fate t' = Interrupted CancelledError /\
    trace s' = trace s /\ self s' = self s.
Proof.
  intros Et Hf. unfold finish_task. mstep. rewrite Et.
  destruct (task_done t).
  - exists s, t. repeat split; assumption.
  - mstep. unfold task_result. rewrite Hf. cbn [fate_result].
    unfold try_except. rewrite _callback_raise. cbn [is_CancelledError].
    eexists _, (set_task_done t). split; [reflexivity|].
    cbn [tasks set_tasks trace self]. split; [|repeat split; assumption].
    apply list_lookup_insert_eq. eapply lookup_lt_Some. exact Et.
Qed.

(** A task that takes its cancellation leaves no mark: the accumulator is not
    called and nothing is logged. *)
Lemma drain_cancelled_silent (i : nat) (s : Store) :
  fates s !! i = Some (Interrupted CancelledError) ->
  exists s', drain [i] s = (Ret tt, s') /\ trace s' = trace s /\ self s' = self s.
Proof.
  intros Hi. unfold fates in Hi. rewrite list_lookup_fmap in Hi.
  destruct (tasks s !! i) as [t|] eqn:Et; [|discriminate].
  injection Hi as Hf.
  destruct (finish_task_cancelled i s t Et Hf) as (s' & t' & E & Et' & Hf' & Htr & Hself).
  assert (Ea : await_task i s = (Raise CancelledError, s')).
  { unfold await_task. rewrite (bind_Ret _ _ _ _ _ E). mstep. rewrite Et'.
    unfold task_result. rewrite Hf'. reflexivity. }
  exists s'. split; [|split; assumption].
  cbn [drain]. unfold task_cancel. mstep.
  assert (Et2 : try_except (await_task i ;;; ret tt)
                  (fun e => if is_CancelledError e then ret tt else raise e) s
                = (Ret tt, s')).
  { unfold try_except. rewrite (bind_Raise _ _ _ _ _ Ea). reflexivity. }
  rewrite (bind_Ret _ _ _ _ _ Et2). reflexivity.
Qed.

(** ** The whole run *)

(** [run] from the point where the pacing loop was left by [break]. *)
Lemma run_after_loop (fuel : nat) (minutes : Q) (s s1 : Store)
    (request : request_dict) (delta_secs : Q) (sent : Z) :
  run_loop latency network fuel (minutes * 60) (clock (elapse latency s))
           requests_start 0 (elapse latency s)
    = (Ret (request, delta_secs, sent), s1) ->
  run latency network fuel minutes s =
  (drain (pending_tasks s1) ;;;
   average <- py_div (inject_Z sent) delta_secs ;;
   percentage <- py_div (py_max (- sleep_time request) 0) delta_secs ;;
   ret {| run_time_minutes := (delta_secs / 60)%Q;
          num_sent_requests := sent;
          average_requests_per_second := average;
          num_outstanding_requests := Z.of_nat (length (pending_tasks s1));
          seconds_behind := py_max (- sleep_time request) 0;
          percentage_behind := percentage |}) s1.
Proof.
  intros Hloop. unfold run.
  rewrite (bind_Ret _ _ _ _ _ (time_time_eq latency s)).
  rewrite (bind_Ret _ _ _ _ _ Hloop). cbn [fst snd]. mstep. reflexivity.
Qed.

(** C8: while draining, a pending task that ends in [CancelledError] is
    passed over and so is one that got its response before its [cancel()]:
    if all pending tasks are of these kinds the drain returns normally; the
    first pending task whose await raises anything else makes the drain raise
    that exception, and what the drain raises [run] raises; a task that takes
    its cancellation is passed over in silence: the accumulator is not called
    and nothing is logged. *)
Theorem drain_cancellation_handling (s : Store) (pre : list nat) :
  Forall (benign s) pre ->
  (exists s', drain pre s = (Ret tt, s'))
  /\ (forall i post f e,
        fates s !! i = Some f -> fate_result f = Raise e -> e <> CancelledError ->
        exists s', drain (pre ++ i :: post) s = (Raise e, s'))
  /\ (forall fuel minutes s0 r e s',
        run_loop latency network fuel (minutes * 60) (clock (elapse latency s0))
                 requests_start 0 (elapse latency s0) = (Ret r, s) ->
        drain (pending_tasks s) s = (Raise e, s') ->
        run latency network fuel minutes s0 = (Raise e, s'))
  /\ (forall i, fates s !! i = Some (Interrupted CancelledError) ->
        exists s', drain [i] s = (Ret tt, s') /\ trace s' = trace s /\ self s' = self s).
Proof.
  intros Hpre. split; [|split; [|split]].
  - destruct (drain_benign pre s Hpre) as (s' & E & _). exists s'. exact E.
  - intros i post f e Hf Hres Hne. exact (drain_propagates pre i post f e s Hpre Hf Hres Hne).
  - intros fuel minutes s0 [[request delta_secs] sent] e s' Hloop Hdrain.
    rewrite (run_after_loop _ _ _ _ _ _ _ Hloop).
    rewrite (bind_Raise _ _ _ _ _ Hdrain). reflexivity.
  - intros i Hi. exact (drain_cancelled_silent i s Hi).
Qed.

(** C9: when the loop has been left with the last pulled [request], the
    elapsed [delta_secs] and [sent] dispatches, and the drain has returned,
    [run] returns statistics with: the elapsed time in minutes; the number of
    requests sent, which is the number of dispatches; the average
    [sent / delta_secs]; the number of tasks that were pending at the
    cutoff; [seconds_behind = max(-sleep_time, 0)] for the last pulled
    request; and [percentage_behind = seconds_behind / delta_secs], the
    plain quotient.  With a positive budget [delta_secs] is positive, so
    neither division fails. *)
Theorem run_statistics (fuel : nat) (minutes : Q) (s s1 s2 : Store)
    (request : request_dict) (delta_secs : Q) (sent : Z) :
  (0 < minutes)%Q ->
  run_loop latency network fuel (minutes * 60) (clock (elapse latency s))
           requests_start 0 (elapse latency s)
    = (Ret (request, delta_secs, sent), s1) ->
  drain (pending_tasks s1) s1 = (Ret tt, s2) ->
  exists stats,
    run latency network fuel minutes s = (Ret stats, s2) /\
    (run_time_minutes stats == delta_secs / 60)%Q /\
    num_sent_requests stats = sent /\
    Z.of_nat (dispatches (trace s1)) = Z.of_nat (dispatches (trace s)) + sent /\
    (average_requests_per_second stats == inject_Z sent / delta_secs)%Q /\
    num_outstanding_requests stats = Z.of_nat (length (pending_tasks s1)) /\
    (seconds_behind stats == Qmax (- sleep_time request) 0)%Q /\
    (percentage_behind stats == seconds_behind stats / delta_secs)%Q /\
    (minutes * 60 <= delta_secs)%Q.
Proof.
  intros Hmin Hloop Hdrain.
  destruct (run_loop_trace _ _ _ _ _ _ _ _ Hloop)
    as (done & tail & Htr & Hp & -> & Hb & Hsent).
  apply Qle_bool_iff in Hb.
  assert (Hd : ~ (delta_secs == 0)%Q) by (intros E; rewrite E in Hb; lra).
  rewrite (run_after_loop _ _ _ _ _ _ _ Hloop).
  rewrite (bind_Ret _ _ _ _ _ Hdrain).
  rewrite (bind_Ret _ _ _ _ _ (py_div_nonzero _ _ _ Hd)).
  rewrite (bind_Ret _ _ _ _ _ (py_div_nonzero _ _ _ Hd)).
  eexists. split; [reflexivity|].
  cbn [run_time_minutes num_sent_requests average_requests_per_second
       num_outstanding_requests seconds_behind percentage_behind].
  split; [reflexivity|]. split; [reflexivity|]. split.
  { rewrite <- (dispatches_controller (trace s1)), Htr, !dispatches_app.
    cbn [trace elapse]. rewrite dispatches_controller. cbn [dispatches]. lia. }
  split; [reflexivity|]. split; [reflexivity|].
  split; [apply py_max_Qmax|]. split; [reflexivity|exact Hb].
Qed.

(** [main] fails with the summary's exception when the run has returned and
    no response with status 200 was counted. *)
Lemma main_zero_successes (fuel : nat) (minutes : Q) (s s' : Store) (stats : RunStats) :
  run latency network fuel minutes s = (Ret stats, s') ->
  counter_get (completion_status_counts (response_accumulator (self s'))) 200 = 0%nat ->
  fst (main latency network fuel minutes s) = Raise ZeroDivisionError.
Proof.
  intros Hrun Hzero. unfold main. rewrite (bind_Ret _ _ _ _ _ Hrun).
  unfold bind, zoom.
  destruct (get_summary_cases (response_accumulator (self s'))) as [H0 _].
  rewrite (H0 Hzero). reflexivity.
Qed.

End Loop.


(** ** Termination

    The clock is what ends a run: every pass of the pacing loop reads it,
    and a clock that moves by at least [epsilon] at each reading passes any
    budget after a bounded number of readings.  [run_terminates]: no fuel
    beyond that bound is needed for [run] to return or raise;
    [run_returns]: over a well-formed log and against requests that end in a
    response or a cancellation, it returns. *)

Section Termination.
Variable latency : nat -> Q.
Variable network : nat -> fate.

Lemma fuelled_yield_request (r : Request) (rest : list Request) :
  fuelled (yield_request latency r rest).
Proof.
  unfold yield_request, _get_sleep_time, datetime_now. fuelled_steps.
Qed.

Lemma fuelled_cycle_start (last : option Request) : fuelled (cycle_start latency last).
Proof. unfold cycle_start, datetime_now. fuelled_steps. Qed.

(** One pass of [while True] is enough for a [next()] over a log that is
    not empty. *)
Lemma requests_fuelled (fuel : nat) (f : requests_frame) (s : Store) :
  request_generator_factory (self s) tt <> [] ->
  fst (_requests latency (S fuel) f s) <> OutOfFuel.
Proof.
  intros Hlog. cbn [_requests].
  destruct (request_generator f); [|apply fuelled_yield_request].
  mstep. apply fuelled_bind; [apply fuelled_cycle_start|]. intros _ s1.
  destruct (request_generator_factory (self s) tt) as [|r rest]; [contradiction|].
  destruct fuel; apply fuelled_yield_request.
Qed.

Variable epsilon : Q.
Hypothesis epsilon_pos : (0 < epsilon)%Q.
Hypothesis latency_epsilon : forall n, (epsilon <= latency n)%Q.

Lemma latency_not_negative (n : nat) : (0 <= latency n)%Q.
Proof. pose proof (latency_epsilon n). lra. Qed.

(** With a clock that moves by at least [epsilon] at every reading, the
    pacing loop over a log that is not empty comes to an end within [n + 1]
    iterations, by [break] or by an exception of the generator, if
    [n * epsilon] covers what is left of the budget. *)
Lemma run_loop_breaks (budget start_time : Q) (n : nat) :
  forall (fuel : nat) (gen : requests_frame) (sent : Z) (s : Store),
  (n < fuel)%nat ->
  (budget - (clock s - start_time) <= inject_Z (Z.of_nat n) * epsilon)%Q ->
  request_generator_factory (self s) tt <> [] ->
  fst (run_loop latency network fuel budget start_time gen sent s) <> OutOfFuel.
Proof.
  induction n as [|n IH]; intros fuel gen sent s Hfuel Hleft Hlog;
    (destruct fuel as [|fuel]; [lia|]); rewrite run_loop_step;
    pose proof (requests_fuelled fuel gen s Hlog) as Hy;
    destruct (_requests latency (S fuel) gen s) as [[[y gen']|e|] s1] eqn:Ey;
    try (exfalso; apply Hy; reflexivity);
    try (rewrite (bind_Raise _ _ _ _ _ Ey); discriminate);
    destruct (steady_requests latency _ _ latency_not_negative _ _ _ Ey) as [Hclock Hsame];
    rewrite (bind_Ret _ _ _ _ _ Ey); cbn [fst snd]; repeat mstep;
    cbn [clock elapse ticks];
    pose proof (latency_epsilon (ticks s1)) as Hlat;
    destruct (Qle_bool budget _) eqn:Eb; try discriminate;
    apply Qle_bool_false in Eb.
  - exfalso. change (inject_Z (Z.of_nat 0)) with 0%Q in Hleft. lra.
  - unfold asyncio_sleep. repeat mstep.
    match goal with
    | |- context [bind complete_early _ ?sa] =>
        destruct (complete_early_settles sa) as (s2 & E2 & _ & _ & [a Ha] & Hc2 & _);
        rewrite (bind_Ret _ _ _ _ _ E2)
    end.
    unfold ensure_future. repeat mstep. apply IH; [lia| |].
    + cbn [clock set_tasks advance elapse] in *. rewrite Hc2.
      rewrite readings_succ in Hleft.
      match goal with |- context [if Qle_bool ?d 0 then _ else _] =>
        pose proof (slept_nonneg d) end.
      set (left := (inject_Z (Z.of_nat n) * epsilon)%Q) in *. lra.
    + cbn [self set_tasks advance elapse] in *. rewrite Ha.
      cbn. rewrite Hsame. exact Hlog.
Qed.

Variable first : Request.
Variable rest : list Request.

Lemma yield_request_ok (s : Store) (r : Request) (l : list Request) :
  log_initial_time (self s) <> datetime_min ->
  real_initial_time (self s) <> None ->
  (0 < speed_multiplier (self s))%Q ->
  exists y, yield_request latency r l s
            = (Ret (y, {| request_generator := l; request := Some r |}), elapse latency s).
Proof.
  intros Hne Hrs Hm. destruct (real_initial_time (self s)) as [rs|] eqn:Ers; [|contradiction].
  unfold yield_request. mstep.
  assert (Hm0 : ~ (speed_multiplier (self s) == 0)%Q) by (intros E; rewrite E in Hm; lra).
  rewrite (bind_Ret _ _ _ _ _ (_get_sleep_time_set latency s (timestamp r) rs Hne Ers Hm0)).
  eexists. reflexivity.
Qed.

Lemma cycle_start_wrap (s : Store) (last : Request) :
  real_initial_time (self s) <> None ->
  let d := if log_delta_time (self s) =? timedelta_zero
           then datetime_diff (timestamp last) (log_initial_time (self s))
           else log_delta_time (self s) in
  datetime_min <= log_initial_time (self s) - d <= datetime_max ->
  exists s', cycle_start latency (Some last) s = (Ret tt, s') /\
    log_initial_time (self s') = log_initial_time (self s) - d /\
    log_delta_time (self s') = d /\
    real_initial_time (self s') = real_initial_time (self s) /\
    request_generator_factory (self s') = request_generator_factory (self s) /\
    speed_multiplier (self s') = speed_multiplier (self s).
Proof.
  intros Hrs d Hrange. destruct (real_initial_time (self s)) as [rs|] eqn:Ers; [|contradiction].
  unfold cycle_start. repeat mstep. rewrite Ers.
  subst d. destruct (log_delta_time (self s) =? timedelta_zero) eqn:E.
  - repeat mstep. cbn [self on_self log_initial_time log_delta_time set_log_delta_time].
    rewrite (bind_Ret _ _ _ _ _ (datetime_sub_in_range _ _ _ Hrange)).
    eexists. split; [reflexivity|]. cbn. repeat split; assumption.
  - repeat mstep.
    rewrite (bind_Ret _ _ _ _ _ (datetime_sub_in_range _ _ _ Hrange)).
    eexists. split; [reflexivity|]. cbn. repeat split; assumption.
Qed.

(** A generator over a log that is not empty yields on every [next()], as
    long as the origin it moves back stays a datetime: it stays in its pass
    or enters the next one. *)
Lemma requests_productive (fuel k : nat) (s : Store) (f : requests_frame) :
  generator_at first rest k (self s) f ->
  wraps_in_range first rest (S k) ->
  exists y f' s' k',
    _requests latency (S fuel) f s = (Ret (y, f'), s') /\
    (k' <= S k)%nat /\
    generator_at first rest k' (self s') f'.
Proof.
  intros (Hsrc & Hm & Hk) Hrange.
  destruct k as [|j].
  - (* not started *)
    destruct Hk as (Ho & Hr & Hd & ->).
    assert (Hne : timestamp first <> datetime_min).
    { specialize (Hrange 0%nat ltac:(lia)). unfold datetime_min in *. lia. }
    destruct (first_pull latency fuel s first rest Ho Hr Hd Hm Hsrc Hne)
      as (y & s' & E & (Horig & Hne' & [rs Hrs] & Hdz & Hm') & Hfac & Hmul).
    exists y, {| request_generator := rest; request := Some first |}, s', 1%nat.
    split; [exact E|]. split; [lia|].
    split; [rewrite Hfac; exact Hsrc|]. split; [exact Hm'|].
    cbn. split; [rewrite Horig; lia|]. split; [congruence|].
    split; [exact Hdz|]. exists first. split; reflexivity.
  - destruct Hk as (Ho & Hrs & Hd & r & Hr & Hlast).
    assert (Hne : log_initial_time (self s) <> datetime_min).
    { specialize (Hrange j ltac:(lia)). rewrite Ho. unfold datetime_min in *. lia. }
    destruct f as [[|r' l] rq]; cbn [request request_generator] in Hr, Hlast; subst rq.
    + (* the pass is over: wrap around *)
      cbn [List.last] in Hlast. subst r.
      cbn [_requests request_generator request]. mstep.
      assert (Hd' : (if log_delta_time (self s) =? timedelta_zero
                     then datetime_diff (timestamp (log_last first rest))
                                        (log_initial_time (self s))
                     else log_delta_time (self s)) = log_duration first rest).
      { rewrite Hd, Ho. unfold timedelta_zero, datetime_diff.
        destruct j as [|j].
        - cbn. unfold log_duration, datetime_diff. lia.
        - destruct (log_duration first rest =? 0) eqn:E0; [|reflexivity].
          apply Z.eqb_eq in E0. rewrite E0.
          unfold log_duration, datetime_diff in E0. lia. }
      destruct (cycle_start_wrap s (log_last first rest) Hrs)
        as (s1 & E1 & Ho1 & Hd1 & Hrs1 & Hfac1 & Hm1).
      { rewrite Hd', Ho. specialize (Hrange (S j) ltac:(lia)).
        rewrite Nat2Z.inj_succ in Hrange. lia. }
      rewrite Hd' in Ho1, Hd1.
      rewrite (bind_Ret _ _ _ _ _ E1). rewrite Hsrc.
      assert (Ho1' : log_initial_time (self s1)
                     = timestamp first - Z.of_nat (S j) * log_duration first rest).
      { rewrite Ho1, Ho, Nat2Z.inj_succ. lia. }
      destruct (yield_request_ok s1 first rest) as [y Ey].
      { specialize (Hrange (S j) ltac:(lia)). rewrite Ho1'. unfold datetime_min in *. lia. }
      { rewrite Hrs1. exact Hrs. }
      { rewrite Hm1. exact Hm. }
      exists y, {| request_generator := rest; request := Some first |},
        (elapse latency s1), (S (S j)). split.
      { destruct fuel; cbn [_requests request_generator]; exact Ey. }
      split; [lia|]. cbn [self elapse].
      split; [rewrite Hfac1; exact Hsrc|]. split; [rewrite Hm1; exact Hm|].
      split; [exact Ho1'|]. split; [rewrite Hrs1; exact Hrs|].
      split; [exact Hd1|]. exists first. split; reflexivity.
    + (* in the middle of a pass *)
      cbn [_requests request_generator].
      destruct (yield_request_ok s r' l Hne Hrs Hm) as [y Ey].
      exists y, {| request_generator := l; request := Some r' |},
        (elapse latency s), (S j). split; [exact Ey|]. split; [lia|].
      cbn [self elapse]. split; [exact Hsrc|]. split; [exact Hm|].
      split; [exact Ho|]. split; [exact Hrs|]. split; [exact Hd|].
      exists r'. split; [reflexivity|]. cbn [request_generator].
      rewrite <- Hlast. symmetry. apply last_cons.
Qed.


Lemma wraps_in_range_le (K K' : nat) :
  (K' <= K)%nat -> wraps_in_range first rest K -> wraps_in_range first rest K'.
Proof. intros Hle H j Hj. apply H. lia. Qed.

Lemma generator_at_accumulator (k : nat) (l : LoadTester) (f : requests_frame)
    (a : ElasticsearchResponseAccumulator) :
  generator_at first rest k l f ->
  generator_at first rest k (set_response_accumulator a l) f.
Proof. destruct l. exact (fun H => H). Qed.

(** With a clock that moves by at least [epsilon] at every reading, over a
    log whose origins stay datetimes, the pacing loop is left by [break]
    after at most [n + 1] iterations, [n * epsilon] covering what is left
    of the budget; the tasks it leaves are those it found and those it
    dispatched. *)
Lemma run_loop_returns (budget start_time : Q) (n : nat) :
  forall (fuel k : nat) (gen : requests_frame) (sent : Z) (s : Store),
  (n < fuel)%nat ->
  (budget - (clock s - start_time) <= inject_Z (Z.of_nat n) * epsilon)%Q ->
  generator_at first rest k (self s) gen ->
  wraps_in_range first rest (k + S n) ->
  exists r s',
    run_loop latency network fuel budget start_time gen sent s = (Ret r, s') /\
    (forall f, In f (fates s') -> In f (fates s) \/ exists i, f = network i).
Proof.
  induction n as [|n IH]; intros fuel k gen sent s Hfuel Hleft Hgen Hrange;
    (destruct fuel as [|fuel]; [lia|]); rewrite run_loop_step;
    destruct (requests_productive fuel k s gen Hgen)
      as (y & gen' & s1 & k' & Ey & Hk' & Hgen');
    try (eapply wraps_in_range_le; [|exact Hrange]; lia);
    destruct (steady_requests latency _ _ latency_not_negative _ _ _ Ey) as [Hclock _];
    destruct (quiet_requests latency _ _ _ _ _ Ey) as [_ Htasks];
    rewrite (bind_Ret _ _ _ _ _ Ey); cbn [fst snd]; repeat mstep;
    cbn [clock elapse ticks];
    pose proof (latency_epsilon (ticks s1)) as Hlat;
    (destruct (Qle_bool budget _) eqn:Eb;
     [eexists _, _; split; [reflexivity|];
      intros f Hf; left; unfold fates in *; cbn [tasks] in Hf; rewrite <- Htasks; exact Hf|]);
    apply Qle_bool_false in Eb.
  - exfalso. change (inject_Z (Z.of_nat 0)) with 0%Q in Hleft. lra.
  - unfold asyncio_sleep. repeat mstep.
    match goal with
    | |- context [bind complete_early _ ?sa] =>
        destruct (complete_early_settles sa) as (s2 & E2 & Hf2 & _ & [a Ha] & Hc2 & _);
        rewrite (bind_Ret _ _ _ _ _ E2)
    end.
    unfold ensure_future. repeat mstep.
    match goal with
    | |- context [run_loop _ _ _ _ _ _ _ ?sb] =>
        destruct (IH fuel k' gen' (sent + 1) sb) as (r & s' & E & Hfates)
    end.
    + lia.
    + cbn [clock set_tasks advance elapse] in *. rewrite Hc2.
      rewrite readings_succ in Hleft.
      match goal with |- context [if Qle_bool ?d 0 then _ else _] =>
        pose proof (slept_nonneg d) end.
      set (left := (inject_Z (Z.of_nat n) * epsilon)%Q) in *. lra.
    + cbn [self set_tasks advance elapse] in *. rewrite Ha.
      apply generator_at_accumulator. exact Hgen'.
    + eapply wraps_in_range_le; [|exact Hrange]. lia.
    + exists r, s'. split; [exact E|]. intros f Hf.
      destruct (Hfates f Hf) as [Hin|Hnet]; [|right; exact Hnet].
      unfold fates in Hin. cbn [tasks set_tasks] in Hin.
      rewrite fmap_app in Hin. apply in_app_or in Hin. destruct Hin as [Hin|Hin].
      * left. fold (fates s2) in Hin. rewrite Hf2 in Hin.
        unfold fates in Hin |- *. cbn [tasks advance elapse] in Hin.
        rewrite <- Htasks. exact Hin.
      * right. cbn in Hin. destruct Hin as [<-|[]]. eexists. reflexivity.
Qed.

Lemma pending_tasks_benign (s : Store) :
  Forall passes (fates s) -> Forall (benign s) (pending_tasks s).
Proof.
  intros Hall. apply List.Forall_forall. intros i Hi.
  unfold pending_tasks in Hi. apply filter_In in Hi. destruct Hi as [_ Hi].
  destruct (tasks s !! i) as [t|] eqn:Et; [|discriminate].
  exists (task_fate t). split.
  - unfold fates. rewrite list_lookup_fmap, Et. reflexivity.
  - rewrite List.Forall_forall in Hall. apply Hall. unfold fates.
    apply list_elem_of_In, list_elem_of_fmap_2.
    eapply list_elem_of_lookup_2. exact Et.
Qed.

(** X5: total correctness of [run]: with a positive budget, a clock that moves
    at every reading, a log that is not empty and whose origins stay
    datetimes, and requests that end in a response or take their
    cancellation, [run] returns its statistics: the loop is left by [break]
    and the drain returns. *)
Theorem run_returns (minutes : Q) (n fuel : nat) (s : Store) :
  (0 < minutes)%Q ->
  (minutes * 60 <= inject_Z (Z.of_nat n) * epsilon)%Q ->
  (n < fuel)%nat ->
  generator_at first rest 0 (self s) requests_start ->
  wraps_in_range first rest (S n) ->
  (forall i, passes (network i)) ->
  Forall passes (fates s) ->
  exists request delta_secs sent s1 s2 stats,
    run_loop latency network fuel (minutes * 60) (clock (elapse latency s))
             requests_start 0 (elapse latency s)
      = (Ret (request, delta_secs, sent), s1) /\
    drain (pending_tasks s1) s1 = (Ret tt, s2) /\
    run latency network fuel minutes s = (Ret stats, s2).
Proof.
  intros Hmin Hn Hfuel Hgen Hrange Hnet Htasks.
  destruct (run_loop_returns (minutes * 60) (clock (elapse latency s)) n fuel 0
              requests_start 0 (elapse latency s))
    as ([[request delta_secs] sent] & s1 & Hloop & Hfates); try assumption.
  { lra. }
  assert (Hall : Forall passes (fates s1)).
  { apply List.Forall_forall. intros f Hf.
    destruct (Hfates f Hf) as [Hin|[i ->]]; [|apply Hnet].
    rewrite List.Forall_forall in Htasks. apply Htasks. exact Hin. }
  destruct (drain_benign (pending_tasks s1) s1 (pending_tasks_benign s1 Hall))
    as (s2 & Hdrain & _).
  exists request, delta_secs, sent, s1, s2.
  destruct (run_loop_trace _ _ _ _ _ _ _ _ _ _ Hloop)
    as (done & tail & Htr & Hp & _ & Hb & Hsent).
  apply Qle_bool_iff in Hb.
  assert (Hd : ~ (delta_secs == 0)%Q) by (intros E; rewrite E in Hb; lra).
  rewrite (run_after_loop _ _ _ _ _ _ _ _ _ Hloop).
  rewrite (bind_Ret _ _ _ _ _ Hdrain).
  rewrite (bind_Ret _ _ _ _ _ (py_div_nonzero _ _ _ Hd)).
  rewrite (bind_Ret _ _ _ _ _ (py_div_nonzero _ _ _ Hd)).
  eexists. split; [exact Hloop|]. split; [exact Hdrain|reflexivity].
Qed.


Lemma fuelled_await_task (i : nat) : fuelled (await_task i).
Proof.
  intros s. unfold await_task.
  destruct (finish_task_settles i s) as (s1 & E & _).
  rewrite (bind_Ret _ _ _ _ _ E). mstep.
  destruct (tasks s1 !! i) as [t|]; [|discriminate].
  unfold lift_outcome, task_result.
  destruct (fate_result_cases (task_fate t)) as [[r ->]|[e ->]]; discriminate.
Qed.

Lemma fuelled_drain (pending : list nat) : fuelled (drain pending).
Proof.
  induction pending as [|i pending IH]; cbn [drain]; [apply fuelled_ret|].
  unfold task_cancel. apply fuelled_bind; [apply fuelled_ret|]. intros _.
  apply fuelled_bind; [|intros _; exact IH].
  apply fuelled_try_except.
  - apply fuelled_bind; [apply fuelled_await_task|]. intros _. apply fuelled_ret.
  - intros e. destruct (is_CancelledError e); [apply fuelled_ret|apply fuelled_raise].
Qed.

(** X6: [run] comes to an end, by returning or by raising, whatever the log
    (if it is not empty) and the network do, as long as the clock moves:
    the fuel of the model is not what stops it. *)
Theorem run_terminates (minutes : Q) (n fuel : nat) (s : Store) :
  (minutes * 60 <= inject_Z (Z.of_nat n) * epsilon)%Q ->
  (n < fuel)%nat ->
  request_generator_factory (self s) tt <> [] ->
  fst (run latency network fuel minutes s) <> OutOfFuel.
Proof.
  intros Hn Hfuel Hlog. unfold run. cbv zeta.
  rewrite (bind_Ret _ _ _ _ _ (time_time_eq latency s)).
  pose proof (run_loop_breaks (minutes * 60) (clock (elapse latency s)) n fuel
                requests_start 0 (elapse latency s) Hfuel) as Hloop.
  destruct (run_loop _ _ _ _ _ _ _ _) as [[r|e|] s1] eqn:E.
  - rewrite (bind_Ret _ _ _ _ _ E). mstep.
    apply fuelled_bind; [apply fuelled_drain|]. intros _. fuelled_steps.
  - rewrite (bind_Raise _ _ _ _ _ E). discriminate.
  - exfalso. apply Hloop; [|exact Hlog|reflexivity]. lra.
Qed.

End Termination.

(** * Further properties *)

(** ** What a run hands on *)

Lemma preserves_ret {A} (P : Store -> Prop) (a : A) : preserves P (ret a).
Proof. intros s H. exact H. Qed.

Lemma preserves_raise {A} (P : Store -> Prop) (e : exn) : preserves P (@raise Store A e).
Proof. intros s H. exact H. Qed.

Lemma preserves_out_of_fuel {A} (P : Store -> Prop) : preserves P (@out_of_fuel Store A).
Proof. intros s H. exact H. Qed.

Lemma preserves_get (P : Store -> Prop) : preserves P (@get Store).
Proof. intros s H. exact H. Qed.

Lemma preserves_lift_outcome {A} (P : Store -> Prop) (o : outcome A) :
  preserves P (lift_outcome o).
Proof. intros s H. exact H. Qed.

Lemma preserves_py_div (P : Store -> Prop) (a b : Q) : preserves P (py_div a b).
Proof. intros s H. unfold py_div. destruct (Qeq_bool b 0); exact H. Qed.

Lemma preserves_modify (P : Store -> Prop) (f : Store -> Store) :
  (forall s, P s -> P (f s)) -> preserves P (modify f).
Proof. intros Hf s H. apply Hf, H. Qed.

Lemma preserves_bind {A B} (P : Store -> Prop) (c : M Store A) (k : A -> M Store B) :
  preserves P c -> (forall a, preserves P (k a)) -> preserves P (bind c k).
Proof.
  intros Hc Hk s H. unfold bind. specialize (Hc s H).
  destruct (c s) as [[a|e|] s1]; [apply Hk|..]; exact Hc.
Qed.

Lemma preserves_try_except {A} (P : Store -> Prop) (c : M Store A) (h : exn -> M Store A) :
  preserves P c -> (forall e, preserves P (h e)) -> preserves P (try_except c h).
Proof.
  intros Hc Hh s H. unfold try_except. specialize (Hc s H).
  destruct (c s) as [[a|e|] s1]; [|apply Hh|]; exact Hc.
Qed.

Lemma preserves_for_each {A} (P : Store -> Prop) (l : list A) (f : A -> M Store unit) :
  (forall x, preserves P (f x)) -> preserves P (for_each l f).
Proof.
  intros Hf. induction l as [|x l IH]; cbn [for_each]; [apply preserves_ret|].
  apply preserves_bind; [apply Hf|]. intros _. exact IH.
Qed.

Lemma store_eta (s : Store) :
  on_self (set_response_accumulator (response_accumulator (self s))) s = s.
Proof. destruct s as [[] ? ? ? ?]. reflexivity. Qed.

Section Invariant.
Variable latency : nat -> Q.
Variable network : nat -> fate.
Variable P : Store -> Prop.
Hypothesis P_timeline : forall f s, timeline_update f -> P s -> P (on_self f s).
Hypothesis P_elapse : forall s, P s -> P (elapse latency s).
Hypothesis P_advance : forall d s, P s -> P (advance d s).
Hypothesis P_logged : forall a s, is_controller a = true -> P s -> P (logged a s).
Hypothesis P_dispatch : forall t s,
  task_done t = false -> P s -> P (set_tasks (tasks s ++ [t]) s).
Hypothesis P_finish_task : forall i, preserves P (finish_task i).

Lemma preserves_requests (fuel : nat) (f : requests_frame) :
  preserves P (_requests latency fuel f).
Proof.
  intros s H.
  destruct (_requests latency fuel f s) as [o s'] eqn:E. cbn [snd].
  revert H. refine (keeps_requests latency (fun s s' => P s -> P s') _ _ _ _ fuel f _ _ _ E).
  - auto.
  - auto.
  - intros g s0 Hg. apply P_timeline, Hg.
  - exact P_elapse.
Qed.

Lemma preserves_log_action (a : action) :
  is_controller a = true -> preserves P (log_action a).
Proof. intros Ha s H. apply (P_logged a s Ha H). Qed.

Lemma preserves_time_time : preserves P (time_time latency).
Proof.
  unfold time_time. apply preserves_bind; [apply preserves_modify, P_elapse|].
  intros _. apply preserves_bind; [apply preserves_get|]. intros ?. apply preserves_ret.
Qed.

Lemma preserves_complete_early : preserves P complete_early.
Proof.
  unfold complete_early. apply preserves_bind; [apply preserves_get|]. intros s.
  apply preserves_for_each. intros i.
  destruct (tasks s !! i) as [[u b [[|] p|e] d]|];
    first [apply P_finish_task | apply preserves_ret].
Qed.

Lemma preserves_asyncio_sleep (delay : Q) : preserves P (asyncio_sleep delay).
Proof.
  unfold asyncio_sleep.
  apply preserves_bind; [apply preserves_log_action; reflexivity|]. intros _.
  apply preserves_bind; [apply preserves_modify, P_advance|]. intros _.
  apply preserves_complete_early.
Qed.

Lemma preserves_ensure_future (u : string) (b : JSON) :
  preserves P (ensure_future network u b).
Proof.
  unfold ensure_future. apply preserves_bind; [apply preserves_get|]. intros s.
  apply preserves_bind; [apply preserves_log_action; reflexivity|]. intros _.
  apply preserves_modify. intros s0. apply P_dispatch. reflexivity.
Qed.

Lemma preserves_run_loop (fuel : nat) (budget start_time : Q) :
  forall (gen : requests_frame) (sent : Z),
  preserves P (run_loop latency network fuel budget start_time gen sent).
Proof.
  induction fuel as [|fuel IH]; intros gen sent; [apply preserves_out_of_fuel|].
  intros s. rewrite run_loop_step. revert s.
  apply preserves_bind; [apply preserves_requests|]. intros y.
  apply preserves_bind; [apply preserves_log_action; reflexivity|]. intros _.
  apply preserves_bind; [apply preserves_time_time|]. intros now.
  apply preserves_bind; [apply preserves_log_action; reflexivity|]. intros _.
  destruct (Qle_bool budget _); [apply preserves_ret|].
  apply preserves_bind; [apply preserves_asyncio_sleep|]. intros _.
  apply preserves_bind; [apply preserves_ensure_future|]. intros _.
  apply IH.
Qed.

Lemma preserves_await_task (i : nat) : preserves P (await_task i).
Proof.
  unfold await_task. apply preserves_bind; [apply P_finish_task|]. intros _.
  apply preserves_bind; [apply preserves_get|]. intros s.
  destruct (tasks s !! i); [apply preserves_lift_outcome|apply preserves_raise].
Qed.

Lemma preserves_drain (pending : list nat) : preserves P (drain pending).
Proof.
  induction pending as [|i pending IH]; cbn [drain]; [apply preserves_ret|].
  apply preserves_bind; [apply preserves_ret|]. intros _.
  apply preserves_bind; [|intros _; exact IH].
  apply preserves_try_except.
  - apply preserves_bind; [apply preserves_await_task|]. intros _. apply preserves_ret.
  - intros e. destruct (is_CancelledError e); [apply preserves_ret|apply preserves_raise].
Qed.

Lemma preserves_run (fuel : nat) (minutes : Q) :
  preserves P (run latency network fuel minutes).
Proof.
  unfold run. cbv zeta.
  apply preserves_bind; [apply preserves_time_time|]. intros start_time.
  apply preserves_bind; [apply preserves_run_loop|]. intros r.
  apply preserves_bind; [apply preserves_get|]. intros s.
  apply preserves_bind; [apply preserves_drain|]. intros _.
  apply preserves_bind; [apply preserves_py_div|]. intros average.
  apply preserves_bind; [apply preserves_py_div|]. intros percentage.
  apply preserves_ret.
Qed.

Lemma preserves_main (fuel : nat) (minutes : Q) :
  preserves P (main latency network fuel minutes).
Proof.
  unfold main.
  apply preserves_bind; [apply preserves_run|]. intros stats.
  apply preserves_bind; [|intros ?; apply preserves_ret].
  intros s H. unfold zoom.
  destruct (get_summary_cases (response_accumulator (self s))) as [H0 H1].
  destruct (Nat.eq_dec (counter_get (completion_status_counts
                                       (response_accumulator (self s))) 200) 0%nat) as [E|E].
  - rewrite (H0 E). cbn [snd]. rewrite store_eta. exact H.
  - rewrite (H1 E). cbn [snd]. rewrite store_eta. exact H.
Qed.

End Invariant.

(** ** Tasks reaching their end, step by step *)

Lemma finish_task_cases (i : nat) (s : Store) :
  match tasks s !! i with
  | None => finish_task i s = (Ret tt, s)
  | Some t =>
      if task_done t then finish_task i s = (Ret tt, s)
      else
        let s1 := set_tasks (<[i := set_task_done t]> (tasks s)) s in
        match task_result t with
        | Ret r =>
            finish_task i s = (Ret tt, snd (call_sink r s1)) \/
            exists e, finish_task i s = (Ret tt, logged (AUnhandled e) (snd (call_sink r s1)))
        | Raise e =>
            finish_task i s = (Ret tt, s1) \/
            finish_task i s = (Ret tt, logged (AUnhandled e) s1)
        | OutOfFuel => False
        end
  end.
Proof.
  unfold finish_task. mstep. destruct (tasks s !! i) as [t|]; [|reflexivity].
  destruct (task_done t); [reflexivity|]. cbv zeta. mstep.
  unfold try_except, task_result.
  destruct (fate_result_cases (task_fate t)) as [[r ->]|[e ->]].
  - rewrite _callback_response, call_sink_eq. cbn [fst snd].
    destruct (process_response_information_outcome r
                (response_accumulator (self (set_tasks (<[i:=set_task_done t]> (tasks s)) s))))
      as [H|(e & H & _)]; rewrite H.
    + left. reflexivity.
    + right. exists e. reflexivity.
  - rewrite _callback_raise. destruct (is_CancelledError e); [left|right]; reflexivity.
Qed.

Lemma finish_task_tasks (i : nat) (s : Store) :
  tasks (snd (finish_task i s)) = mark_done i (tasks s).
Proof.
  pose proof (finish_task_cases i s) as H. unfold mark_done.
  destruct (tasks s !! i) as [t|] eqn:Et; [|rewrite H; reflexivity].
  destruct (task_done t) eqn:Ed.
  - rewrite H. cbn [snd]. symmetry. apply list_insert_id.
    rewrite Et. destruct t. cbn in Ed. subst. reflexivity.
  - cbv zeta in H. destruct (task_result t) as [r|e|]; [| |contradiction].
    + rewrite call_sink_eq in H. destruct H as [->|[e ->]]; reflexivity.
    + destruct H as [->| ->]; reflexivity.
Qed.

(** ** The accumulator and the callbacks *)

Lemma count_status_snoc (k : Z) (rs : list Response) (r : Response) :
  count_status k (rs ++ [r])
  = (count_status k rs + if decide (status r = k) then 1 else 0)%nat.
Proof.
  unfold count_status. rewrite List.filter_app, length_app. cbn [List.filter].
  destruct (decide (status r = k)) as [E|E].
  - apply Z.eqb_eq in E. rewrite E. reflexivity.
  - apply Z.eqb_neq in E. rewrite E. reflexivity.
Qed.

Lemma total_took_snoc (rs : list Response) (r : Response) :
  (total_took (rs ++ [r]) == total_took rs + success_took r)%Q.
Proof.
  induction rs as [|x rs IH]; cbn [app total_took]; [ring|]. rewrite IH. ring.
Qed.

Lemma sink_calls_controller (a : action) (tr : list action) :
  is_controller a = true -> sink_calls (tr ++ [a]) = sink_calls tr.
Proof.
  intros Ha. rewrite sink_calls_app. destruct a; try discriminate; apply app_nil_r.
Qed.

Lemma sink_calls_unhandled (e : exn) (tr : list action) :
  sink_calls (tr ++ [AUnhandled e]) = sink_calls tr.
Proof. rewrite sink_calls_app. apply app_nil_r. Qed.

Lemma tallied_call_sink (r : Response) (s : Store) :
  tallied s -> tallied (snd (call_sink r s)).
Proof.
  intros [Hc Ht]. rewrite call_sink_eq. cbn [snd]. unfold tallied.
  cbn [self on_self trace response_accumulator set_response_accumulator].
  rewrite sink_calls_app. cbn [sink_calls].
  pose proof (process_response_information_eq r (response_accumulator (self s))) as H.
  cbv zeta in H. unfold success_took in *.
  assert (Hk : forall k,
    counter_get (counter_update (completion_status_counts (response_accumulator (self s)))
                                (status r)) k
    = count_status k (sink_calls (trace s) ++ [r])).
  { intros k. rewrite count_status_snoc, counter_get_update.
    destruct (decide (status r = k)) as [<-|_]; rewrite Hc; lia. }
  destruct (status r =? 200) eqn:E200.
  - destruct (took_of r) as [q|] eqn:Eq.
    + rewrite H. cbn [snd]. split; [exact Hk|].
      cbn [total_took_time set_total_took_time].
      rewrite total_took_snoc. unfold success_took. rewrite E200, Eq, Ht. reflexivity.
    + destruct H as (e & _ & ->). cbn [snd]. split; [exact Hk|].
      cbn [total_took_time set_completion_status_counts].
      rewrite total_took_snoc. unfold success_took. rewrite E200, Eq, Ht. cbn. ring.
  - rewrite H. cbn [snd]. split; [exact Hk|].
    cbn [total_took_time set_completion_status_counts].
    rewrite total_took_snoc. unfold success_took. rewrite E200, Ht. ring.
Qed.

Lemma tallied_same (s s' : Store) :
  response_accumulator (self s') = response_accumulator (self s) ->
  sink_calls (trace s') = sink_calls (trace s) ->
  tallied s -> tallied s'.
Proof. unfold tallied. intros -> ->. exact (fun H => H). Qed.

Lemma tallied_finish_task (i : nat) : preserves tallied (finish_task i).
Proof.
  intros s H. pose proof (finish_task_cases i s) as Hc.
  destruct (tasks s !! i) as [t|]; [|rewrite Hc; exact H].
  destruct (task_done t); [rewrite Hc; exact H|]. cbv zeta in Hc.
  set (s1 := set_tasks _ s) in Hc.
  assert (H1 : tallied s1) by exact H.
  destruct (task_result t) as [r|e|]; [| |contradiction].
  - pose proof (tallied_call_sink r s1 H1) as H2.
    destruct Hc as [->|[e ->]]; [exact H2|].
    revert H2. apply tallied_same; [reflexivity|].
    apply sink_calls_unhandled.
  - destruct Hc as [->| ->]; [exact H1|].
    revert H1. apply tallied_same; [reflexivity|].
    apply sink_calls_unhandled.
Qed.

Lemma tallied_initial (factory : unit -> list Request) (h p : string) (m t0 : Q) :
  tallied (initial_store factory h p m t0).
Proof. split; [intros k|]; reflexivity. Qed.

Lemma tallied_run_steps (latency : nat -> Q) :
  (forall f s, timeline_update f -> tallied s -> tallied (on_self f s)) /\
  (forall s, tallied s -> tallied (elapse latency s)) /\
  (forall d s, tallied s -> tallied (advance d s)) /\
  (forall a s, is_controller a = true -> tallied s -> tallied (logged a s)) /\
  (forall t s, task_done t = false -> tallied s -> tallied (set_tasks (tasks s ++ [t]) s)).
Proof.
  split; [|split; [|split; [|split]]].
  - intros f s Hf. apply tallied_same; [apply Hf|reflexivity].
  - intros s. apply tallied_same; reflexivity.
  - intros d s. apply tallied_same; reflexivity.
  - intros a s Ha. apply tallied_same; [reflexivity|].
    apply sink_calls_controller, Ha.
  - intros t s _. apply tallied_same; reflexivity.
Qed.

(** X1: whatever the log, the clock and the network do and however the run
    ends, [run] and [main] leave the accumulator with exactly the tally of the
    responses that the done-callbacks handed to it: for every status code
    the number of such responses, and as total the sum of [took] over the
    successes that carried one. *)
Theorem accumulator_tallies_sink_calls (latency : nat -> Q) (network : nat -> fate)
    (fuel : nat) (minutes : Q) (s : Store) :
  tallied s ->
  tallied (snd (run latency network fuel minutes s)) /\
  tallied (snd (main latency network fuel minutes s)).
Proof.
  intros H. destruct (tallied_run_steps latency) as (H1 & H2 & H3 & H4 & H5).
  split.
  - apply (preserves_run latency network tallied H1 H2 H3 H4 H5 tallied_finish_task), H.
  - apply (preserves_main latency network tallied H1 H2 H3 H4 H5 tallied_finish_task), H.
Qed.

(** ** Each response is counted once *)

Lemma done_responses_mark (ts : list Task) :
  forall (i : nat) (t : Task),
  ts !! i = Some t -> task_done t = false ->
  done_responses (<[i := set_task_done t]> ts)
  ≡ₚ match task_result t with
     | Ret r => [r]
     | _ => []
     end ++ done_responses ts.
Proof.
  induction ts as [|x ts IH]; intros [|i] t Hi Hd; try discriminate.
  - injection Hi as ->. destruct t as [u b f d]. cbn in Hd. subst d.
    unfold done_responses, response_of, task_result, set_task_done. simpl.
    destruct (fate_result f); reflexivity.
  - specialize (IH i t Hi Hd). unfold done_responses in *. simpl.
    destruct (response_of x) as [r|]; [|exact IH].
    rewrite IH. destruct (task_result t); [|reflexivity..].
    cbn [app]. apply perm_swap.
Qed.

Lemma counted_once_same (s s' : Store) :
  sink_calls (trace s') = sink_calls (trace s) -> tasks s' = tasks s ->
  counted_once s -> counted_once s'.
Proof. unfold counted_once. intros -> ->. exact (fun H => H). Qed.

Lemma counted_once_finish_task (i : nat) : preserves counted_once (finish_task i).
Proof.
  intros s H. pose proof (finish_task_cases i s) as Hc.
  destruct (tasks s !! i) as [t|] eqn:Et; [|rewrite Hc; exact H].
  destruct (task_done t) eqn:Ed; [rewrite Hc; exact H|]. cbv zeta in Hc.
  unfold counted_once in H.
  pose proof (done_responses_mark (tasks s) i t Et Ed) as Hm.
  destruct (task_result t) as [r|e|]; [| |contradiction].
  - assert (H2 : counted_once
                   (snd (call_sink r (set_tasks (<[i:=set_task_done t]> (tasks s)) s)))).
    { rewrite call_sink_eq. unfold counted_once. cbn [snd on_self trace tasks set_tasks].
      rewrite sink_calls_app, Hm. cbn [sink_calls].
      rewrite H. apply Permutation_app_comm. }
    destruct Hc as [->|[e ->]]; [exact H2|].
    revert H2. apply counted_once_same; [apply sink_calls_unhandled|reflexivity].
  - assert (H1 : counted_once (set_tasks (<[i:=set_task_done t]> (tasks s)) s)).
    { unfold counted_once. cbn [trace tasks set_tasks]. rewrite Hm. exact H. }
    destruct Hc as [->| ->]; [exact H1|].
    revert H1. apply counted_once_same; [apply sink_calls_unhandled|reflexivity].
Qed.

Lemma counted_once_run_steps (latency : nat -> Q) :
  (forall f s, timeline_update f -> counted_once s -> counted_once (on_self f s)) /\
  (forall s, counted_once s -> counted_once (elapse latency s)) /\
  (forall d s, counted_once s -> counted_once (advance d s)) /\
  (forall a s, is_controller a = true -> counted_once s -> counted_once (logged a s)) /\
  (forall t s, task_done t = false -> counted_once s ->
               counted_once (set_tasks (tasks s ++ [t]) s)).
Proof.
  split; [|split; [|split; [|split]]].
  - intros f s _. apply counted_once_same; reflexivity.
  - intros s. apply counted_once_same; reflexivity.
  - intros d s. apply counted_once_same; reflexivity.
  - intros a s Ha. apply counted_once_same; [|reflexivity].
    apply sink_calls_controller, Ha.
  - intros t s Hd H. unfold counted_once, done_responses in *. cbn [trace tasks set_tasks].
    rewrite omap_app. cbn [omap list_omap]. unfold response_of at 2. rewrite Hd.
    rewrite app_nil_r. exact H.
Qed.

Lemma counted_once_initial (factory : unit -> list Request) (h p : string) (m t0 : Q) :
  counted_once (initial_store factory h p m t0).
Proof. apply Permutation_refl. Qed.

Lemma done_responses_length (ts : list Task) :
  (length (done_responses ts) <= length ts)%nat.
Proof.
  induction ts as [|t ts IH]; [reflexivity|].
  unfold done_responses in *. cbn [omap list_omap].
  destruct (response_of t); cbn [length]; lia.
Qed.

(** X2: over a whole run, however it ends, the responses handed to the
    accumulator are exactly the responses of the tasks that are done and
    ended with a response, each one once (in the order of completion, which
    need not be the order of dispatch); a task that was cancelled, failed or
    is still pending has handed over nothing.  In particular there are never
    more calls of the accumulator than tasks. *)
Theorem sink_called_once_per_task (latency : nat -> Q) (network : nat -> fate)
    (fuel : nat) (minutes : Q) (s : Store) :
  counted_once s ->
  let s' := snd (run latency network fuel minutes s) in
  sink_calls (trace s') ≡ₚ done_responses (tasks s') /\
  (length (sink_calls (trace s')) <= length (tasks s'))%nat.
Proof.
  intros H s'. destruct (counted_once_run_steps latency) as (H1 & H2 & H3 & H4 & H5).
  assert (H' : counted_once s').
  { apply (preserves_run latency network counted_once H1 H2 H3 H4 H5
             counted_once_finish_task), H. }
  unfold counted_once in H'. split; [exact H'|]. rewrite H'. apply done_responses_length.
Qed.

(** ** After the drain *)

Lemma mark_done_length (i : nat) (ts : list Task) :
  length (mark_done i ts) = length ts.
Proof. unfold mark_done. destruct (ts !! i); [apply length_insert|reflexivity]. Qed.

Lemma mark_done_keeps (i j : nat) (ts : list Task) :
  done_at ts j -> done_at (mark_done i ts) j.
Proof.
  intros (t & Hj & Hd). unfold mark_done.
  destruct (ts !! i) as [ti|] eqn:Ei; [|exists t; auto].
  destruct (decide (i = j)) as [->|Hne].
  - exists (set_task_done ti). split; [|reflexivity].
    apply list_lookup_insert_eq. eapply lookup_lt_Some, Ei.
  - exists t. split; [|exact Hd]. rewrite list_lookup_insert_ne by exact Hne. exact Hj.
Qed.

Lemma mark_done_marks (i : nat) (ts : list Task) :
  (i < length ts)%nat -> done_at (mark_done i ts) i.
Proof.
  intros Hi. unfold mark_done. destruct (lookup_lt_is_Some_2 ts i Hi) as [t Et].
  rewrite Et. exists (set_task_done t). split; [|reflexivity].
  apply list_lookup_insert_eq, Hi.
Qed.

Lemma mark_all_length (l : list nat) :
  forall ts, length (mark_all l ts) = length ts.
Proof.
  induction l as [|i l IH]; intros ts; [reflexivity|].
  unfold mark_all in *. cbn [foldl]. rewrite IH. apply mark_done_length.
Qed.

Lemma mark_all_keeps (l : list nat) (j : nat) :
  forall ts, done_at ts j -> done_at (mark_all l ts) j.
Proof.
  induction l as [|i l IH]; intros ts H; [exact H|].
  unfold mark_all in *. cbn [foldl]. apply IH, mark_done_keeps, H.
Qed.

Lemma mark_all_marks (l : list nat) (j : nat) :
  forall ts, In j l -> (j < length ts)%nat -> done_at (mark_all l ts) j.
Proof.
  induction l as [|i l IH]; intros ts Hin Hj; [destruct Hin|].
  unfold mark_all in *. cbn [foldl]. destruct Hin as [->|Hin].
  - apply (mark_all_keeps l j), mark_done_marks, Hj.
  - apply IH; [exact Hin|]. rewrite mark_done_length. exact Hj.
Qed.

Lemma filter_nowhere {A} (f : A -> bool) (l : list A) :
  (forall x, In x l -> f x = false) -> List.filter f l = [].
Proof.
  induction l as [|x l IH]; intros H; [reflexivity|]. cbn [List.filter].
  rewrite (H x (or_introl eq_refl)). apply IH. intros y Hy. apply H. right. exact Hy.
Qed.

Lemma pending_tasks_none (s : Store) :
  (forall j, (j < length (tasks s))%nat -> done_at (tasks s) j) -> pending_tasks s = [].
Proof.
  intros H. unfold pending_tasks. apply filter_nowhere. intros j Hj.
  apply in_seq in Hj. destruct (H j) as (t & -> & ->); [lia|reflexivity].
Qed.

Lemma pending_or_done (s : Store) (j : nat) :
  (j < length (tasks s))%nat -> In j (pending_tasks s) \/ done_at (tasks s) j.
Proof.
  intros Hj. destruct (lookup_lt_is_Some_2 _ _ Hj) as [t Et].
  destruct (task_done t) eqn:Ed; [right; exists t; auto|left].
  unfold pending_tasks. apply filter_In. split; [apply in_seq; lia|].
  rewrite Et, Ed. reflexivity.
Qed.

Lemma await_task_eq (i : nat) (s : Store) :
  await_task i s =
  (match tasks (snd (finish_task i s)) !! i with
   | Some t => task_result t
   | None => Raise (OtherError "no such task")
   end, snd (finish_task i s)).
Proof.
  destruct (finish_task_settles i s) as (s1 & E & _). rewrite E. cbn [snd].
  unfold await_task. rewrite (bind_Ret _ _ _ _ _ E). mstep.
  destruct (tasks s1 !! i); reflexivity.
Qed.

(** One turn of the cancel-and-await loop leaves the store that finishing
    the task leaves. *)
Lemma drain_turn (i : nat) (s : Store) :
  exists o,
    try_except (await_task i ;;; ret tt)
               (fun e => if is_CancelledError e then ret tt else raise e) s
    = (o, snd (finish_task i s)) /\
    (o = Ret tt \/ exists e, o = Raise e).
Proof.
  unfold try_except, bind. rewrite await_task_eq.
  destruct (tasks (snd (finish_task i s)) !! i) as [t|].
  - unfold task_result. destruct (fate_result_cases (task_fate t)) as [[r ->]|[e ->]].
    + exists (Ret tt). split; [reflexivity|left; reflexivity].
    + destruct (is_CancelledError e); eexists; (split; [reflexivity|]); eauto.
  - cbn. eexists. split; [reflexivity|]. eauto.
Qed.

Lemma drain_returned (l : list nat) :
  forall s s', drain l s = (Ret tt, s') -> tasks s' = mark_all l (tasks s).
Proof.
  induction l as [|i l IH]; intros s s' H.
  - injection H as <-. reflexivity.
  - cbn [drain] in H. unfold task_cancel in H. mstep_in H.
    destruct (drain_turn i s) as (o & E & [->|[e ->]]).
    + rewrite (bind_Ret _ _ _ _ _ E) in H. apply IH in H. rewrite H.
      rewrite finish_task_tasks. reflexivity.
    + rewrite (bind_Raise _ _ _ _ _ E) in H. discriminate.
Qed.

Lemma drain_leaves_nothing_pending (s s' : Store) :
  drain (pending_tasks s) s = (Ret tt, s') -> pending_tasks s' = [].
Proof.
  intros H. apply drain_returned in H. apply pending_tasks_none. intros j Hj.
  rewrite H in Hj |- *. rewrite mark_all_length in Hj.
  destruct (pending_or_done s j Hj) as [Hp|Hd].
  - apply mark_all_marks; assumption.
  - apply mark_all_keeps, Hd.
Qed.

(** X3: when [run] returns its statistics, no task is left pending: every
    task that was outstanding at the cutoff has been awaited to its end, and
    the tasks that were done stay done. *)
Theorem run_leaves_nothing_pending (latency : nat -> Q) (network : nat -> fate)
    (fuel : nat) (minutes : Q) (s s' : Store) (stats : RunStats) :
  run latency network fuel minutes s = (Ret stats, s') ->
  pending_tasks s' = [] /\
  forall j, (j < length (tasks s'))%nat -> done_at (tasks s') j.
Proof.
  intros H. unfold run in H. cbv zeta in H.
  rewrite (bind_Ret _ _ _ _ _ (time_time_eq latency s)) in H.
  destruct (run_loop latency network fuel (minutes * 60) (clock (elapse latency s))
              requests_start 0 (elapse latency s))
    as [[r|e|] s1] eqn:Eloop.
  2: rewrite (bind_Raise _ _ _ _ _ Eloop) in H; discriminate.
  2: rewrite (bind_OutOfFuel _ _ _ _ Eloop) in H; discriminate.
  rewrite (bind_Ret _ _ _ _ _ Eloop) in H. mstep_in H.
  destruct (drain (pending_tasks s1) s1) as [[[]|e|] s2] eqn:Edrain.
  2: rewrite (bind_Raise _ _ _ _ _ Edrain) in H; discriminate.
  2: rewrite (bind_OutOfFuel _ _ _ _ Edrain) in H; discriminate.
  rewrite (bind_Ret _ _ _ _ _ Edrain) in H.
  assert (Hs : s' = s2).
  { unfold bind, py_div in H.
    destruct (Qeq_bool (snd (fst r)) 0); cbn in H; [discriminate|].
    injection H as _ <-. reflexivity. }
  subst s'. split; [exact (drain_leaves_nothing_pending _ _ Edrain)|].
  intros j Hj. pose proof (drain_returned _ _ _ Edrain) as Ht.
  rewrite Ht in Hj |- *. rewrite mark_all_length in Hj.
  destruct (pending_or_done s1 j Hj) as [Hp|Hd].
  - apply mark_all_marks; assumption.
  - apply mark_all_keeps, Hd.
Qed.

(** ** The order in which responses arrive *)

Lemma count_status_cons (k : Z) (r : Response) (rs : list Response) :
  count_status k (r :: rs)
  = ((if decide (status r = k) then 1 else 0) + count_status k rs)%nat.
Proof.
  unfold count_status. cbn [List.filter].
  destruct (decide (status r = k)) as [E|E].
  - apply Z.eqb_eq in E. rewrite E. reflexivity.
  - apply Z.eqb_neq in E. rewrite E. reflexivity.
Qed.

Lemma count_status_perm (k : Z) (rs rs' : list Response) :
  rs ≡ₚ rs' -> count_status k rs = count_status k rs'.
Proof.
  induction 1 as [|x l l' _ IH|x y l|l1 l2 l3 _ IH1 _ IH2].
  - reflexivity.
  - rewrite !count_status_cons, IH. reflexivity.
  - rewrite !count_status_cons. lia.
  - congruence.
Qed.

Lemma total_took_perm (rs rs' : list Response) :
  rs ≡ₚ rs' -> (total_took rs == total_took rs')%Q.
Proof.
  induction 1 as [|x l l' _ IH|x y l|l1 l2 l3 _ IH1 _ IH2]; cbn [total_took].
  - reflexivity.
  - rewrite IH. reflexivity.
  - ring.
  - rewrite IH1. exact IH2.
Qed.

(** One call of [process_response_information], whether it returns or
    raises. *)
Lemma process_response_information_step (r : Response)
    (a : ElasticsearchResponseAccumulator) :
  let a' := snd (process_response_information r a) in
  completion_status_counts a'
    = counter_update (completion_status_counts a) (status r) /\
  (total_took_time a' == total_took_time a + success_took r)%Q.
Proof.
  pose proof (process_response_information_eq r a) as H. cbv zeta in H |- *.
  unfold success_took. destruct (status r =? 200).
  - destruct (took_of r) as [q|].
    + rewrite H. split; reflexivity.
    + destruct H as (e & _ & ->). split; [reflexivity|]. cbn. ring.
  - rewrite H. split; [reflexivity|]. cbn. ring.
Qed.

Lemma feed_tally (rs : list Response) :
  forall a k,
    completion_status_counts (feed rs a) !! k
    = (if decide (count_status k rs = 0%nat) then completion_status_counts a !! k
       else Some (counter_get (completion_status_counts a) k + count_status k rs)%nat) /\
    (total_took_time (feed rs a) == total_took_time a + total_took rs)%Q.
Proof.
  induction rs as [|r rs IH]; intros a k.
  - split; [reflexivity|]. cbn. ring.
  - cbn [feed fold_left]. fold (feed rs (snd (process_response_information r a))).
    destruct (IH (snd (process_response_information r a)) k) as [Hc Ht].
    destruct (process_response_information_step r a) as [Hc1 Ht1].
    split.
    + rewrite Hc, Hc1, count_status_cons, counter_get_update. unfold counter_update.
      destruct (decide (status r = k)) as [->|Hne].
      * rewrite lookup_insert_eq.
        destruct (decide (count_status k rs = 0%nat)) as [->|_];
          destruct (decide _) as [E|_]; try discriminate E; f_equal; lia.
      * rewrite lookup_insert_ne by exact Hne. cbn [Nat.add].
        destruct (decide (count_status k rs = 0%nat)); reflexivity.
    + rewrite Ht, Ht1. cbn [total_took]. ring.
Qed.

(** X4: the accumulator does not depend on the order in which the responses
    reach it: after the callbacks of the same responses in any two orders,
    whichever of them raise, the histogram is the same map and the latency
    total the same number (so the summary is the same). *)
Theorem accumulation_order_independent (rs rs' : list Response)
    (a : ElasticsearchResponseAccumulator) :
  rs ≡ₚ rs' ->
  completion_status_counts (feed rs a) = completion_status_counts (feed rs' a) /\
  (total_took_time (feed rs a) == total_took_time (feed rs' a))%Q.
Proof.
  intros Hp. split.
  - apply map_eq. intros k.
    rewrite (proj1 (feed_tally rs a k)), (proj1 (feed_tally rs' a k)).
    rewrite (count_status_perm k rs rs' Hp). reflexivity.
  - rewrite (proj2 (feed_tally rs a 0)), (proj2 (feed_tally rs' a 0)).
    rewrite (total_took_perm rs rs' Hp). reflexivity.
Qed.

(** ** Edges of the replay *)

Section Edges.
Variable latency : nat -> Q.
Variable network : nat -> fate.

(** The first pass of [while True] over a fresh timeline: the replay start
    is read off the clock and nothing else changes. *)
Lemma cycle_start_fresh (last : option Request) (s : Store) :
  fresh_timeline (self s) ->
  cycle_start latency last s
  = (Ret tt,
     on_self (set_log_initial_time datetime_min)
       (on_self (set_real_initial_time
                   (Some (datetime_of_clock (clock (elapse latency s)))))
          (elapse latency s))).
Proof.
  intros (Ho & Hr & Hd). unfold cycle_start. mstep. rewrite Hr. repeat mstep.
  cbn [self on_self elapse log_initial_time log_delta_time set_real_initial_time].
  rewrite Ho, Hd. repeat mstep. reflexivity.
Qed.

(** A later pass that finds the log duration unset and no request bound. *)
Lemma cycle_start_unbound (s : Store) (replay_start : datetime) :
  real_initial_time (self s) = Some replay_start ->
  log_delta_time (self s) = timedelta_zero ->
  cycle_start latency None s = (Raise (UnboundLocalError "request"), s).
Proof.
  intros Hr Hd. unfold cycle_start. mstep. rewrite Hr, Hd. reflexivity.
Qed.

Lemma requests_empty_log (fuel : nat) (s : Store) :
  request_generator_factory (self s) tt = [] ->
  fresh_timeline (self s) ->
  exists s',
    _requests latency (S (S fuel)) requests_start s
    = (Raise (UnboundLocalError "request"), s') /\
    trace s' = trace s /\ tasks s' = tasks s /\
    real_initial_time (self s') = Some (datetime_of_clock (clock (elapse latency s))).
Proof.
  intros Hlog Hfresh.
  cbn [_requests requests_start request_generator request]. mstep. rewrite Hlog.
  rewrite (bind_Ret _ _ _ _ _ (cycle_start_fresh None s Hfresh)).
  cbn [_requests request_generator request]. mstep.
  destruct Hfresh as (_ & _ & Hd).
  erewrite (bind_Raise (cycle_start latency None)).
  2: { eapply cycle_start_unbound; [reflexivity|exact Hd]. }
  eexists. split; [reflexivity|]. repeat split.
Qed.

(** X7: a replay of a log without requests fails: the generator finds
    nothing to yield in its first pass and, entering the second, reads the
    loop variable [request] that was never bound.  [run] raises that
    [UnboundLocalError] before anything is logged or dispatched. *)
Theorem empty_log_raises (fuel : nat) (minutes : Q) (s : Store) :
  request_generator_factory (self s) tt = [] ->
  fresh_timeline (self s) ->
  exists s',
    run latency network (S (S fuel)) minutes s
    = (Raise (UnboundLocalError "request"), s') /\
    trace s' = trace s /\ tasks s' = tasks s.
Proof.
  intros Hlog Hfresh. unfold run. cbv zeta.
  rewrite (bind_Ret _ _ _ _ _ (time_time_eq latency s)).
  destruct (requests_empty_log fuel (elapse latency s) Hlog Hfresh)
    as (s' & E & Ht & Hts & _).
  exists s'. split; [|split; assumption].
  rewrite run_loop_step, bind_assoc. rewrite (bind_Raise _ _ _ _ _ E). reflexivity.
Qed.

Lemma requests_zero_speed (fuel : nat) (s : Store) (first : Request) (rest : list Request) :
  request_generator_factory (self s) tt = first :: rest ->
  fresh_timeline (self s) ->
  (speed_multiplier (self s) == 0)%Q ->
  exists s',
    _requests latency (S fuel) requests_start s = (Raise ZeroDivisionError, s') /\
    trace s' = trace s /\ tasks s' = tasks s /\
    log_initial_time (self s') = timestamp first.
Proof.
  intros Hlog Hfresh Hm.
  cbn [_requests requests_start request_generator request]. mstep. rewrite Hlog.
  rewrite (bind_Ret _ _ _ _ _ (cycle_start_fresh None s Hfresh)).
  set (s1 := on_self _ _).
  assert (E : _requests latency fuel {| request_generator := first :: rest; request := None |} s1
              = yield_request latency first rest s1) by (destruct fuel; reflexivity).
  rewrite E. unfold yield_request. repeat mstep. unfold _get_sleep_time. repeat mstep.
  apply Qeq_bool_iff in Hm.
  unfold py_div. cbn [self on_self elapse speed_multiplier set_log_initial_time
                      set_real_initial_time] in *.
  unfold s1. cbn. rewrite Hm. cbn.
  eexists. split; [reflexivity|]. repeat split.
Qed.

(** X8: with a speed multiplier of zero the replay fails on its first
    request: [_get_sleep_time] divides by the multiplier, and [run] raises
    the [ZeroDivisionError] before anything is logged or dispatched. *)
Theorem zero_speed_multiplier_raises (fuel : nat) (minutes : Q) (s : Store)
    (first : Request) (rest : list Request) :
  request_generator_factory (self s) tt = first :: rest ->
  fresh_timeline (self s) ->
  (speed_multiplier (self s) == 0)%Q ->
  exists s',
    run latency network (S fuel) minutes s = (Raise ZeroDivisionError, s') /\
    trace s' = trace s /\ tasks s' = tasks s.
Proof.
  intros Hlog Hfresh Hm. unfold run. cbv zeta.
  rewrite (bind_Ret _ _ _ _ _ (time_time_eq latency s)).
  destruct (requests_zero_speed fuel (elapse latency s) first rest Hlog Hfresh Hm)
    as (s' & E & Ht & Hts & _).
  exists s'. split; [|split; assumption].
  rewrite run_loop_step, bind_assoc. rewrite (bind_Raise _ _ _ _ _ E). reflexivity.
Qed.

End Edges.

(** ** The order of the replay *)

Lemma succ_mod_lt (i n : nat) :
  (S (i mod n) < n)%nat ->
  (S i mod n = S (i mod n) /\ S i / n = i / n)%nat.
Proof.
  intros H. pose proof (Nat.div_mod_eq i n) as E. split; symmetry.
  - apply (Nat.mod_unique _ _ (i / n)); [exact H|lia].
  - apply (Nat.div_unique _ _ _ (S (i mod n))); [exact H|lia].
Qed.

Lemma succ_mod_wrap (i n : nat) :
  S (i mod n)%nat = n ->
  (S i mod n = 0 /\ S i / n = S (i / n))%nat.
Proof.
  intros H. pose proof (Nat.div_mod_eq i n) as E. split; symmetry.
  - apply (Nat.mod_unique _ _ (S (i / n))); lia.
  - apply (Nat.div_unique _ _ _ 0%nat); lia.
Qed.

Section Order.
Variable latency : nat -> Q.
Variable network : nat -> fate.

Lemma requests_same_replay (fuel : nat) (f : requests_frame) :
  keeps same_replay (_requests latency fuel f).
Proof.
  apply keeps_requests; unfold same_replay.
  - intros s. repeat split.
  - intros s1 s2 s3 (H1 & H2 & H3 & H4 & H5 & H6) (H1' & H2' & H3' & H4' & H5' & H6').
    repeat split; congruence.
  - intros g s Hg. destruct (Hg (self s)) as (H1 & _ & H2 & H3 & H4).
    cbn [self on_self tasks trace]. repeat split; assumption.
  - intros s. repeat split.
Qed.

Lemma cycle_start_same_replay (last : option Request) :
  keeps same_replay (cycle_start latency last).
Proof.
  apply keeps_cycle_start; unfold same_replay.
  - intros s. repeat split.
  - intros s1 s2 s3 (H1 & H2 & H3 & H4 & H5 & H6) (H1' & H2' & H3' & H4' & H5' & H6').
    repeat split; congruence.
  - intros g s Hg. destruct (Hg (self s)) as (H1 & _ & H2 & H3 & H4).
    cbn [self on_self tasks trace]. repeat split; assumption.
  - intros s. repeat split.
Qed.

Lemma yield_request_ret (r : Request) (l : list Request) (s s' : Store)
    (y : request_dict) (f' : requests_frame) :
  yield_request latency r l s = (Ret (y, f'), s') ->
  url y = request_url (self s) r /\ body y = json_body r /\
  f' = {| request_generator := l; request := Some r |}.
Proof.
  unfold yield_request. intros H. mstep_in H.
  destruct (_get_sleep_time latency (timestamp r) s) as [[q|e|] s1] eqn:E.
  - rewrite (bind_Ret _ _ _ _ _ E) in H. injection H as <- <- _. repeat split.
  - rewrite (bind_Raise _ _ _ _ _ E) in H. discriminate.
  - rewrite (bind_OutOfFuel _ _ _ _ E) in H. discriminate.
Qed.

(** A generator over an empty log never yields. *)
Lemma requests_empty_never_yields (fuel : nat) :
  forall (f : requests_frame) (s s' : Store) y,
  request_generator_factory (self s) tt = [] ->
  request_generator f = [] ->
  _requests latency fuel f s <> (Ret y, s').
Proof.
  induction fuel as [|fuel IH]; intros f s s' y Hlog Hgen H;
    cbn [_requests] in H; rewrite Hgen in H; [discriminate|].
  mstep_in H. rewrite Hlog in H.
  destruct (cycle_start latency (request f) s) as [[[]|e|] s1] eqn:E.
  - rewrite (bind_Ret _ _ _ _ _ E) in H.
    destruct (cycle_start_same_replay _ _ _ _ E) as (Hf & _).
    apply IH in H; [exact H| |reflexivity]. rewrite Hf. exact Hlog.
  - rewrite (bind_Raise _ _ _ _ _ E) in H. discriminate.
  - rewrite (bind_OutOfFuel _ _ _ _ E) in H. discriminate.
Qed.

Lemma frame_at_first (r : Request) (rest : list Request) :
  frame_at (r :: rest) 0 {| request_generator := rest; request := Some r |}.
Proof.
  unfold frame_at. rewrite Nat.Div0.mod_0_l. split; reflexivity.
Qed.

(** The generator yields the requests of the log in order, pass after
    pass, whatever the timeline is. *)
Lemma next_in_order (fuel : nat) (log : list Request) (i : nat)
    (f f' : requests_frame) (s s' : Store) (y : request_dict) :
  request_generator_factory (self s) tt = log ->
  next_at log i f ->
  _requests latency fuel f s = (Ret (y, f'), s') ->
  exists r, log !! (i mod length log)%nat = Some r /\
    url y = request_url (self s) r /\ body y = json_body r /\
    frame_at log i f'.
Proof.
  intros Hlog Hat H.
  assert (Hwrap : request_generator f = [] ->
            exists r rest, log = r :: rest /\ url y = request_url (self s) r /\
                           body y = json_body r /\
                           f' = {| request_generator := rest; request := Some r |}).
  { intros Hgen. destruct fuel as [|fuel]; cbn [_requests] in H; rewrite Hgen in H;
      [discriminate|].
    mstep_in H. rewrite Hlog in H.
    destruct (cycle_start latency (request f) s) as [[[]|e|] s1] eqn:E.
    2: rewrite (bind_Raise _ _ _ _ _ E) in H; discriminate.
    2: rewrite (bind_OutOfFuel _ _ _ _ E) in H; discriminate.
    rewrite (bind_Ret _ _ _ _ _ E) in H.
    destruct (cycle_start_same_replay _ _ _ _ E) as (Hf & Hh & Hp & _).
    destruct log as [|r rest].
    - exfalso. revert H. apply requests_empty_never_yields; [|reflexivity].
      rewrite Hf. exact Hlog.
    - assert (E' : _requests latency fuel {| request_generator := r :: rest;
                                              request := request f |} s1
                   = yield_request latency r rest s1) by (destruct fuel; reflexivity).
      rewrite E' in H. apply yield_request_ret in H. destruct H as (Hu & Hb & ->).
      exists r, rest. repeat split; try assumption.
      rewrite Hu. unfold request_url. rewrite Hh, Hp. reflexivity. }
  destruct i as [|i]; cbn [next_at] in Hat.
  - subst f. destruct (Hwrap eq_refl) as (r & rest & -> & Hu & Hb & ->).
    exists r. rewrite Nat.Div0.mod_0_l.
    split; [reflexivity|]. split; [exact Hu|]. split; [exact Hb|].
    apply frame_at_first.
  - destruct Hat as [Hgen Hreq].
    destruct (request_generator f) as [|r l] eqn:Eg.
    + destruct (Hwrap eq_refl) as (r & rest & -> & Hu & Hb & ->).
      symmetry in Hgen. apply drop_nil_inv in Hgen.
      assert (Hn : S (i mod length (r :: rest))%nat = length (r :: rest)).
      { pose proof (Nat.mod_upper_bound i (length (r :: rest))) as Hlt.
        cbn [length] in *. lia. }
      destruct (succ_mod_wrap _ _ Hn) as [Hm _].
      exists r. rewrite Hm.
      split; [reflexivity|]. split; [exact Hu|]. split; [exact Hb|].
      unfold frame_at. rewrite Hm. split; reflexivity.
    + assert (E' : _requests latency fuel f s = yield_request latency r l s).
      { destruct fuel; cbn [_requests]; rewrite Eg; reflexivity. }
      rewrite E' in H. apply yield_request_ret in H. destruct H as (Hu & Hb & ->).
      assert (Hr : log !! S (i mod length log)%nat = Some r).
      { pose proof (lookup_drop log (S (i mod length log)%nat) 0%nat) as Hd.
        rewrite <- Hgen in Hd. cbn in Hd. rewrite Nat.add_0_r in Hd. auto. }
      assert (Hlt : (S (i mod length log) < length log)%nat)
        by (eapply lookup_lt_Some, Hr).
      destruct (succ_mod_lt _ _ Hlt) as [Hm _].
      exists r. rewrite Hm.
      split; [exact Hr|]. split; [exact Hu|]. split; [exact Hb|].
      unfold frame_at. rewrite Hm. cbn [request_generator request]. split; [|auto].
      rewrite (drop_S _ _ _ Hr) in Hgen. injection Hgen as ->. reflexivity.
Qed.

Lemma static_mark_done (i : nat) (ts : list Task) :
  static <$> mark_done i ts = static <$> ts.
Proof.
  unfold mark_done. destruct (ts !! i) as [t|] eqn:E; [|reflexivity].
  rewrite list_fmap_insert. apply list_insert_id.
  rewrite list_lookup_fmap, E. reflexivity.
Qed.

Lemma static_finish_task (sts : list (string * JSON * fate)) (i : nat) :
  preserves (fun s => static <$> tasks s = sts) (finish_task i).
Proof. intros s H. rewrite finish_task_tasks, static_mark_done. exact H. Qed.

Lemma in_log_order_static (log : list Request) (l : LoadTester) (ts ts' : list Task) :
  static <$> ts' = static <$> ts ->
  in_log_order network log l ts -> in_log_order network log l ts'.
Proof.
  intros E H i t' Hi.
  assert (Hs : (static <$> ts) !! i = Some (static t'))
    by (rewrite <- E, list_lookup_fmap, Hi; reflexivity).
  rewrite list_lookup_fmap in Hs. destruct (ts !! i) as [t|] eqn:Et; [|discriminate].
  cbn in Hs. unfold static in Hs. injection Hs as Hu' Hb' Hf'.
  destruct (H i t Et) as (r & Hr & Hu & Hb & Hf).
  exists r. repeat split; congruence.
Qed.

Lemma in_log_order_snoc (log : list Request) (l : LoadTester) (ts : list Task)
    (t : Task) (r : Request) :
  in_log_order network log l ts ->
  log !! (length ts mod length log)%nat = Some r ->
  task_url t = request_url l r -> task_body t = json_body r ->
  task_fate t = network (length ts) ->
  in_log_order network log l (ts ++ [t]).
Proof.
  intros H Hr Hu Hb Hf i t' Hi.
  destruct (decide (i < length ts)%nat) as [Hlt|Hge].
  - rewrite lookup_app_l in Hi by exact Hlt. exact (H i t' Hi).
  - rewrite lookup_app_r in Hi by lia.
    destruct (i - length ts)%nat as [|k] eqn:Ek; [|destruct k; discriminate].
    injection Hi as <-. assert (i = length ts) as -> by lia.
    exists r. repeat split; assumption.
Qed.

(** The pacing loop dispatches what the generator yields, in its order. *)
Lemma run_loop_in_order (budget start_time : Q) (log : list Request) (l0 : LoadTester)
    (fuel : nat) :
  forall (gen : requests_frame) (sent : Z) (s : Store) o s',
  request_generator_factory (self s) tt = log ->
  host (self s) = host l0 -> port (self s) = port l0 ->
  next_at log (length (tasks s)) gen ->
  in_log_order network log l0 (tasks s) ->
  run_loop latency network fuel budget start_time gen sent s = (o, s') ->
  in_log_order network log l0 (tasks s').
Proof.
  induction fuel as [|fuel IH]; intros gen sent s o s' Hlog Hh Hp Hat Hord H.
  - injection H as _ <-. exact Hord.
  - rewrite run_loop_step in H.
    destruct (_requests latency (S fuel) gen s) as [[[y gen']|e|] s1] eqn:Ey;
      destruct (requests_same_replay _ _ _ _ _ Ey) as (Hf1 & Hh1 & Hp1 & _ & Hts1 & _).
    2: rewrite (bind_Raise _ _ _ _ _ Ey) in H; injection H as _ <-; rewrite Hts1; exact Hord.
    2: rewrite (bind_OutOfFuel _ _ _ _ Ey) in H; injection H as _ <-; rewrite Hts1; exact Hord.
    destruct (next_in_order (S fuel) log _ _ _ _ _ _ Hlog Hat Ey) as (r & Hr & Hu & Hb & Hfr).
    rewrite (bind_Ret _ _ _ _ _ Ey) in H. cbn [fst snd] in H.
    repeat mstep_in H. cbn [clock elapse ticks] in H.
    destruct (Qle_bool budget _).
    + injection H as _ <-. cbn [tasks]. rewrite Hts1. exact Hord.
    + unfold asyncio_sleep in H. repeat mstep_in H.
      match type of H with
      | context [bind complete_early _ ?sa] =>
          destruct (complete_early_settles sa) as (s2 & E2 & _ & _ & [a Ha] & _);
          pose proof (preserves_complete_early _
                        (static_finish_task (static <$> tasks sa)) sa eq_refl) as Hst;
          rewrite E2 in Hst; cbn [snd] in Hst;
          rewrite (bind_Ret _ _ _ _ _ E2) in H
      end.
      cbn [tasks self advance elapse] in Hst, Ha. rewrite Hts1 in Hst.
      assert (Hlen : length (tasks s2) = length (tasks s)).
      { rewrite <- (length_fmap static (tasks s2)), Hst. apply length_fmap. }
      unfold ensure_future in H. repeat mstep_in H.
      apply IH in H; [exact H|..]; cbn [self tasks set_tasks].
      * rewrite Ha. cbn. rewrite Hf1. exact Hlog.
      * rewrite Ha. cbn. congruence.
      * rewrite Ha. cbn. congruence.
      * rewrite length_app, Hlen. cbn [length]. rewrite Nat.add_1_r. exact Hfr.
      * apply (in_log_order_snoc log l0 (tasks s2) _ r).
        -- exact (in_log_order_static _ _ _ _ Hst Hord).
        -- rewrite Hlen. exact Hr.
        -- cbn [task_url]. rewrite Hu. unfold request_url. rewrite Hh, Hp. reflexivity.
        -- exact Hb.
        -- reflexivity.
Qed.

(** X11: requests are replayed in the order of the log, cycling: whatever
    the clock, the timeline and the network do and however the run ends,
    the [i]-th request dispatched by [run] goes to the URL built from the
    host, the port and the path of log entry [i mod n] ([n] the number of
    entries), with that entry's body, and meets the [i]-th fate of the
    network. *)
Theorem dispatched_in_log_order (fuel : nat) (minutes : Q) (s : Store) :
  tasks s = [] ->
  let log := request_generator_factory (self s) tt in
  let s' := snd (run latency network fuel minutes s) in
  forall i t, tasks s' !! i = Some t ->
    exists r, log !! (i mod length log)%nat = Some r /\
      task_url t = ("http://" ++ host (self s) ++ ":" ++ port (self s) ++ "/"
                      ++ url_path r)%string /\
      task_body t = json_body r /\
      task_fate t = network i.
Proof.
  intros Hts log s'.
  change (in_log_order network log (self s) (tasks s')).
  assert (Hloop : forall o s1,
    run_loop latency network fuel (minutes * 60) (clock (elapse latency s))
             requests_start 0 (elapse latency s) = (o, s1) ->
    in_log_order network log (self s) (tasks s1)).
  { intros o s1. apply run_loop_in_order; cbn [self tasks elapse]; try reflexivity.
    - rewrite Hts. reflexivity.
    - rewrite Hts. intros i t Hi. discriminate. }
  subst s'. unfold run. cbv zeta.
  rewrite (bind_Ret _ _ _ _ _ (time_time_eq latency s)).
  destruct (run_loop latency network fuel (minutes * 60) (clock (elapse latency s))
              requests_start 0 (elapse latency s)) as [[r|e|] s1] eqn:Eloop;
    specialize (Hloop _ _ eq_refl).
  2: rewrite (bind_Raise _ _ _ _ _ Eloop); exact Hloop.
  2: rewrite (bind_OutOfFuel _ _ _ _ Eloop); exact Hloop.
  rewrite (bind_Ret _ _ _ _ _ Eloop). mstep.
  pose proof (preserves_drain _ (static_finish_task (static <$> tasks s1))
                (pending_tasks s1) s1 eq_refl) as Hst.
  destruct (drain (pending_tasks s1) s1) as [[[]|e|] s2] eqn:Edrain; cbn [snd] in Hst.
  2: rewrite (bind_Raise _ _ _ _ _ Edrain);
     exact (in_log_order_static _ _ _ _ Hst Hloop).
  2: rewrite (bind_OutOfFuel _ _ _ _ Edrain);
     exact (in_log_order_static _ _ _ _ Hst Hloop).
  rewrite (bind_Ret _ _ _ _ _ Edrain).
  unfold bind, py_div. destruct (Qeq_bool (snd (fst r)) 0); cbn [snd ret raise];
    exact (in_log_order_static _ _ _ _ Hst Hloop).
Qed.




End Order.

(** ** The timeline over all passes *)

Section Linear.
Variable latency : nat -> Q.
Variable network : nat -> fate.
Variable first : Request.
Variable rest : list Request.

Lemma log_last_lookup :
  (first :: rest) !! length rest = Some (log_last first rest).
Proof.
  unfold log_last. revert first. induction rest as [|x l IH]; intros a; [reflexivity|].
  cbn [length]. rewrite lookup_cons. rewrite (IH x). f_equal.
  symmetry. apply last_cons.
Qed.

(** A later pass of [while True]: the origin moves back, the clock is not
    read. *)
Lemma cycle_start_again (s : Store) (last : Request) (replay_start : datetime) :
  real_initial_time (self s) = Some replay_start ->
  let d := if log_delta_time (self s) =? timedelta_zero
           then datetime_diff (timestamp last) (log_initial_time (self s))
           else log_delta_time (self s) in
  datetime_min <= log_initial_time (self s) - d <= datetime_max ->
  exists s', cycle_start latency (Some last) s = (Ret tt, s') /\
    log_initial_time (self s') = log_initial_time (self s) - d /\
    log_delta_time (self s') = d /\
    real_initial_time (self s') = Some replay_start /\
    clock s' = clock s /\ ticks s' = ticks s /\ same_replay s s'.
Proof.
  intros Hrs d Hrange. unfold cycle_start. repeat mstep. rewrite Hrs.
  subst d. destruct (log_delta_time (self s) =? timedelta_zero) eqn:E.
  - repeat mstep. cbn [self on_self log_initial_time log_delta_time set_log_delta_time].
    rewrite (bind_Ret _ _ _ _ _ (datetime_sub_in_range _ _ _ Hrange)).
    eexists. split; [reflexivity|]. cbn. unfold same_replay. repeat split; assumption.
  - repeat mstep.
    rewrite (bind_Ret _ _ _ _ _ (datetime_sub_in_range _ _ _ Hrange)).
    eexists. split; [reflexivity|]. cbn. unfold same_replay. repeat split; assumption.
Qed.

Lemma linear_sleep_of (m : Q) (replay_start origin : datetime) (i : nat) (c : Q)
    (r : Request) (u : string) :
  ~ (m == 0)%Q ->
  (first :: rest) !! (i mod length (first :: rest))%nat = Some r ->
  origin = timestamp first
           - Z.of_nat (i / length (first :: rest)) * log_duration first rest ->
  linear_sleep first rest m replay_start i c
    {| url := u; body := json_body r;
       sleep_time := ((total_seconds (datetime_diff (timestamp r) origin)
                       - total_seconds (datetime_diff (datetime_of_clock c) replay_start) * m)
                      / m)%Q |}.
Proof.
  intros Hm Hr ->. exists r. split; [exact Hr|]. split; [reflexivity|].
  cbn [sleep_time]. unfold datetime_diff.
  replace (timestamp r + Z.of_nat (i / length (first :: rest)) * log_duration first rest
           - timestamp first)
    with (timestamp r - (timestamp first - Z.of_nat (i / length (first :: rest))
                                           * log_duration first rest)) by lia.
  field. exact Hm.
Qed.

(** One [next()] of a linear replay: the next request of the log, with
    its linear sleep time, and the replay is linear still. *)
Lemma next_request (fuel i : nat) (s : Store) (f : requests_frame)
    (replay_start : datetime) :
  replay_at first rest i replay_start (self s) f ->
  ~ (speed_multiplier (self s) == 0)%Q ->
  wraps_in_range first rest (S (S i / length (first :: rest))) ->
  exists y f' s',
    _requests latency (S fuel) f s = (Ret (y, f'), s') /\
    replay_at first rest (S i) replay_start (self s') f' /\
    linear_sleep first rest (speed_multiplier (self s)) replay_start (S i)
                 (clock (elapse latency s)) y /\
    clock s' = clock (elapse latency s) /\ ticks s' = S (ticks s) /\
    same_replay s s'.
Proof.
  intros (Hfr & Hlog & Ho & Hrs & Hd) Hm Hrange. cbv zeta in *.
  set (n := length (first :: rest)) in *.
  assert (Hn : n <> 0%nat) by discriminate.
  destruct Hfr as [Hgen Hreq]. fold n in Hgen, Hreq.
  destruct (request_generator f) as [|r l] eqn:Eg.
  - (* the pass is over *)
    symmetry in Hgen. apply drop_nil_inv in Hgen. fold n in Hgen.
    pose proof (Nat.mod_upper_bound i n Hn) as Hlt.
    assert (Hp : S (i mod n)%nat = n) by lia.
    destruct (succ_mod_wrap i n Hp) as [Hm0 Hq].
    assert (Hlast : request f = Some (log_last first rest)).
    { assert (Hi : (i mod n)%nat = length rest)
        by (unfold n in Hp |- *; cbn [length] in Hp |- *; lia).
      rewrite Hreq, Hi. apply log_last_lookup. }
    assert (Hd' : (if log_delta_time (self s) =? timedelta_zero
                   then datetime_diff (timestamp (log_last first rest))
                                      (log_initial_time (self s))
                   else log_delta_time (self s)) = log_duration first rest).
    { rewrite Hd, Ho. unfold timedelta_zero, datetime_diff.
      destruct (i / n)%nat as [|q].
      - cbn. unfold log_duration, datetime_diff. lia.
      - destruct (log_duration first rest =? 0) eqn:E0; [|reflexivity].
        apply Z.eqb_eq in E0. rewrite E0.
        unfold log_duration, datetime_diff in E0. lia. }
    assert (Ho' : log_initial_time (self s) - log_duration first rest
                  = timestamp first - Z.of_nat (S i / n) * log_duration first rest).
    { rewrite Ho, Hq, Nat2Z.inj_succ. lia. }
    destruct (cycle_start_again s (log_last first rest) replay_start Hrs)
      as (s1 & E1 & Ho1 & Hd1 & Hrs1 & Hc1 & Ht1 & Hsame).
    { rewrite Hd', Ho'. specialize (Hrange (S i / n)%nat ltac:(lia)). lia. }
    rewrite Hd' in Ho1, Hd1. rewrite Ho' in Ho1.
    destruct Hsame as (Hf1 & Hh1 & Hp1 & Hm1 & Hts1 & Htr1).
    assert (Hne1 : log_initial_time (self s1) <> datetime_min).
    { rewrite Ho1. specialize (Hrange (S i / n)%nat ltac:(lia)).
      unfold datetime_min in *. lia. }
    assert (Hm1' : ~ (speed_multiplier (self s1) == 0)%Q) by (rewrite Hm1; exact Hm).
    cbn [_requests]. rewrite Eg. mstep. rewrite Hlast, (bind_Ret _ _ _ _ _ E1), Hlog.
    assert (E' : _requests latency fuel {| request_generator := first :: rest;
                                            request := Some (log_last first rest) |} s1
                 = yield_request latency first rest s1) by (destruct fuel; reflexivity).
    rewrite E'. unfold yield_request. mstep.
    rewrite (bind_Ret _ _ _ _ _
               (_get_sleep_time_set latency s1 (timestamp first) replay_start Hne1 Hrs1 Hm1')).
    eexists _, _, _. split; [reflexivity|]. cbn [self elapse clock ticks].
    split; [|split; [|split; [|split]]].
    + unfold replay_at. cbv zeta. fold n. rewrite Hq.
      split; [|split; [rewrite Hf1; exact Hlog|split; [rewrite Ho1, Hq; reflexivity|
              split; [exact Hrs1|exact Hd1]]]].
      unfold frame_at. fold n. rewrite Hm0. split; reflexivity.
    + rewrite Hm1, Hc1, Ht1.
      apply linear_sleep_of; [exact Hm| |exact Ho1]. fold n. rewrite Hm0. reflexivity.
    + rewrite Hc1, Ht1. reflexivity.
    + rewrite Ht1. reflexivity.
    + unfold same_replay. cbn [self elapse tasks trace]. repeat split; assumption.
  - (* in the middle of a pass *)
    assert (Hr : (first :: rest) !! S (i mod n)%nat = Some r).
    { pose proof (lookup_drop (first :: rest) (S (i mod n)%nat) 0%nat) as Hdr.
      fold n in Hgen. rewrite <- Hgen in Hdr. rewrite Nat.add_0_r in Hdr.
      symmetry. exact Hdr. }
    assert (Hlt : (S (i mod n) < n)%nat) by (eapply lookup_lt_Some, Hr).
    destruct (succ_mod_lt i n Hlt) as [Hm0 Hq].
    assert (Hne : log_initial_time (self s) <> datetime_min).
    { rewrite Ho. specialize (Hrange (i / n)%nat ltac:(lia)).
      unfold datetime_min in *. lia. }
    cbn [_requests]. rewrite Eg. unfold yield_request. mstep.
    rewrite (bind_Ret _ _ _ _ _
               (_get_sleep_time_set latency s (timestamp r) replay_start Hne Hrs Hm)).
    eexists _, _, _. split; [reflexivity|]. cbn [self elapse clock ticks].
    split; [|split; [|split; [|split]]].
    + unfold replay_at. cbv zeta. fold n. rewrite Hq.
      split; [|split; [exact Hlog|split; [exact Ho|split; [exact Hrs|exact Hd]]]].
      unfold frame_at. fold n. rewrite Hm0. cbn [request_generator request].
      split; [|symmetry; exact Hr].
      fold n in Hgen. rewrite (drop_S _ _ _ Hr) in Hgen. injection Hgen as ->. reflexivity.
    + apply linear_sleep_of; [exact Hm|fold n; rewrite Hm0; exact Hr|].
      fold n. rewrite Hq. exact Ho.
    + reflexivity.
    + reflexivity.
    + unfold same_replay. cbn [self elapse tasks trace]. repeat split.
Qed.

(** The first [next()] of a replay. *)
Lemma first_request (fuel : nat) (s : Store) :
  request_generator_factory (self s) tt = first :: rest ->
  fresh_timeline (self s) ->
  ~ (speed_multiplier (self s) == 0)%Q ->
  let replay_start := datetime_of_clock (clock (elapse latency s)) in
  let now := datetime_of_clock (clock (elapse latency (elapse latency s))) in
  exists y s',
    _requests latency (S fuel) requests_start s
    = (Ret (y, {| request_generator := rest; request := Some first |}), s') /\
    url y = request_url (self s) first /\ body y = json_body first /\
    sleep_time y
    = ((total_seconds (datetime_diff (timestamp first) (timestamp first))
        - total_seconds (datetime_diff now replay_start) * speed_multiplier (self s))
       / speed_multiplier (self s))%Q /\
    replay_at first rest 0 replay_start (self s')
              {| request_generator := rest; request := Some first |} /\
    clock s' = clock (elapse latency (elapse latency s)) /\
    ticks s' = S (S (ticks s)) /\
    same_replay s s'.
Proof.
  intros Hlog Hfresh Hm. cbv zeta.
  cbn [_requests requests_start request_generator request]. mstep. rewrite Hlog.
  rewrite (bind_Ret _ _ _ _ _ (cycle_start_fresh latency None s Hfresh)).
  set (s1 := on_self _ _).
  assert (E : _requests latency fuel {| request_generator := first :: rest; request := None |} s1
              = yield_request latency first rest s1) by (destruct fuel; reflexivity).
  rewrite E. unfold yield_request. repeat mstep. unfold _get_sleep_time. repeat mstep.
  rewrite (bind_Ret _ _ _ _ _ (py_div_nonzero _ _ _ Hm)). repeat mstep.
  eexists _, _. split; [reflexivity|]. cbn.
  split; [reflexivity|]. split; [reflexivity|]. split; [reflexivity|].
  split; [|repeat split].
  unfold replay_at. cbv zeta. rewrite Nat.Div0.div_0_l. cbn.
  split; [apply frame_at_first|]. split; [exact Hlog|]. split; [lia|].
  split; [reflexivity|]. destruct Hfresh as (_ & _ & Hd). exact Hd.
Qed.

Lemma datetime_of_clock_le (c1 c2 : Q) :
  (c1 <= c2)%Q -> datetime_of_clock c1 <= datetime_of_clock c2.
Proof.
  intros H. unfold datetime_of_clock. apply Z.add_le_mono_l, Qfloor_resp_le.
  apply Qmult_le_compat_r; [exact H|discriminate].
Qed.

(** X9: the first request of a replay is never delayed: its sleep time is
    minus the time that passed between the two clock readings the generator
    made so far (the replay start and now), so it is zero or negative, the
    log's first timestamp and the speed multiplier playing no part. *)
Theorem first_request_not_delayed (fuel : nat) (s : Store) :
  request_generator_factory (self s) tt = first :: rest ->
  fresh_timeline (self s) ->
  ~ (speed_multiplier (self s) == 0)%Q ->
  (0 <= latency (S (ticks s)))%Q ->
  exists y f s',
    _requests latency (S fuel) requests_start s = (Ret (y, f), s') /\
    body y = json_body first /\
    (sleep_time y ==
       - total_seconds
           (datetime_diff (datetime_of_clock (clock (elapse latency (elapse latency s))))
                          (datetime_of_clock (clock (elapse latency s)))))%Q /\
    (sleep_time y <= 0)%Q.
Proof.
  intros Hlog Hfresh Hm Hlat.
  destruct (first_request fuel s Hlog Hfresh Hm) as (y & s' & E & _ & Hb & Hs & _).
  exists y, {| request_generator := rest; request := Some first |}, s'.
  split; [exact E|]. split; [exact Hb|].
  assert (Heq : (sleep_time y ==
       - total_seconds
           (datetime_diff (datetime_of_clock (clock (elapse latency (elapse latency s))))
                          (datetime_of_clock (clock (elapse latency s)))))%Q).
  { rewrite Hs. unfold datetime_diff at 1. rewrite Z.sub_diag.
    change (total_seconds 0) with (0 # 1000000). field. exact Hm. }
  split; [exact Heq|]. rewrite Heq.
  assert (Hle : datetime_of_clock (clock (elapse latency s))
                <= datetime_of_clock (clock (elapse latency (elapse latency s)))).
  { apply datetime_of_clock_le. cbn [clock elapse ticks]. lra. }
  unfold datetime_diff, total_seconds.
  set (d := datetime_of_clock _ - datetime_of_clock _) in *.
  assert (0 <= d) by lia. unfold Qle, Qopp. cbn. lia.
Qed.

Lemma clock_after_elapse (j : nat) :
  forall s, clock_after latency (S j) (clock s) (ticks s)
            = clock_after latency j (clock (elapse latency s)) (ticks (elapse latency s)).
Proof. reflexivity. Qed.

(** What a linear replay yields from where it stands. *)
Lemma pulls_linear (fuel : nat) (replay_start : datetime) (n : nat) :
  forall (i : nat) (f : requests_frame) (s : Store),
  replay_at first rest i replay_start (self s) f ->
  ~ (speed_multiplier (self s) == 0)%Q ->
  wraps_in_range first rest (S ((i + n) / length (first :: rest))) ->
  exists ys f' s',
    pulls latency (S fuel) n f s = (Ret (ys, f'), s') /\
    length ys = n /\
    forall j y, ys !! j = Some y ->
      linear_sleep first rest (speed_multiplier (self s)) replay_start (i + 1 + j)
                   (clock_after latency (S j) (clock s) (ticks s)) y.
Proof.
  induction n as [|n IH]; intros i f s Hat Hm Hrange.
  - exists [], f, s. split; [reflexivity|]. split; [reflexivity|].
    intros j y Hj. discriminate.
  - destruct (next_request fuel i s f replay_start Hat Hm)
      as (y & f1 & s1 & E1 & Hat1 & Hlin & Hc1 & Ht1 & Hsame).
    { eapply wraps_in_range_le; [|exact Hrange].
      apply le_n_S, Nat.Div0.div_le_mono. lia. }
    destruct Hsame as (_ & _ & _ & Hm1 & _).
    destruct (IH (S i) f1 s1 Hat1) as (ys & f' & s' & E & Hlen & Hys).
    { rewrite Hm1. exact Hm. }
    { replace (S i + n)%nat with (i + S n)%nat by lia. exact Hrange. }
    exists (y :: ys), f', s'. split; [|split].
    + cbn [pulls]. rewrite (bind_Ret _ _ _ _ _ E1). cbn [fst snd].
      rewrite (bind_Ret _ _ _ _ _ E). reflexivity.
    + cbn [length]. rewrite Hlen. reflexivity.
    + intros [|j] y' Hj.
      * injection Hj as <-. rewrite Nat.add_0_r, Nat.add_1_r. exact Hlin.
      * cbn in Hj. specialize (Hys j y' Hj). rewrite Hm1, Hc1, Ht1 in Hys.
        replace (i + 1 + S j)%nat with (S i + 1 + j)%nat by lia. exact Hys.
Qed.

(** X10: the replay is linear over every wrap of the log, not only the
    first: request number [i] that the generator yields (counting from 0
    through the passes) is log entry [i mod n] and its sleep time is the
    time left until the replay has run for [(t + k * D - t0) / m], where
    [t] is the entry's timestamp, [k = i / n] the number of passes made
    before, [D] the duration of the log (last timestamp minus first), [t0]
    the first timestamp and [m] the speed multiplier.  The origins the
    passes use must be datetimes after [datetime.min]. *)
Theorem replay_is_linear (fuel n : nat) (s : Store) :
  request_generator_factory (self s) tt = first :: rest ->
  fresh_timeline (self s) ->
  ~ (speed_multiplier (self s) == 0)%Q ->
  wraps_in_range first rest (S (n / length (first :: rest))) ->
  let replay_start := datetime_of_clock (clock_after latency 1 (clock s) (ticks s)) in
  exists ys f s',
    pulls latency (S fuel) (S n) requests_start s = (Ret (ys, f), s') /\
    length ys = S n /\
    forall i y, ys !! i = Some y ->
      linear_sleep first rest (speed_multiplier (self s)) replay_start i
                   (clock_after latency (2 + i) (clock s) (ticks s)) y.
Proof.
  intros Hlog Hfresh Hm Hrange replay_start.
  destruct (first_request fuel s Hlog Hfresh Hm)
    as (y & s1 & E1 & _ & Hb & Hs & Hat & Hc1 & Ht1 & Hsame).
  destruct Hsame as (_ & _ & _ & Hm1 & _).
  destruct (pulls_linear fuel replay_start n 0 _ s1 Hat) as (ys & f & s' & E & Hlen & Hys).
  { rewrite Hm1. exact Hm. }
  { exact Hrange. }
  exists (y :: ys), f, s'. split; [|split].
  - cbn [pulls]. rewrite (bind_Ret _ _ _ _ _ E1). cbn [fst snd].
    rewrite (bind_Ret _ _ _ _ _ E). reflexivity.
  - cbn [length]. rewrite Hlen. reflexivity.
  - intros [|i] y' Hi.
    + injection Hi as <-.
      exists first. rewrite Nat.Div0.mod_0_l, Nat.Div0.div_0_l.
      split; [reflexivity|]. split; [exact Hb|]. rewrite Hs.
      unfold datetime_diff. cbn [Z.of_nat]. rewrite Z.mul_0_l, Z.add_0_r, Z.sub_diag.
      change (total_seconds 0) with (0 # 1000000). cbn [clock_after Nat.add].
      subst replay_start. cbn [clock_after clock elapse ticks]. field. exact Hm.
    + cbn in Hi. specialize (Hys i y' Hi). rewrite Hm1, Hc1, Ht1 in Hys.
      cbn [Nat.add] in Hys. exact Hys.
Qed.

(** X12: with a budget of zero (or less) [run] still pulls one request from
    the generator, then finds the budget used up at its first check: it
    sleeps and dispatches nothing.  It returns statistics with no request
    sent if the clock moved since the start, and fails with
    [ZeroDivisionError] in the division by the elapsed time if it did not. *)
Theorem zero_budget_sends_nothing (fuel : nat) (minutes : Q) (s : Store) :
  (minutes <= 0)%Q ->
  request_generator_factory (self s) tt = first :: rest ->
  fresh_timeline (self s) ->
  ~ (speed_multiplier (self s) == 0)%Q ->
  tasks s = [] ->
  (forall n, 0 <= latency n)%Q ->
  exists request delta_secs s1,
    run_loop latency network (S fuel) (minutes * 60) (clock (elapse latency s))
             requests_start 0 (elapse latency s)
    = (Ret (request, delta_secs, 0), s1) /\
    body request = json_body first /\
    trace s1 = trace s ++ [APull (sleep_time request); ACheck delta_secs] /\
    tasks s1 = [] /\
    ((delta_secs == 0)%Q ->
     run latency network (S fuel) minutes s = (Raise ZeroDivisionError, s1)) /\
    (~ (delta_secs == 0)%Q ->
     exists stats,
       run latency network (S fuel) minutes s = (Ret stats, s1) /\
       num_sent_requests stats = 0 /\
       (average_requests_per_second stats == 0)%Q /\
       num_outstanding_requests stats = 0).
Proof.
  intros Hmin Hlog Hfresh Hm Hts Hlat.
  destruct (first_request fuel (elapse latency s) Hlog Hfresh Hm)
    as (y & s' & E & _ & Hb & _ & _ & Hc & _ & Hsame).
  destruct Hsame as (_ & _ & _ & _ & Hts' & Htr').
  cbn [tasks trace elapse] in Hts', Htr'.
  assert (Hloop : exists delta s1,
    run_loop latency network (S fuel) (minutes * 60) (clock (elapse latency s))
             requests_start 0 (elapse latency s)
    = (Ret (y, delta, 0), s1) /\
    trace s1 = trace s ++ [APull (sleep_time y); ACheck delta] /\ tasks s1 = []).
  { rewrite run_loop_step, (bind_Ret _ _ _ _ _ E). cbn [fst snd]. repeat mstep.
    match goal with |- context [Qle_bool _ ?d] => set (delta := d) end.
    assert (Hdelta : (0 <= delta)%Q).
    { unfold delta. cbn [clock elapse ticks]. rewrite Hc. cbn [clock elapse ticks].
      pose proof (Hlat (S (ticks s))). pose proof (Hlat (S (S (ticks s)))).
      pose proof (Hlat (ticks s')). lra. }
    assert (Hbreak : Qle_bool (minutes * 60) delta = true)
      by (apply Qle_bool_iff; lra).
    rewrite Hbreak.
    eexists _, _. split; [reflexivity|]. cbn [trace tasks].
    rewrite Htr', Hts', Hts. cbn [trace tasks elapse].
    rewrite <- app_assoc. split; reflexivity. }
  destruct Hloop as (delta & s1 & Hloop & Htr1 & Hts1).
  exists y, delta, s1. split; [exact Hloop|]. split; [exact Hb|].
  split; [exact Htr1|]. split; [exact Hts1|].
  pose proof (run_after_loop latency network _ _ _ _ _ _ _ Hloop) as Hrun.
  assert (Hp : pending_tasks s1 = []) by (unfold pending_tasks; rewrite Hts1; reflexivity).
  rewrite Hp in Hrun. cbn [drain length] in Hrun. rewrite Hrun.
  split.
  - intros H0. apply Qeq_bool_iff in H0. unfold bind, ret, py_div. rewrite H0. reflexivity.
  - intros H0. mstep.
    rewrite (bind_Ret _ _ _ _ _ (py_div_nonzero _ _ _ H0)).
    rewrite (bind_Ret _ _ _ _ _ (py_div_nonzero _ _ _ H0)).
    eexists. split; [reflexivity|]. cbn. split; [reflexivity|].
    split; [|reflexivity]. field. exact H0.
Qed.

End Linear.

Lemma clock_after_le (latency : nat -> Q) (j : nat) :
  (forall k, 0 <= latency k)%Q ->
  forall c t, (c <= clock_after latency j c t)%Q.
Proof.
  intros Hlat. induction j as [|j IH]; intros c t; cbn [clock_after]; [lra|].
  specialize (IH (c + latency t)%Q (S t)). pose proof (Hlat t). lra.
Qed.

(** X21: a log with a single request is replayed without any pacing: its
    duration is zero, so every pass is due at the replay start and each
    request the generator yields, whichever pass it is in, has a sleep time
    of zero or less (minus the time since the replay start): the replay
    sends as fast as the loop turns. *)
Theorem single_request_log_is_not_paced (latency : nat -> Q) (first : Request)
    (fuel n : nat) (s : Store) :
  request_generator_factory (self s) tt = [first] ->
  fresh_timeline (self s) ->
  ~ (speed_multiplier (self s) == 0)%Q ->
  datetime_min < timestamp first <= datetime_max ->
  (forall k, 0 <= latency k)%Q ->
  exists ys f s',
    pulls latency (S fuel) (S n) requests_start s = (Ret (ys, f), s') /\
    length ys = S n /\
    forall y, In y ys -> body y = json_body first /\ (sleep_time y <= 0)%Q.
Proof.
  intros Hlog Hfresh Hm Hrange Hlat.
  assert (Hwrap : forall K, wraps_in_range first [] K).
  { intros K j _. unfold log_duration, log_last, datetime_diff. cbn [List.last]. lia. }
  set (replay_start := datetime_of_clock (clock (elapse latency s))).
  assert (Hsleep : forall i c y,
    (clock (elapse latency s) <= c)%Q ->
    linear_sleep first [] (speed_multiplier (self s)) replay_start i c y ->
    body y = json_body first /\ (sleep_time y <= 0)%Q).
  { intros i c y Hc (r & Hr & Hb & Hs).
    cbn [length] in Hr, Hs. rewrite Nat.mod_1_r in Hr. injection Hr as <-.
    split; [exact Hb|]. rewrite Hs.
    unfold log_duration, log_last, datetime_diff. cbn [List.last].
    replace (timestamp first + Z.of_nat (i / 1) * (timestamp first - timestamp first)
             - timestamp first) with 0 by lia.
    pose proof (datetime_of_clock_le _ _ Hc) as Hle. fold replay_start in Hle.
    unfold total_seconds.
    set (d := datetime_of_clock c - replay_start) in *.
    assert (Hd : 0 <= d) by (unfold d; lia).
    assert (H0 : (0 # 1000000 == 0)%Q) by reflexivity.
    rewrite H0. unfold Qdiv. rewrite Qmult_0_l.
    unfold Qle, Qminus, Qplus, Qopp. cbn. lia. }
  destruct (first_request latency first [] fuel s Hlog Hfresh Hm)
    as (y & s1 & E1 & _ & Hb & Hs & Hat & Hc1 & Ht1 & Hsame).
  destruct Hsame as (_ & _ & _ & Hm1 & _).
  destruct (pulls_linear latency first [] fuel replay_start n 0 _ s1 Hat)
    as (ys & f & s' & E & Hlen & Hys).
  { rewrite Hm1. exact Hm. }
  { apply Hwrap. }
  exists (y :: ys), f, s'. split; [|split].
  - cbn [pulls]. rewrite (bind_Ret _ _ _ _ _ E1). cbn [fst snd].
    rewrite (bind_Ret _ _ _ _ _ E). reflexivity.
  - cbn [length]. rewrite Hlen. reflexivity.
  - intros y' [<-|Hin].
    + split; [exact Hb|]. rewrite Hs. unfold datetime_diff at 1. rewrite Z.sub_diag.
      assert (Hle : replay_start
                    <= datetime_of_clock (clock (elapse latency (elapse latency s)))).
      { apply datetime_of_clock_le. cbn [clock elapse ticks].
        pose proof (Hlat (S (ticks s))). lra. }
      fold replay_start. unfold datetime_diff, total_seconds.
      set (d := datetime_of_clock _ - replay_start) in *.
      assert (Hd : 0 <= d) by (unfold d; lia).
      assert (Heq : (((0 # 1000000) - (d # 1000000) * speed_multiplier (self s))
                     / speed_multiplier (self s) == - (d # 1000000))%Q)
        by (field; exact Hm).
      rewrite Heq. unfold Qle, Qopp. cbn. lia.
    + apply list_elem_of_In, list_elem_of_lookup_1 in Hin. destruct Hin as [j Hj].
      specialize (Hys j y' Hj). rewrite Hm1 in Hys.
      apply (Hsleep _ _ _ ) in Hys; [exact Hys|].
      rewrite Hc1, Ht1.
      eapply Qle_trans; [|apply clock_after_le; exact Hlat].
      cbn [clock elapse ticks]. pose proof (Hlat (S (ticks s))). lra.
Qed.

(** ** The log parser *)

Lemma str_split_snoc (sep : ascii) (s : string) :
  exists pieces piece, str_split sep s = pieces ++ [piece] /\ free_of sep piece /\
    (pieces = [] -> s = piece) /\
    (pieces <> [] -> exists p, s = (p ++ String sep piece)%string).
Proof.
  induction s as [|c s (pieces & piece & E & Hfree & Hone & Hmore)].
  - exists [], EmptyString. split; [reflexivity|]. split; [exact I|].
    split; [reflexivity|contradiction].
  - cbn [str_split]. destruct (Ascii.eqb c sep) eqn:Ec.
    + apply Ascii.eqb_eq in Ec. subst c.
      exists (EmptyString :: pieces), piece. rewrite E.
      split; [reflexivity|]. split; [exact Hfree|]. split; [discriminate|]. intros _.
      destruct pieces as [|x xs].
      * exists EmptyString. rewrite (Hone eq_refl). reflexivity.
      * destruct Hmore as [p ->]; [discriminate|]. exists (String sep p). reflexivity.
    + apply Ascii.eqb_neq in Ec. rewrite E. destruct pieces as [|x xs]; cbn [app].
      * exists [], (String c piece). split; [reflexivity|].
        split; [split; assumption|]. split; [|contradiction].
        intros _. rewrite (Hone eq_refl). reflexivity.
      * exists (String c x :: xs), piece. split; [reflexivity|].
        split; [exact Hfree|]. split; [discriminate|]. intros _.
        destruct Hmore as [p ->]; [discriminate|]. exists (String c p). reflexivity.
Qed.

Lemma str_split_free (sep : ascii) (s : string) :
  free_of sep s -> str_split sep s = [s].
Proof.
  induction s as [|c s IH]; [reflexivity|]. intros [Hc Hs]. cbn [str_split].
  apply Ascii.eqb_neq in Hc. rewrite Hc, (IH Hs). reflexivity.
Qed.

Lemma str_split_after (sep : ascii) (t : string) :
  free_of sep t ->
  forall p, exists pieces,
    str_split sep (p ++ String sep t)%string = pieces ++ [t] /\ pieces <> [].
Proof.
  intros Ht. induction p as [|c p (pieces & E & Hne)]; simpl.
  - rewrite Ascii.eqb_refl, (str_split_free sep t Ht).
    exists [EmptyString]. split; [reflexivity|discriminate].
  - rewrite E. destruct (Ascii.eqb c sep).
    + exists (EmptyString :: pieces). split; [reflexivity|discriminate].
    + destruct pieces as [|x xs]; [contradiction|].
      exists (String c x :: xs). split; [reflexivity|discriminate].
Qed.

Lemma str_split_head (sep : ascii) (s : string) :
  exists piece pieces, str_split sep s = piece :: pieces /\ free_of sep piece /\
    (s = piece \/ exists q, s = (piece ++ String sep q)%string).
Proof.
  induction s as [|c s (piece & pieces & E & Hfree & Hs)].
  - exists EmptyString, []. split; [reflexivity|]. split; [exact I|]. left. reflexivity.
  - cbn [str_split]. destruct (Ascii.eqb c sep) eqn:Ec.
    + apply Ascii.eqb_eq in Ec. subst c.
      exists EmptyString, (str_split sep s). split; [reflexivity|]. split; [exact I|].
      right. exists s. reflexivity.
    + apply Ascii.eqb_neq in Ec. rewrite E.
      exists (String c piece), pieces. split; [reflexivity|].
      split; [split; assumption|].
      destruct Hs as [->|[q ->]]; [left; reflexivity|right; exists q; reflexivity].
Qed.

(** X13: which lines the parser replays, and which text it takes for their
    time.  A matched line is replayed exactly when its request type is
    [query] or ends in [.query] (the last piece of the split at the dots);
    the text handed to [dateutil] is the timestamp group up to its first
    comma, so without its milliseconds: it holds no comma, and the group is
    that text alone or that text, a comma and more. *)
Theorem parser_splits (m : match_dict) :
  (request_type_of m = "query"%string <->
   group_request_type m = "query"%string \/
   exists p, group_request_type m = (p ++ ".query")%string)
  /\ free_of "," (timestamp_text m)
  /\ (group_timestamp m = timestamp_text m \/
      exists q, group_timestamp m = (timestamp_text m ++ String "," q)%string).
Proof.
  unfold request_type_of, timestamp_text. split; [split|].
  - intros Hq.
    destruct (str_split_snoc "." (group_request_type m))
      as (pieces & piece & E & _ & Hone & Hmore).
    rewrite E, last_last in Hq. subst piece.
    destruct pieces as [|x xs]; [left; exact (Hone eq_refl)|right].
    destruct Hmore as [p Hp]; [discriminate|]. exists p. exact Hp.
  - assert (Hfree : free_of "." "query") by (repeat split; discriminate).
    intros [->|[p ->]].
    + rewrite (str_split_free "." "query" Hfree). reflexivity.
    + destruct (str_split_after "." "query" Hfree p) as (pieces & -> & _).
      apply last_last.
  - destruct (str_split_head "," (group_timestamp m))
      as (piece & pieces & -> & Hfree & Hs).
    cbn [hd]. split; assumption.
Qed.

(** ** The body of a replayed request *)

Lemma assoc_dict_set (d : list (string * JSON)) (k k' : string) (v : JSON) :
  assoc k (dict_set d k' v) = if String.eqb k k' then Some v else assoc k d.
Proof.
  induction d as [|[k0 v0] d IH]; cbn [dict_set assoc].
  - destruct (String.eqb k k'); reflexivity.
  - destruct (String.eqb k' k0) eqn:E0; cbn [assoc].
    + apply String.eqb_eq in E0. subst k0. destruct (String.eqb k k'); reflexivity.
    + rewrite IH. destruct (String.eqb k k0) eqn:E1; [|reflexivity].
      apply String.eqb_eq in E1. subst k0.
      destruct (String.eqb k k') eqn:E2; [|reflexivity].
      apply String.eqb_eq in E2. subst k'. rewrite String.eqb_refl in E0. discriminate.
Qed.

Lemma keys_dict_set (d : list (string * JSON)) (k : string) (v : JSON) :
  exists new, map fst (dict_set d k v) = map fst d ++ new.
Proof.
  induction d as [|[k0 v0] d [new IH]]; cbn [dict_set].
  - exists [k]. reflexivity.
  - destruct (String.eqb k k0).
    + exists []. rewrite app_nil_r. reflexivity.
    + exists new. cbn [map fst app]. rewrite IH. reflexivity.
Qed.

Lemma dict_update_lookup (other : list (string * JSON)) :
  forall d k,
    assoc k (dict_update d other)
    = match last_set k other with
      | Some v => Some v
      | None => assoc k d
      end.
Proof.
  induction other as [|[k' v] other IH]; intros d k; [reflexivity|].
  unfold dict_update in *. cbn [fold_left fst snd last_set].
  rewrite IH, assoc_dict_set.
  destruct (last_set k other); [reflexivity|]. destruct (String.eqb k k'); reflexivity.
Qed.

Lemma dict_update_keys (other : list (string * JSON)) :
  forall d, exists new, map fst (dict_update d other) = map fst d ++ new.
Proof.
  induction other as [|[k v] other IH]; intros d.
  - exists []. rewrite app_nil_r. reflexivity.
  - unfold dict_update in *. cbn [fold_left fst snd].
    destruct (IH (dict_set d k v)) as [new2 E2].
    destruct (keys_dict_set d k v) as [new1 E1].
    exists (new1 ++ new2). rewrite E2, E1, app_assoc. reflexivity.
Qed.

Section Body.
Variable json_loads : string -> exn + JSON.
Variable update_from_pairs : list (string * JSON) -> JSON -> exn + JSON.

(** X14: the body of a replayed request when the line has both a source
    and an extra source and both are JSON objects: the source's object
    updated with the extra source's.  A key of the extra source has the
    extra source's value (the last, should it occur more than once), a key
    of the source alone keeps its value, no other key is there, and the keys
    of the source keep their places, new ones coming after them. *)
Theorem get_body_merges (m : match_dict) (d other : list (string * JSON)) :
  group_source m <> EmptyString ->
  group_extra_source m <> EmptyString ->
  json_loads (group_source m) = inr (JObj d) ->
  json_loads (group_extra_source m) = inr (JObj other) ->
  exists merged,
    _get_body json_loads update_from_pairs m = inr (JObj merged) /\
    (forall k, assoc k merged = match last_set k other with
                                | Some v => Some v
                                | None => assoc k d
                                end) /\
    exists new, map fst merged = map fst d ++ new.
Proof.
  intros Hs He Hd Ho. exists (dict_update d other). split; [|split].
  - unfold _get_body. apply String.eqb_neq in Hs, He. rewrite Hs, He, Hd, Ho. reflexivity.
  - apply dict_update_lookup.
  - apply dict_update_keys.
Qed.

(** X15: the edges of [_get_body].  Without source and extra source the
    body is the empty object and nothing is parsed.  Without extra source
    the body is whatever the source parses to, an object or not.  A source
    that does not parse raises, whatever the extra source is.  A source that
    parses to something other than an object, next to an extra source,
    raises [AttributeError] (it has no [update]), whether or not the extra
    source would parse.  Without source, the body is the extra source's
    object. *)
Theorem get_body_edges (m : match_dict) :
  (group_source m = EmptyString -> group_extra_source m = EmptyString ->
   _get_body json_loads update_from_pairs m = inr (JObj []))
  /\ (group_source m <> EmptyString -> group_extra_source m = EmptyString ->
      _get_body json_loads update_from_pairs m = json_loads (group_source m))
  /\ (forall e, group_source m <> EmptyString ->
      json_loads (group_source m) = inl e ->
      _get_body json_loads update_from_pairs m = inl e)
  /\ (forall v, group_source m <> EmptyString ->
      group_extra_source m <> EmptyString ->
      json_loads (group_source m) = inr v ->
      (forall d, v <> JObj d) ->
      _get_body json_loads update_from_pairs m = inl AttributeError)
  /\ (forall other, group_source m = EmptyString ->
      group_extra_source m <> EmptyString ->
      json_loads (group_extra_source m) = inr (JObj other) ->
      _get_body json_loads update_from_pairs m = inr (JObj (dict_update [] other))).
Proof.
  unfold _get_body. repeat split.
  - intros -> ->. reflexivity.
  - intros Hs ->. apply String.eqb_neq in Hs. rewrite Hs.
    destruct (json_loads (group_source m)); reflexivity.
  - intros e Hs ->. apply String.eqb_neq in Hs. rewrite Hs. reflexivity.
  - intros v Hs He -> Hv. apply String.eqb_neq in Hs, He. rewrite Hs, He.
    destruct v; try reflexivity. exfalso. exact (Hv _ eq_refl).
  - intros other -> He ->. apply String.eqb_neq in He. rewrite He. reflexivity.
Qed.

End Body.

(** ** Iterating over the log *)

Section Iteration.
Variable regex_match : string -> option match_dict.
Variable dateutil_parse : string -> exn + datetime.
Variable json_loads : string -> exn + JSON.
Variable update_from_pairs : list (string * JSON) -> JSON -> exn + JSON.

Local Notation "'parser'" :=
  (parser_iter regex_match dateutil_parse json_loads update_from_pairs) (only parsing).

(** Reading on after a part of the log that was read to its end. *)
Lemma parser_iter_app (l1 l2 : list string) :
  parser (l1 ++ l2) =
  match snd (parser l1) with
  | None => (fst (parser l1) ++ fst (parser l2), snd (parser l2))
  | Some e => parser l1
  end.
Proof.
  induction l1 as [|line l1 IH]; cbn [app parser_iter].
  - destruct (parser l2). reflexivity.
  - destruct (regex_match line) as [m|]; [|reflexivity].
    destruct (negb _); [exact IH|].
    destruct (dateutil_parse _); [reflexivity|].
    destruct (_get_body _ _ m); [reflexivity|]. cbn [fst snd]. rewrite IH.
    destruct (parser l1) as [rs [e|]]; reflexivity.
Qed.

Lemma parser_iter_length (lines : list string) :
  (length (fst (parser lines)) <= length lines)%nat.
Proof.
  induction lines as [|line lines IH]; cbn [parser_iter]; [reflexivity|].
  destruct (regex_match line) as [m|]; [|cbn; lia].
  destruct (negb _); [cbn [length]; lia|].
  destruct (dateutil_parse _); [cbn; lia|].
  destruct (_get_body _ _ m); cbn [fst length]; lia.
Qed.

(** X16: how the parser goes through the log.  A line that matches but is
    not a query is passed over unparsed: the log reads the same without it,
    whatever its timestamp and sources are.  A line that does not match
    ends the iteration with [Exception(line)]: the requests of the lines
    before it have been yielded by then, and no line after it is looked
    at.  There are never more requests than lines. *)
Theorem parser_skips_and_stops (pre post : list string) (line : string) :
  (forall m, regex_match line = Some m -> request_type_of m <> "query"%string ->
     parser (pre ++ line :: post) = parser (pre ++ post))
  /\ (regex_match line = None -> snd (parser pre) = None ->
      parser (pre ++ line :: post) = (fst (parser pre), Some (Exception line)))
  /\ (length (fst (parser (pre ++ line :: post))) <= length (pre ++ line :: post))%nat.
Proof.
  split; [|split].
  - intros m Hm Hq. rewrite !parser_iter_app. cbn [parser_iter]. rewrite Hm.
    apply String.eqb_neq in Hq. rewrite Hq. reflexivity.
  - intros Hm Hpre. rewrite parser_iter_app, Hpre. cbn [parser_iter]. rewrite Hm.
    cbn [fst snd]. rewrite app_nil_r. reflexivity.
  - apply parser_iter_length.
Qed.

Lemma parser_iter_in (lines : list string) (r : Request) :
  In r (fst (parser lines)) ->
  exists line m,
    In line lines /\ regex_match line = Some m /\
    request_type_of m = "query"%string /\
    dateutil_parse (timestamp_text m) = inr (timestamp r) /\
    _get_body json_loads update_from_pairs m = inr (json_body r) /\
    method r = "POST"%string /\
    url_path r = ("/" ++ group_index m ++ "/_search")%string.
Proof.
  induction lines as [|line lines IH]; cbn [parser_iter]; [intros []|].
  assert (Hrest : In r (fst (parser lines)) ->
            exists line0 m, In line0 (line :: lines) /\ regex_match line0 = Some m /\
              request_type_of m = "query"%string /\
              dateutil_parse (timestamp_text m) = inr (timestamp r) /\
              _get_body json_loads update_from_pairs m = inr (json_body r) /\
              method r = "POST"%string /\
              url_path r = ("/" ++ group_index m ++ "/_search")%string).
  { intros H. destruct (IH H) as (l0 & m & Hin & Hrest). exists l0, m.
    split; [right; exact Hin|exact Hrest]. }
  destruct (regex_match line) as [m|] eqn:Em; [|intros []].
  destruct (String.eqb (request_type_of m) "query") eqn:Eq; cbn [negb]; [|exact Hrest].
  destruct (dateutil_parse (timestamp_text m)) as [e|t] eqn:Et; [intros []|].
  destruct (_get_body json_loads update_from_pairs m) as [e|b] eqn:Eb; [intros []|].
  cbn [fst]. intros [<-|H]; [|exact (Hrest H)].
  exists line, m. apply String.eqb_eq in Eq. cbn.
  split; [left; reflexivity|]. repeat split; assumption.
Qed.

(** X17: what the parser yields and where it is sent.  Every request the
    parser yields comes from a line of the log that matched and is a query:
    its timestamp is what [dateutil] read, its body what [_get_body] built,
    its method [POST] and its path [/<index>/_search].  The path starting
    with a slash, the URL that the generator of [LoadTester] builds for it
    has two slashes after the port: [http://<host>:<port>//<index>/_search]. *)
Theorem replayed_requests (lines : list string) (r : Request) :
  In r (fst (parser lines)) ->
  exists line m,
    In line lines /\ regex_match line = Some m /\
    request_type_of m = "query"%string /\
    dateutil_parse (timestamp_text m) = inr (timestamp r) /\
    _get_body json_loads update_from_pairs m = inr (json_body r) /\
    method r = "POST"%string /\
    url_path r = ("/" ++ group_index m ++ "/_search")%string /\
    forall latency rest s y f s',
      yield_request latency r rest s = (Ret (y, f), s') ->
      url y = ("http://" ++ host (self s) ++ ":" ++ port (self s) ++ "//"
                 ++ group_index m ++ "/_search")%string /\
      body y = json_body r.
Proof.
  intros Hin. destruct (parser_iter_in lines r Hin)
    as (line & m & Hl & Hm & Hq & Ht & Hb & Hp & Hu).
  exists line, m. repeat (split; [assumption|]).
  intros latency rest s y f s' Hy.
  destruct (yield_request_ret latency r rest s s' y f Hy) as (Hurl & Hbody & _).
  split; [|exact Hbody]. rewrite Hurl. unfold request_url. rewrite Hu. reflexivity.
Qed.

Lemma parser_iter_no_query (lines : list string) :
  (forall line, In line lines ->
     exists m, regex_match line = Some m /\ request_type_of m <> "query"%string) ->
  parser lines = ([], None).
Proof.
  induction lines as [|line lines IH]; intros H; [reflexivity|]. cbn [parser_iter].
  destruct (H line (or_introl eq_refl)) as (m & -> & Hq).
  apply String.eqb_neq in Hq. rewrite Hq. cbn [negb].
  apply IH. intros l Hl. apply H. right. exact Hl.
Qed.

(** X22: a log in which no line is a query (all its lines match, none with
    a request type ending in [query]) makes the parser yield nothing,
    without an error of its own, and the replay of it fail: [run] raises
    the [UnboundLocalError] of the generator before anything is logged or
    dispatched. *)
Theorem log_without_queries_fails (latency : nat -> Q) (network : nat -> fate)
    (fuel : nat) (minutes : Q) (s : Store) (lines : list string) :
  (forall line, In line lines ->
     exists m, regex_match line = Some m /\ request_type_of m <> "query"%string) ->
  request_generator_factory (self s) tt = fst (parser lines) ->
  fresh_timeline (self s) ->
  parser lines = ([], None) /\
  exists s',
    run latency network (S (S fuel)) minutes s
    = (Raise (UnboundLocalError "request"), s') /\
    trace s' = trace s /\ tasks s' = tasks s.
Proof.
  intros Hlines Hlog Hfresh. pose proof (parser_iter_no_query lines Hlines) as Hp.
  split; [exact Hp|]. rewrite Hp in Hlog. cbn [fst] in Hlog.
  unfold run. cbv zeta.
  rewrite (bind_Ret _ _ _ _ _ (time_time_eq latency s)).
  destruct (requests_empty_log latency fuel (elapse latency s) Hlog Hfresh)
    as (s' & E & Ht & Hts & _).
  exists s'. split; [|split; assumption].
  rewrite run_loop_step, bind_assoc. rewrite (bind_Raise _ _ _ _ _ E). reflexivity.
Qed.

End Iteration.

(** ** A drain that fails *)


Lemma mark_done_other (i j : nat) (ts : list Task) :
  i <> j -> mark_done i ts !! j = ts !! j.
Proof.
  intros Hne. unfold mark_done. destruct (ts !! i); [|reflexivity].
  apply list_lookup_insert_ne, Hne.
Qed.

Lemma mark_all_other (l : list nat) (j : nat) :
  ~ In j l -> forall ts, mark_all l ts !! j = ts !! j.
Proof.
  induction l as [|i l IH]; intros Hj ts; [reflexivity|].
  unfold mark_all in *. cbn [foldl]. rewrite IH by (intros H; apply Hj; right; exact H).
  apply mark_done_other. intros ->. apply Hj. left. reflexivity.
Qed.


(** ** What [main] reports *)

(** X19: the summary [main] adds to the statistics of a run that returned
    is the tally of the responses handed to the accumulator during the run:
    its histogram counts them by status and its average is the mean [took]
    of the successes among them, a success without [took] counting in the
    number but not in the sum.  When none of them was a success, [main]
    raises [ZeroDivisionError] and the statistics of the run are lost. *)
Theorem main_reports_the_tally (latency : nat -> Q) (network : nat -> fate)
    (fuel : nat) (minutes : Q) (s s' : Store) (stats : RunStats) :
  tallied s ->
  run latency network fuel minutes s = (Ret stats, s') ->
  let handed := sink_calls (trace s') in
  (count_status 200 handed = 0%nat ->
   main latency network fuel minutes s = (Raise ZeroDivisionError, s'))
  /\ (count_status 200 handed <> 0%nat ->
      exists summary,
        main latency network fuel minutes s = (Ret (stats, summary), s') /\
        (forall k, counter_get (summary_completion_status_counts summary) k
                   = count_status k handed) /\
        (average_time_per_successful_request summary ==
         total_took handed / inject_Z (Z.of_nat (count_status 200 handed)))%Q).
Proof.
  intros Hs Hrun handed.
  destruct (tallied_run_steps latency) as (H1 & H2 & H3 & H4 & H5).
  pose proof (preserves_run latency network tallied H1 H2 H3 H4 H5 tallied_finish_task
                fuel minutes s Hs) as [Hc Ht].
  rewrite Hrun in Hc, Ht. cbn [snd] in Hc, Ht. fold handed in Hc, Ht.
  destruct (get_summary_cases (response_accumulator (self s'))) as [H0 Hn].
  unfold main. rewrite (bind_Ret _ _ _ _ _ Hrun). unfold bind, zoom.
  rewrite Hc in H0, Hn. split.
  - intros Hz. rewrite (H0 Hz), store_eta. reflexivity.
  - intros Hz. rewrite (Hn Hz), store_eta. eexists. split; [reflexivity|].
    cbn [summary_completion_status_counts average_time_per_successful_request].
    split; [exact Hc|]. rewrite Ht. reflexivity.
Qed.

(** * The properties on concrete runs *)

(** The second query of [two_events], asked about right after the first was
    pulled at clock 0 and speed 1, is due in 20 seconds. *)
Lemma next_sleep_formula_witness :
  exists sleep,
    fst (_get_sleep_time no_latency (t_2019 + 20000000) (fst (after_pulls 1))) = Ret sleep /\
    (sleep == 20)%Q.
Proof.
  destruct (next_sleep_formula no_latency (fst (after_pulls 1)) (t_2019 + 20000000)
              unix_epoch) as (sleep & E & H & _).
  - vm_compute. discriminate.
  - vm_compute. reflexivity.
  - vm_compute. reflexivity.
  - exists sleep. rewrite E. split; [reflexivity|]. rewrite H. vm_compute. reflexivity.
Defined.

(** [two_events] lasts 20 seconds; after the two requests of the first pass
    the generator yields the first request again, due in 20 seconds and not
    at once. *)
Lemma first_wrap_is_continuous_witness :
  exists ys f1 s1 y f2 s2,
    pulls no_latency 1 2 requests_start fresh_store = (Ret (ys, f1), s1) /\
    _requests no_latency 1 f1 s1 = (Ret (y, f2), s2) /\
    log_delta_time (self s2) = 20000000 /\
    log_initial_time (self s2) = t_2019 - 20000000 /\
    (sleep_time y == 20)%Q.
Proof.
  destruct (first_wrap_is_continuous no_latency 0 fresh_store two_events accumulator_init
              "localhost" "9200" 1 (search t_2019) [search (t_2019 + 20000000)])
    as (ys & f1 & s1 & y & f2 & s2 & linear & E & _ & _ & E2 & HD & HO & El & Hy).
  - reflexivity.
  - reflexivity.
  - reflexivity.
  - vm_compute. discriminate.
  - vm_compute. split; [reflexivity|discriminate].
  - exists ys, f1, s1, y, f2, s2.
    split; [exact E|]. split; [exact E2|]. split; [exact HD|]. split; [exact HO|].
    rewrite Hy. clear - E El. vm_compute in E. injection E as _ _ <-.
    vm_compute in El. injection El as <-. vm_compute. reflexivity.
Defined.

(** C4, the claim as worded, fails: on [two_events] with a budget of 10
    seconds and an exact clock the code reads the clock before each sleep,
    cuts the second sleep from 20 to 10 seconds and dispatches the second
    request when the budget is used up; a loop that sleeps first and checks
    afterwards dispatches the first request only. *)
Lemma pacing_order_counterexample :
  map kind (trace (snd (run_loop no_latency always_cancelled 5 10 0
                          requests_start 0 fresh_store)))
    = [KPull; KCheck; KSleep; KDispatch; KPull; KCheck; KSleep; KDispatch; KPull; KCheck]
  /\ map kind (trace (snd (spec_run_loop no_latency always_cancelled 5 10 0
                             requests_start 0 fresh_store)))
    = [KPull; KSleep; KCheck; KDispatch; KPull; KSleep; KCheck]
  /\ (exists request delta_secs,
        fst (run_loop no_latency always_cancelled 5 10 0 requests_start 0 fresh_store)
        = Ret (request, delta_secs, 2))
  /\ (exists request delta_secs,
        fst (spec_run_loop no_latency always_cancelled 5 10 0 requests_start 0 fresh_store)
        = Ret (request, delta_secs, 1)).
Proof.
  split; [vm_compute; reflexivity|]. split; [vm_compute; reflexivity|].
  split; eexists _, _; vm_compute; reflexivity.
Qed.

(** C5, the claim as worded, fails: a summary asked of an accumulator that
    has counted no success raises [ZeroDivisionError], and so does [main]
    after a run in which every response had status 500. *)
Lemma summary_without_success_raises :
  counter_get (completion_status_counts accumulator_init) 200 = 0%nat /\
  get_summary accumulator_init = (Raise ZeroDivisionError, accumulator_init) /\
  fst (main no_latency always_500 5 (1 # 6) fresh_store) = Raise ZeroDivisionError.
Proof. repeat split; vm_compute; reflexivity. Qed.

(** C7, the claim as worded, fails: a task whose connection was refused ran
    to its end, and its callback did not call the accumulator. *)
Lemma transport_failure_skips_sink :
  _fetch (PostFails connection_refused) = Raise connection_refused /\
  _callback (_fetch (PostFails connection_refused)) fresh_store
    = (Raise connection_refused, fresh_store) /\
  length (sink_calls (trace (snd (_callback (_fetch (PostFails connection_refused))
                                    fresh_store)))) <> 1%nat.
Proof. repeat split; vm_compute; try reflexivity. discriminate. Qed.

(** Draining [three_tasks]: the cancelled task and the one that had its
    response are passed over; the refused connection comes out of the drain. *)
Lemma drain_cancellation_handling_witness :
  (exists s', drain [0; 1]%nat three_tasks = (Ret tt, s')) /\
  (exists s', drain [0; 1; 2]%nat three_tasks = (Raise connection_refused, s')).
Proof.
  destruct (drain_cancellation_handling no_latency always_cancelled three_tasks [0; 1]%nat)
    as (H1 & H2 & _).
  - repeat constructor; eexists; (split; [reflexivity|]);
      [left|right; eexists]; reflexivity.
  - split; [exact H1|].
    exact (H2 2%nat [] _ connection_refused eq_refl eq_refl ltac:(discriminate)).
Defined.

(** A ten-second run over [two_events] with an exact clock: two requests
    sent, both still pending at the cutoff, the replay on schedule. *)
Lemma run_statistics_witness :
  exists stats,
    fst (run no_latency always_cancelled 5 (1 # 6) fresh_store) = Ret stats /\
    num_sent_requests stats = 2 /\
    num_outstanding_requests stats = 2 /\
    (run_time_minutes stats == 1 # 6)%Q /\
    (average_requests_per_second stats == 1 # 5)%Q /\
    (seconds_behind stats == 0)%Q /\
    (percentage_behind stats == 0)%Q.
Proof.
  edestruct (run_statistics no_latency always_cancelled 5 (1 # 6) fresh_store)
    as (stats & E & Hm & Hs & _ & Ha & Ho & Hb & Hp & _).
  - reflexivity.
  - vm_compute. reflexivity.
  - vm_compute. reflexivity.
  - exists stats. rewrite E. split; [reflexivity|].
    split; [exact Hs|]. split; [exact Ho|].
    split; [rewrite Hm; vm_compute; reflexivity|].
    split; [rewrite Ha; vm_compute; reflexivity|].
    split; [rewrite Hb; vm_compute; reflexivity|].
    rewrite Hp, Hb. vm_compute. reflexivity.
Defined.

(** [percentage_behind] is not clamped: on a log whose second query is stamped
    a thousand seconds before the first, with a clock that moves one second
    per reading, the ten-second run ends more than a hundred times behind. *)
Lemma percentage_behind_exceeds_one :
  exists stats,
    fst (run one_second always_cancelled 20 (1 # 6)
           (initial_store out_of_order "localhost" "9200" 1 0)) = Ret stats /\
    (1 < percentage_behind stats)%Q.
Proof. eexists. split; vm_compute; reflexivity. Qed.

(** Over [two_events] with a budget of ten seconds, both dispatches follow a
    reading below ten seconds. *)
Lemma budget_enforced_witness :
  exists new,
    controller (trace (snd (run_loop no_latency always_cancelled 5 10 0
                              requests_start 0 fresh_store)))
      = controller (trace fresh_store) ++ new /\
    dispatches new = 2%nat /\
    (forall pre task post, new = pre ++ ADispatch task :: post ->
       exists pre' delta delay,
         pre = pre' ++ [ACheck delta; ASleep delay] /\
         (delta < 10)%Q /\ (delta + Qmax delay 0 <= 10)%Q).
Proof.
  destruct (budget_enforced no_latency always_cancelled 5 10 0 requests_start 0 fresh_store)
    as (new & E & Hd & _).
  exists new. split; [exact E|]. split; [|exact Hd].
  vm_compute in E. rewrite <- E. reflexivity.
Defined.

Lemma pacing_iteration_order_witness :
  exists done tail,
    controller (trace (snd (run_loop no_latency always_cancelled 5 10 0
                              requests_start 0 fresh_store)))
      = controller (trace fresh_store) ++ done ++ tail /\
    paced 10 done /\
    exists request delta_secs,
      tail = [APull (sleep_time request); ACheck delta_secs] /\ (10 <= delta_secs)%Q.
Proof.
  destruct (pacing_iteration_order no_latency always_cancelled 5 10 0
              requests_start 0 fresh_store) as (done & tail & E & Hp & Ho).
  exists done, tail. split; [exact E|]. split; [exact Hp|].
  destruct (fst (run_loop no_latency always_cancelled 5 10 0 requests_start 0 fresh_store))
    as [[[request d] sent']| |] eqn:Ef.
  - destruct Ho as (Ht & Hb & _). exists request, d. split; assumption.
  - vm_compute in Ef. discriminate.
  - vm_compute in Ef. discriminate.
Defined.

Lemma get_summary_zero_successes_witness :
  get_summary accumulator_init = (Raise ZeroDivisionError, accumulator_init).
Proof. exact (proj1 (proj1 (get_summary_zero_successes accumulator_init)) eq_refl). Defined.

Lemma accumulation_correct_witness :
  exists a,
    process_all P6_responses accumulator_init = (Ret tt, a) /\
    counter_get (completion_status_counts a) 200 = 2%nat /\
    counter_get (completion_status_counts a) 500 = 1%nat /\
    counter_get (completion_status_counts a) 404 = 0%nat /\
    (total_took_time a == 30)%Q.
Proof.
  destruct (proj2 accumulation_correct P6_responses) as (a & E & Hc & Ht & _).
  - repeat constructor; intros H; try discriminate H; eexists; reflexivity.
  - exists a. split; [exact E|]. rewrite !Hc, Ht. repeat split.
Defined.

(** A response with status 200 reaches the accumulator once, as it is. *)
Lemma callback_sink_invocations_witness :
  sink_calls (trace (snd (_callback (_fetch (PostResponds 200 (inr (took 3)))) fresh_store)))
  = [{| status := 200; json := took 3 |}].
Proof.
  destruct (callback_sink_invocations (PostResponds 200 (inr (took 3))) fresh_store)
    as (H & _ & _).
  destruct (H 200 (took 3) eq_refl) as (_ & o & s' & E & Hs & _).
  rewrite E. cbn [snd]. rewrite Hs. reflexivity.
Defined.

(** A response with status 201 is counted and adds no latency. *)
Lemma process_response_information_witness :
  fst (process_response_information {| status := 201; json := took 7 |} accumulator_init)
    = Ret tt /\
  counter_get (completion_status_counts
                 (snd (process_response_information
                         {| status := 201; json := took 7 |} accumulator_init))) 201 = 1%nat /\
  total_took_time (snd (process_response_information
                          {| status := 201; json := took 7 |} accumulator_init)) = 0%Q.
Proof.
  destruct (process_response_information_counts_and_latency
              {| status := 201; json := took 7 |} accumulator_init) as (Hc & Hne & _).
  destruct (Hne ltac:(discriminate)) as [Ho Ht].
  split; [exact Ho|]. split; [rewrite Hc; reflexivity|exact Ht].
Defined.

(** *** Further properties on concrete runs *)

Lemma two_events_wrap (K : nat) :
  (K <= 1000)%nat ->
  wraps_in_range (search t_2019) [search (t_2019 + 20000000)] K.
Proof.
  intros HK j Hj. unfold log_duration, log_last, datetime_diff, datetime_min, datetime_max.
  cbn. unfold t_2019. lia.
Qed.

Lemma accumulator_tallies_sink_calls_witness :
  tallied fresh_store /\
  tallied (snd (run no_latency always_200 5 (1 # 6) fresh_store)) /\
  tallied (snd (main no_latency always_200 5 (1 # 6) fresh_store)).
Proof.
  split; [apply tallied_initial|].
  apply (accumulator_tallies_sink_calls no_latency always_200 5 (1 # 6) fresh_store).
  apply tallied_initial.
Defined.

Lemma sink_called_once_per_task_witness :
  sink_calls (trace (snd (run no_latency always_200 5 (1 # 6) fresh_store)))
  ≡ₚ done_responses (tasks (snd (run no_latency always_200 5 (1 # 6) fresh_store))) /\
  length (sink_calls (trace (snd (run no_latency always_200 5 (1 # 6) fresh_store))))
  = 2%nat.
Proof.
  destruct (sink_called_once_per_task no_latency always_200 5 (1 # 6) fresh_store)
    as [H _]; [apply counted_once_initial|].
  split; [exact H|]. vm_compute. reflexivity.
Defined.

Lemma run_leaves_nothing_pending_witness :
  length (tasks (snd (run no_latency always_cancelled 5 (1 # 6) fresh_store))) = 2%nat /\
  pending_tasks (snd (run no_latency always_cancelled 5 (1 # 6) fresh_store)) = [].
Proof.
  split; [vm_compute; reflexivity|].
  edestruct (run_leaves_nothing_pending no_latency always_cancelled 5 (1 # 6) fresh_store)
    as [H _].
  - vm_compute. reflexivity.
  - vm_compute in H. vm_compute. exact H.
Defined.

Lemma accumulation_order_independent_witness :
  completion_status_counts (feed P6_responses accumulator_init)
  = completion_status_counts
      (feed [ {| status := 200; json := took 20 |};
              {| status := 200; json := took 10 |};
              {| status := 500; json := JObj [] |} ] accumulator_init) /\
  (total_took_time (feed P6_responses accumulator_init) == 30)%Q.
Proof.
  destruct (accumulation_order_independent P6_responses
              [ {| status := 200; json := took 20 |};
                {| status := 200; json := took 10 |};
                {| status := 500; json := JObj [] |} ] accumulator_init) as [H _].
  - apply perm_swap.
  - split; [exact H|]. vm_compute. reflexivity.
Defined.

(** A ten-second replay of the two-event log, with a clock that moves by a
    second at every reading and requests that are all cancelled at the
    cutoff, returns its statistics. *)
Lemma run_returns_witness :
  exists stats s',
    run one_second always_cancelled 11 (1 # 6) fresh_store = (Ret stats, s').
Proof.
  destruct (run_returns one_second always_cancelled 1
              ltac:(reflexivity) ltac:(intros n; discriminate)
              (search t_2019) [search (t_2019 + 20000000)]
              (1 # 6) 10 11 fresh_store)
    as (request & delta_secs & sent & s1 & s2 & stats & _ & _ & Hrun).
  - reflexivity.
  - discriminate.
  - lia.
  - repeat split; reflexivity.
  - apply two_events_wrap. lia.
  - intros i. left. reflexivity.
  - constructor.
  - exists stats, s2. exact Hrun.
Defined.

(** The same replay against a server that refuses every connection comes to
    an end as well: the drain raises the refusal. *)
Lemma run_terminates_witness :
  fst (run one_second (fun _ => Completes false (PostFails connection_refused))
           11 (1 # 6) fresh_store) = Raise connection_refused.
Proof.
  pose proof (run_terminates one_second
                (fun _ => Completes false (PostFails connection_refused)) 1
                ltac:(reflexivity) ltac:(intros n; discriminate)
                (1 # 6) 10 11 fresh_store
                ltac:(discriminate) ltac:(lia) ltac:(discriminate)) as H.
  destruct (fst (run one_second _ 11 (1 # 6) fresh_store)) as [stats|e|] eqn:E.
  - vm_compute in E. discriminate.
  - vm_compute in E. injection E as <-. reflexivity.
  - contradiction.
Defined.

Lemma empty_log_raises_witness :
  exists s',
    run no_latency always_cancelled 2 1 empty_log_store
    = (Raise (UnboundLocalError "request"), s') /\
    trace s' = [] /\ tasks s' = [].
Proof.
  apply (empty_log_raises no_latency always_cancelled 0 1 empty_log_store).
  - reflexivity.
  - repeat split.
Defined.

Lemma zero_speed_multiplier_raises_witness :
  exists s',
    run no_latency always_cancelled 1 1 zero_speed_store = (Raise ZeroDivisionError, s') /\
    trace s' = [] /\ tasks s' = [].
Proof.
  apply (zero_speed_multiplier_raises no_latency always_cancelled 0 1 zero_speed_store
           (search t_2019) [search (t_2019 + 20000000)]).
  - reflexivity.
  - repeat split.
  - reflexivity.
Defined.

Lemma first_request_not_delayed_witness :
  exists y f s',
    _requests one_second 1 requests_start fresh_store = (Ret (y, f), s') /\
    (sleep_time y == -1)%Q.
Proof.
  destruct (first_request_not_delayed one_second (search t_2019)
              [search (t_2019 + 20000000)] 0 fresh_store)
    as (y & f & s' & E & _ & Hs & _).
  - reflexivity.
  - repeat split.
  - discriminate.
  - discriminate.
  - exists y, f, s'. split; [exact E|]. rewrite Hs. vm_compute. reflexivity.
Defined.

Lemma replay_is_linear_witness :
  exists ys f s',
    pulls one_second 1 5 requests_start fresh_store = (Ret (ys, f), s') /\
    map (fun y => Qred (sleep_time y)) ys = [-1; 18; 17; 36; 35]%Q.
Proof.
  destruct (replay_is_linear one_second (search t_2019) [search (t_2019 + 20000000)]
              0 4 fresh_store)
    as (ys & f & s' & E & _ & _).
  - reflexivity.
  - repeat split.
  - discriminate.
  - apply two_events_wrap. cbn. lia.
  - exists ys, f, s'. split; [exact E|].
    vm_compute in E. injection E as <- _ _. vm_compute. reflexivity.
Defined.

Lemma dispatched_in_log_order_witness :
  exists t r,
    tasks (snd (run no_latency always_cancelled 5 (1 # 6) fresh_store)) !! 1%nat = Some t /\
    two_events tt !! 1%nat = Some r /\
    task_body t = json_body r /\
    task_url t = "http://localhost:9200//logs/_search"%string.
Proof.
  pose proof (dispatched_in_log_order no_latency always_cancelled 5 (1 # 6) fresh_store
                eq_refl) as H.
  cbv zeta in H.
  destruct (tasks (snd (run no_latency always_cancelled 5 (1 # 6) fresh_store)) !! 1%nat)
    as [t|] eqn:Et.
  - destruct (H 1%nat t Et) as (r & Hr & Hu & Hb & _).
    exists t, r. split; [reflexivity|]. split; [exact Hr|]. split; [exact Hb|].
    rewrite Hu. vm_compute in Hr. injection Hr as <-. reflexivity.
  - vm_compute in Et. discriminate.
Defined.

Lemma zero_budget_sends_nothing_witness :
  exists stats s',
    run one_second always_cancelled 1 0 fresh_store = (Ret stats, s') /\
    num_sent_requests stats = 0 /\ tasks s' = [].
Proof.
  destruct (zero_budget_sends_nothing one_second always_cancelled (search t_2019)
              [search (t_2019 + 20000000)] 0 0 fresh_store)
    as (request & delta & s1 & Hloop & _ & _ & Hts & _ & Hrun).
  - discriminate.
  - reflexivity.
  - repeat split.
  - discriminate.
  - reflexivity.
  - intros n. discriminate.
  - destruct Hrun as (stats & Hrun & Hsent & _).
    + vm_compute in Hloop. injection Hloop as _ <- _. discriminate.
    + exists stats, s1. split; [exact Hrun|]. split; [exact Hsent|exact Hts].
Defined.

Lemma get_body_merges_witness :
  _get_body loads_example update_example query_line
  = inr (JObj [("size"%string, JNum 5); ("query"%string, JStr "all");
               ("from"%string, JNum 0)]).
Proof.
  destruct (get_body_merges loads_example update_example query_line
              [("size"%string, JNum 10); ("query"%string, JStr "all")]
              [("size"%string, JNum 5); ("from"%string, JNum 0)])
    as (merged & E & _).
  - discriminate.
  - discriminate.
  - reflexivity.
  - reflexivity.
  - reflexivity.
Defined.

Lemma replayed_requests_witness :
  exists line m,
    In line ["a log line that is not one"; "a query line"]%string /\
    match_example line = Some m /\
    url_path replayed_query = ("/" ++ group_index m ++ "/_search")%string.
Proof.
  destruct (replayed_requests match_example parse_example loads_example update_example
              ["a query line"; "a log line that is not one"]%string replayed_query)
    as (line & m & Hin & Hm & _ & _ & _ & _ & Hu & _).
  - left. reflexivity.
  - exists line, m. split; [|split; assumption].
    destruct Hin as [<-|[<-|[]]]; [right; left|left]; reflexivity.
Defined.


Lemma main_reports_the_tally_witness :
  exists stats summary s',
    main no_latency always_200 5 (1 # 6) fresh_store = (Ret (stats, summary), s') /\
    (average_time_per_successful_request summary == 3)%Q.
Proof.
  edestruct (main_reports_the_tally no_latency always_200 5 (1 # 6) fresh_store)
    as [_ H].
  - apply tallied_initial.
  - vm_compute. reflexivity.
  - destruct H as (summary & E & _ & Ha).
    + vm_compute. discriminate.
    + eexists _, summary, _. split; [exact E|]. rewrite Ha. vm_compute. reflexivity.
Defined.


Lemma single_request_log_is_not_paced_witness :
  exists ys f s',
    pulls one_second 1 3 requests_start single_request_store = (Ret (ys, f), s') /\
    map (fun y => Qred (sleep_time y)) ys = [-1; -2; -3]%Q.
Proof.
  destruct (single_request_log_is_not_paced one_second (search t_2019) 0 2
              single_request_store)
    as (ys & f & s' & E & _ & _).
  - reflexivity.
  - repeat split.
  - discriminate.
  - unfold datetime_min, datetime_max. cbn. unfold t_2019. lia.
  - intros k. discriminate.
  - exists ys, f, s'. split; [exact E|].
    vm_compute in E. injection E as <- _ _. vm_compute. reflexivity.
Defined.

Lemma log_without_queries_fails_witness :
  exists s',
    run no_latency always_cancelled 2 1 fetch_log_store
    = (Raise (UnboundLocalError "request"), s') /\
    trace s' = [] /\ tasks s' = [].
Proof.
  destruct (log_without_queries_fails match_fetch parse_example loads_example
              update_example no_latency always_cancelled 0 1 fetch_log_store
              ["first line"; "second line"]%string)
    as (_ & H).
  - intros line _. exists fetch_line. split; [reflexivity|].
    intros H. vm_compute in H. discriminate.
  - reflexivity.
  - repeat split.
  - exact H.
Defined.
